(** * DoubanTimeline: resolution, normalisation and resilient fetching

    A shallow embedding of the Go sources [douban_module/douban.go] and
    [main.go], and the properties of the catalogue pipeline proved on it.

    Go strings are byte sequences; they are modelled as [list ascii].
    Errors are modelled by their message.  The standard-library packages the
    program calls ([strings], [regexp], [net/url], [os], [io]) are modelled at
    the level the program observes them. *)

From Stdlib Require Import Ascii String List ZArith Lia Bool.
From Stdlib Require Import Floats.PrimFloat.
From Stdlib Require DecimalString.
From stdpp Require Import base option list gmap strings sorting.

Local Open Scope Z_scope.

(** ** Go values *)

Abbreviation gostring := (list ascii).

Definition str (s : string) : gostring := list_ascii_of_string s.

(** Go's [error] values, identified with the text of [err.Error()]. *)
Abbreviation error := (list ascii) (only parsing).

(** A Go result pair [(v, err)]: either [err == nil] and the value counts, or
    the error is set and the value is the zero value. *)
Inductive result (A : Type) : Type :=
| Ok (a : A)
| Err (e : error).
Arguments Ok {A} a.
Arguments Err {A} e.

(** [float64] is IEEE 754 binary64. *)
Definition float64 : Set := PrimFloat.float.

(** The Go comparison [x == 0] on [float64]. *)
Definition float_is_zero (x : float64) : bool := PrimFloat.eqb x 0%float.

(** [%d] of an integer. *)
Definition itoa (z : Z) : gostring :=
  str (DecimalString.NilZero.string_of_int (Z.to_int z)).

(** ** Package [strings] *)

Module GoStrings.

Fixpoint HasPrefix (s prefix : gostring) {struct prefix} : bool :=
  match prefix, s with
  | [], _ => true
  | p :: prefix', c :: s' => bool_decide (c = p) && HasPrefix s' prefix'
  | _ :: _, [] => false
  end.

(** Offset of the first occurrence of [sub] in [s], if any. *)
Fixpoint index_of (s sub : gostring) : option nat :=
  if HasPrefix s sub then Some O
  else match s with
       | [] => None
       | _ :: s' => S <$> index_of s' sub
       end.

(** [strings.Index]: the byte offset of the first occurrence, or [-1]. *)
Definition Index (s sub : gostring) : Z :=
  match index_of s sub with
  | Some i => Z.of_nat i
  | None => -1
  end.

Definition Contains (s sub : gostring) : bool := 0 <=? Index s sub.

(** [strings.Replace(s, old, new, 1)].  The library returns [s] at once
    when [old == new] or when [old] does not occur; otherwise it rewrites
    the first occurrence (for an empty [old], the one at offset 0). *)
Definition Replace1 (s old new : gostring) : gostring :=
  if decide (old = new) then s
  else match index_of s old with
       | None => s
       | Some j => take j s ++ new ++ drop (j + length old) s
       end.

Fixpoint Join (elems : list gostring) (sep : gostring) : gostring :=
  match elems with
  | [] => []
  | [e] => e
  | e :: rest => e ++ sep ++ Join rest sep
  end.

(** Width in bytes of a white-space rune ([unicode.IsSpace]) encoded at the
    head of [s], or [0] when [s] does not start with one.  The runes are
    U+0009..U+000D, U+0020, U+0085, U+00A0, U+1680, U+2000..U+200A, U+2028,
    U+2029, U+202F, U+205F and U+3000, in UTF-8. *)
Definition space_width (s : gostring) : nat :=
  match map nat_of_ascii s with
  | (9 | 10 | 11 | 12 | 13 | 32) :: _ => 1
  | 194 :: (133 | 160) :: _ => 2
  | 225 :: 154 :: 128 :: _ => 3
  | 226 :: 128 :: (128 | 129 | 130 | 131 | 132 | 133 | 134 | 135 | 136
                   | 137 | 138 | 168 | 169 | 175) :: _ => 3
  | 226 :: 129 :: 159 :: _ => 3
  | 227 :: 128 :: 128 :: _ => 3
  | _ => 0
  end%nat.

(** The same test on a reversed string, for trimming at the right end. *)
Definition space_width_rev (r : gostring) : nat :=
  match r with
  | a :: _ =>
      if (space_width [a] =? 1)%nat then 1
      else match r with
           | b2 :: b1 :: _ =>
               if (space_width [b1; b2] =? 2)%nat then 2
               else match r with
                    | c3 :: c2 :: c1 :: _ =>
                        if (space_width [c1; c2; c3] =? 3)%nat then 3 else 0
                    | _ => 0
                    end
           | _ => 0
           end
  | [] => 0
  end%nat.

Fixpoint trim_left (fuel : nat) (s : gostring) : gostring :=
  match fuel with
  | O => s
  | S fuel' =>
      match space_width s with
      | O => s
      | w => trim_left fuel' (drop w s)
      end
  end.

Fixpoint trim_right_rev (fuel : nat) (r : gostring) : gostring :=
  match fuel with
  | O => r
  | S fuel' =>
      match space_width_rev r with
      | O => r
      | w => trim_right_rev fuel' (drop w r)
      end
  end.

(** [strings.TrimSpace]: all leading and trailing white space removed. *)
Definition TrimSpace (s : gostring) : gostring :=
  let l := trim_left (length s) s in
  rev (trim_right_rev (length l) (rev l)).

(** [strings.Split(s, sep)] for a non-empty separator: the pieces between
    the non-overlapping occurrences of [sep], leftmost first.  [skip] counts
    the bytes of the current occurrence still to be passed over, [cur] is
    the piece being read, reversed. *)
Fixpoint split_scan (sep : gostring) (skip : nat) (cur s : gostring)
  : list gostring :=
  match s with
  | [] => [rev cur]
  | c :: s' =>
      match skip with
      | S k => split_scan sep k cur s'
      | O =>
          if HasPrefix s sep
          then rev cur :: split_scan sep (length sep - 1) [] s'
          else split_scan sep O (c :: cur) s'
      end
  end.

Definition Split (s sep : gostring) : list gostring := split_scan sep O [] s.

(** [strings.Fields(s)]: the maximal runs of bytes free of white space.
    [skip] counts the bytes of the current white-space rune still to be
    passed over. *)
Fixpoint fields_scan (skip : nat) (cur s : gostring) : list gostring :=
  let flush := match cur with [] => [] | _ => [rev cur] end in
  match s with
  | [] => flush
  | c :: s' =>
      match skip with
      | S k => fields_scan k cur s'
      | O =>
          match space_width s with
          | O => fields_scan O (c :: cur) s'
          | S k => flush ++ fields_scan k [] s'
          end
      end
  end.

Definition Fields (s : gostring) : list gostring := fields_scan O [] s.

(** [strings.ReplaceAll] of one byte by a string. *)
Definition ReplaceAllByte (s : gostring) (old : ascii) (new : gostring)
  : gostring :=
  flat_map (fun c => if decide (c = old) then new else [c]) s.

End GoStrings.

Import GoStrings.


(** ** Package [regexp]

    A backtracking matcher with Go's leftmost-first semantics: alternation
    prefers its left branch, repetition is greedy, and the first success in
    that order is the match.  The matcher works on bytes; the classes used by
    this program (digits, and any byte but a given ASCII one) are delimited
    by ASCII bytes, which never occur inside a multi-byte UTF-8 sequence, so
    matching bytes and matching runes agree on them. *)

Module Regexp.

Inductive regexp : Type :=
| Eps
| Char (c : ascii)
| Class (p : ascii -> bool)
| Seq (r1 r2 : regexp)
| Alt (r1 r2 : regexp)
| Star (r : regexp)
| Group (i : nat) (r : regexp)
| Bol
| Eol.

Definition Plus (r : regexp) : regexp := Seq r (Star r).
Definition Quest (r : regexp) : regexp := Alt r Eps.

Fixpoint Lit (w : gostring) : regexp :=
  match w with
  | [] => Eps
  | c :: w' => Seq (Char c) (Lit w')
  end.

Fixpoint Concat (rs : list regexp) : regexp :=
  match rs with
  | [] => Eps
  | r :: rs' => Seq r (Concat rs')
  end.

(** [\d] *)
Definition is_digit (c : ascii) : bool :=
  let n := nat_of_ascii c in ((48 <=? n) && (n <=? 57))%nat.

(** [[^c]] *)
Definition not_char (c : ascii) : ascii -> bool :=
  fun x => negb (bool_decide (x = c)).

Fixpoint ngroups (r : regexp) : nat :=
  match r with
  | Seq r1 r2 | Alt r1 r2 => ngroups r1 `max` ngroups r2
  | Star r0 => ngroups r0
  | Group i r0 => i `max` ngroups r0
  | _ => O
  end.

Section Matcher.
Context {A : Type}.
(** Length of the whole subject text, to recognise its beginning. *)
Variable total : nat.

(** Greedy repetition of [step]: one more round first, provided the round
    consumed input, and the continuation [k] when that fails.  [fuel]
    bounds the rounds; the length of the input is enough, each round
    consuming at least one byte. *)
Fixpoint star_iter
  (step : gostring -> gmap nat gostring ->
          (gostring -> gmap nat gostring -> option A) -> option A)
  (k : gostring -> gmap nat gostring -> option A)
  (fuel : nat) (s : gostring) (caps : gmap nat gostring) : option A :=
  match fuel with
  | O => k s caps
  | S fuel' =>
      match step s caps
              (fun s' caps' =>
                 if (length s' <? length s)%nat
                 then star_iter step k fuel' s' caps' else None) with
      | Some a => Some a
      | None => k s caps
      end
  end.

(** [run r s caps k]: match [r] at the head of [s], then continue with
    [k] on the rest; [None] makes the matcher backtrack. *)
Fixpoint run (r : regexp) (s : gostring) (caps : gmap nat gostring)
  (k : gostring -> gmap nat gostring -> option A) {struct r} : option A :=
  match r with
  | Eps => k s caps
  | Char c =>
      match s with
      | x :: s' => if decide (x = c) then k s' caps else None
      | [] => None
      end
  | Class p =>
      match s with
      | x :: s' => if p x then k s' caps else None
      | [] => None
      end
  | Seq r1 r2 => run r1 s caps (fun s' caps' => run r2 s' caps' k)
  | Alt r1 r2 =>
      match run r1 s caps k with
      | Some a => Some a
      | None => run r2 s caps k
      end
  | Star r0 => star_iter (run r0) k (length s) s caps
  | Group i r0 =>
      run r0 s caps
        (fun s' caps' =>
           k s' (<[i := take (length s - length s') s]> caps'))
  | Bol => if (length s =? total)%nat then k s caps else None
  | Eol => match s with [] => k s caps | _ :: _ => None end
  end.
End Matcher.

(** The text matched from the start of [s] when [s'] is what remains. *)
Definition consumed (s s' : gostring) : gostring :=
  take (length s - length s') s.

(** Leftmost match: try every start offset in turn. *)
Fixpoint search_from (r : regexp) (total : nat) (s : gostring)
  : option (gostring * gmap nat gostring) :=
  match run total r s ∅ (fun s' caps => Some (consumed s s', caps)) with
  | Some m => Some m
  | None =>
      match s with
      | [] => None
      | _ :: s' => search_from r total s'
      end
  end.

Definition search (r : regexp) (text : gostring) :=
  search_from r (length text) text.

(** [Regexp.MatchString] *)
Definition MatchString (r : regexp) (text : gostring) : bool :=
  match search r text with Some _ => true | None => false end.

(** [Regexp.FindStringSubmatch]: [nil] without a match, else the whole
    match followed by the text of each group (empty for a group that took
    no part in the match). *)
Definition FindStringSubmatch (r : regexp) (text : gostring)
  : list gostring :=
  match search r text with
  | None => []
  | Some (whole, caps) =>
      whole :: map (fun i => default [] (caps !! i)) (seq 1 (ngroups r))
  end.

End Regexp.

Import Regexp.

(** ** Package [net/url]

    [url.Parse(raw)] followed by [u.Hostname()], for the URLs this program
    parses: after the scheme and [://] the authority runs up to the next [/],
    [?] or [#]; user information up to the last [@] and a trailing [:port]
    are not part of the host name.  [ParseDoubanURL] parses a URL only after
    its pattern has accepted it, and those URLs are all of this shape. *)

Module URL.

Fixpoint after_scheme (s : gostring) : gostring :=
  if HasPrefix s (str "://") then drop 3 s
  else match s with
       | [] => []
       | _ :: s' => after_scheme s'
       end.

Definition authority_end (c : ascii) : bool :=
  bool_decide (c = "/"%char) || bool_decide (c = "?"%char)
  || bool_decide (c = "#"%char).

Fixpoint take_until (p : ascii -> bool) (s : gostring) : gostring :=
  match s with
  | [] => []
  | c :: s' => if p c then [] else c :: take_until p s'
  end.

(** What follows the last [@], or everything when there is none. *)
Fixpoint strip_userinfo (s : gostring) : gostring :=
  match s with
  | [] => []
  | c :: s' =>
      if existsb (fun x => bool_decide (x = "@"%char)) s
      then (if existsb (fun x => bool_decide (x = "@"%char)) s'
            then strip_userinfo s'
            else s')
      else s
  end.

Definition Hostname (raw : gostring) : result gostring :=
  let authority := take_until authority_end (after_scheme raw) in
  let hostport := strip_userinfo authority in
  Ok (take_until (fun c => bool_decide (c = ":"%char)) hostport).

End URL.

(** ** [douban_module]: the URL resolver *)

(** The pattern of [ParseDoubanURL]:
    [^https://(?:(?:www|book|movie)\.douban\.com)/(?:game|subject)/(\d+)/?$] *)
Definition doubanURLPattern : regexp :=
  Concat
    [ Bol; Lit (str "https://");
      Seq (Alt (Lit (str "www")) (Alt (Lit (str "book")) (Lit (str "movie"))))
          (Lit (str ".douban.com"));
      Char "/";
      Alt (Lit (str "game")) (Lit (str "subject"));
      Char "/";
      Group 1 (Plus (Class is_digit));
      Quest (Char "/");
      Eol ].

(** The [switch subjectType] of [ParseDoubanURL]; [None] is its [default]. *)
Definition validHosts (subjectType : gostring) : option (list gostring) :=
  if decide (subjectType = str "book") then Some [str "book.douban.com"]
  else if decide (subjectType = str "movie") then Some [str "movie.douban.com"]
  else if decide (subjectType = str "tv") then Some [str "movie.douban.com"]
  else if decide (subjectType = str "anime") then Some [str "movie.douban.com"]
  else if decide (subjectType = str "game") then Some [str "www.douban.com"]
  else None.

Definition ParseDoubanURL (externalURL subjectType : gostring)
  : result gostring :=
  let pattern := doubanURLPattern in
  let matched := MatchString pattern externalURL in
  if negb matched then Err (str "invalid douban URL format")
  else
    let matches := FindStringSubmatch pattern externalURL in
    if (length matches <=? 1)%nat
    then Err (str "failed to extract subject ID from URL")
    else
      let subjectID := default [] (matches !! 1%nat) in
      match URL.Hostname externalURL with
      | Err err => Err err
      | Ok hostname =>
          let urlHost := default [] (Split hostname (str ":") !! O) in
          match validHosts subjectType with
          | None => Err (str "unknown subject type")
          | Some hosts =>
              let isValidHost :=
                existsb (fun host => bool_decide (urlHost = host)) hosts in
              if negb isValidHost
              then Err (str "invalid host for subject type " ++ subjectType
                        ++ str ". supported hosts: " ++ Join hosts (str ", "))
              else Ok subjectID
          end
      end.

(** ** [douban_module]: raw subject shapes and the canonical record *)

Record DoubanCover : Type := { Normal : gostring }.

Record DoubanDirector : Type := { Name : gostring }.

Record DoubanRating : Type := { Count : Z; Value : float64; Max : Z }.

Module DoubanBookSubject.
Record t : Type := mk {
  Title : gostring;
  AltTitle : gostring;
  PubDate : list gostring;
  Author : list gostring;
  Press : list gostring;
  CardSubtitle : gostring;
  Intro : gostring;
  Type_ : gostring;
  Cover : DoubanCover;
  Rating : option DoubanRating
}.
End DoubanBookSubject.

Module DoubanMovieSubject.
Record t : Type := mk {
  Title : gostring;
  AltTitle : gostring;
  PubDate : list gostring;
  Directors : list DoubanDirector;
  CardSubtitle : gostring;
  Intro : gostring;
  Type_ : gostring;
  Cover : DoubanCover;
  Rating : option DoubanRating
}.
End DoubanMovieSubject.

Module DoubanGameSubject.
Record t : Type := mk {
  Title : gostring;
  TitleCN : gostring;
  ReleaseDate : gostring;
  Developer : list gostring;
  Publisher : list gostring;
  Intro : gostring;
  Type_ : gostring;
  Cover : DoubanCover;
  Rating : option DoubanRating
}.
End DoubanGameSubject.

Module MediaSubject.
Record t : Type := mk {
  Title : gostring;
  AltTitle : gostring;
  Creator : gostring;
  Press : gostring;
  PubDate : gostring;
  Summary : gostring;
  ImageURL : gostring;
  Rating : float64
}.
End MediaSubject.

(** The [interface{}] holding one of the three raw shapes, as the type switch
    of [FetchDoubanMediaInfo] sees it. *)
Inductive doubanSubject : Type :=
| BookSubject (subject : DoubanBookSubject.t)
| MovieSubject (subject : DoubanMovieSubject.t)
| GameSubject (subject : DoubanGameSubject.t).

Definition joinStringsWithSlash (strs : list gostring) : gostring :=
  Join strs (str "/").

Definition getFirstPubdate (pubDates : list gostring) : gostring :=
  match pubDates with
  | d :: _ => d
  | [] => []
  end.

Definition getCreator (directors : list DoubanDirector) : gostring :=
  joinStringsWithSlash (map Name directors).

(** [if subject.Rating != nil { rating = subject.Rating.Value }] *)
Definition ratingValue (r : option DoubanRating) : float64 :=
  match r with
  | Some r => Value r
  | None => 0%float
  end.

(** The type switch of [FetchDoubanMediaInfo] and the record it returns. *)
Definition projectSubject (doubanSubject : doubanSubject) : MediaSubject.t :=
  match doubanSubject with
  | BookSubject subject =>
      MediaSubject.mk
        (DoubanBookSubject.Title subject)
        (DoubanBookSubject.AltTitle subject)
        (joinStringsWithSlash (DoubanBookSubject.Author subject))
        (joinStringsWithSlash (DoubanBookSubject.Press subject))
        (getFirstPubdate (DoubanBookSubject.PubDate subject))
        (DoubanBookSubject.Intro subject)
        (Normal (DoubanBookSubject.Cover subject))
        (ratingValue (DoubanBookSubject.Rating subject))
  | MovieSubject subject =>
      let tagParts :=
        Split (DoubanMovieSubject.CardSubtitle subject) (str " / ") in
      let press :=
        if (1 <? length tagParts)%nat
        then default [] (tagParts !! 1%nat) else [] in
      MediaSubject.mk
        (DoubanMovieSubject.Title subject)
        (DoubanMovieSubject.AltTitle subject)
        (getCreator (DoubanMovieSubject.Directors subject))
        press
        (getFirstPubdate (DoubanMovieSubject.PubDate subject))
        (DoubanMovieSubject.Intro subject)
        (Normal (DoubanMovieSubject.Cover subject))
        (ratingValue (DoubanMovieSubject.Rating subject))
  | GameSubject subject =>
      let Title := DoubanGameSubject.Title subject in
      let TitleCN := DoubanGameSubject.TitleCN subject in
      let '(title, altTitle) :=
        if Contains Title TitleCN
        then (TitleCN, TrimSpace (Replace1 Title TitleCN []))
        else (Title, TitleCN) in
      MediaSubject.mk
        title
        altTitle
        (joinStringsWithSlash (DoubanGameSubject.Developer subject))
        (joinStringsWithSlash (DoubanGameSubject.Publisher subject))
        (DoubanGameSubject.ReleaseDate subject)
        (DoubanGameSubject.Intro subject)
        (Normal (DoubanGameSubject.Cover subject))
        (ratingValue (DoubanGameSubject.Rating subject))
  end.

(** ** The network, as the program observes it *)

Module HTTP.

(** Reading [resp.Body] to its end. *)
Inductive body_read : Type :=
| ReadAll (data : gostring)
| ReadFails (partial : gostring) (e : error).

Record response : Type := {
  StatusCode : Z;
  Status : gostring;
  ContentType : gostring;   (* resp.Header.Get("Content-Type") *)
  Body : body_read
}.

(** One [client.Do(req)]. *)
Inductive attempt : Type :=
| DoFails (e : error)
| DoReturns (resp : response).

Definition StatusOK : Z := 200.

End HTTP.

Import HTTP.

(** An instant, in seconds since the Unix epoch. *)
Definition Time : Set := Z.

(** The zero [time.Time]: January 1 of year 1, 00:00 UTC. *)
Definition zeroTime : Time := -62135596800.

(** What the program observes of the outside: the error of
    [http.NewRequest] for a URL, if any; the outcome of the [n]-th
    [client.Do] on a URL, counted from 1 within one call of a function;
    whether [os.Create] fails on a path; when the disk refuses a write to a
    path, after how many bytes and with what error; whether [os.Remove]
    fails on a path (the file is still open when the program removes it, and
    a removal can fail as any other operation on the disk); the error of a
    database
    query or write other than record-not-found, if any; and the
    instants the successive [time.Now()] return. *)
Record world : Type := {
  http_NewRequest : gostring -> option error;
  http_Do : gostring -> nat -> attempt;
  os_Create_err : gostring -> option error;
  disk_fault : gostring -> option (nat * error);
  os_Remove_err : gostring -> option error;
  db_query_err : option error;
  db_write_err : option error;
  clock : nat -> Time
}.

(** What the calls do besides returning, in the order they do it. *)
Inductive io_event : Type :=
| EvDo (url : gostring) (n : nat)
| EvSleep (seconds : Z).

Definition newline : ascii := ascii_of_nat 10.
Definition dquote : ascii := ascii_of_nat 34.

(** [%s] and [%v] of an error that may still be [nil]. *)
Definition fmt_err (err : option error) : gostring :=
  match err with
  | Some e => e
  | None => str "%!s(<nil>)"
  end.

(** ** [douban_module]: the metadata fetch *)

Definition requestAPI_maxRetries : nat := 2.
Definition retryDelay : Z := 2.

(** The loop of [requestAPI]: [n] iterations remain, [i] is the loop counter
    and [err] the function's [err] variable. *)
Fixpoint requestAPI_loop (w : world) (requestURL : gostring)
  (n i : nat) (err : option error) (tr : list io_event)
  : result gostring * list io_event :=
  match n with
  | O =>
      (Err (str "failed to fetch data after multiple attempts"
            ++ [newline] ++ fmt_err err), tr)
  | S n' =>
      match http_NewRequest w requestURL with
      | Some reqErr => (Err reqErr, tr)
      | None =>
          let tr := tr ++ [EvDo requestURL (S i)] in
          match http_Do w requestURL (S i) with
          | DoFails respErr =>
              requestAPI_loop w requestURL n' (S i) (Some respErr)
                (tr ++ [EvSleep retryDelay])
          | DoReturns resp =>
              if negb (StatusCode resp =? StatusOK)
              then requestAPI_loop w requestURL n' (S i)
                     (Some (str "bad status: " ++ Status resp))
                     (tr ++ [EvSleep retryDelay])
              else
                match Body resp with
                | ReadFails _ e =>
                    requestAPI_loop w requestURL n' (S i) (Some e)
                      (tr ++ [EvSleep retryDelay])
                | ReadAll body => (Ok body, tr)
                end
          end
      end
  end.

Definition requestAPI (w : world) (requestURL : gostring)
  : result gostring * list io_event :=
  requestAPI_loop w requestURL requestAPI_maxRetries O None [].

Definition doubanAPIHost : gostring := str "frodo.douban.com".
Definition doubanAPIToken : gostring := str "0ac44ae016490db2204ce0a042db2916".

(** [json.Unmarshal] into each of the three raw shapes: the decoding is the
    library's, so the program is modelled for any decoder. *)
Record json_decoder : Type := {
  decodeBook : gostring -> result DoubanBookSubject.t;
  decodeMovie : gostring -> result DoubanMovieSubject.t;
  decodeGame : gostring -> result DoubanGameSubject.t
}.

(** The [switch subjectType] that picks the raw shape, and the
    [json.Unmarshal] into it. *)
Definition unmarshalSubject (json : json_decoder)
  (subjectType jsonData : gostring) : result doubanSubject :=
  if decide (subjectType = str "book") then
    match decodeBook json jsonData with
    | Ok subject => Ok (BookSubject subject)
    | Err err => Err err
    end
  else if decide (subjectType = str "game") then
    match decodeGame json jsonData with
    | Ok subject => Ok (GameSubject subject)
    | Err err => Err err
    end
  else
    match decodeMovie json jsonData with
    | Ok subject => Ok (MovieSubject subject)
    | Err err => Err err
    end.

Definition FetchDoubanMediaInfo (w : world) (json : json_decoder)
  (subjectType subjectID : gostring)
  : result MediaSubject.t * list io_event :=
  let apiSubjectType :=
    if decide (subjectType = str "book") then str "book"
    else if decide (subjectType = str "game") then str "game"
    else str "movie" in
  let apiURL := str "https://" ++ doubanAPIHost ++ str "/api/v2/"
                ++ apiSubjectType ++ str "/" ++ subjectID in
  let params := str "?apiKey=" ++ doubanAPIToken in
  let requestURL := apiURL ++ params in
  match requestAPI w requestURL with
  | (Err err, tr) => (Err err, tr)
  | (Ok jsonData, tr) =>
      match unmarshalSubject json subjectType jsonData with
      | Err err => (Err err, tr)
      | Ok doubanSubject => (Ok (projectSubject doubanSubject), tr)
      end
  end.

(** ** [main]: rating backfill *)

(** The three patterns of [extractRatingFromHTML], in the order of its
    [patterns] slice.  Each ends in [>], the group [\d+\.?\d*] and
    [</strong>].  Below, Q stands for the double quote. *)
Definition ratingTail : regexp :=
  Concat
    [ Char ">";
      Group 1 (Concat [ Plus (Class is_digit); Quest (Char ".");
                        Star (Class is_digit) ]);
      Lit (str "</strong>") ].

Definition ratingPatterns : list regexp :=
  [ (* <strong[^>]*class=Q[^Q]*rating[^Q]*Q[^>]* and the tail *)
    Concat [ Lit (str "<strong"); Star (Class (not_char ">"));
             Lit (str "class="); Char dquote;
             Star (Class (not_char dquote)); Lit (str "rating");
             Star (Class (not_char dquote)); Char dquote;
             Star (Class (not_char ">")); ratingTail ];
    (* property=Qv:averageQ[^>]* and the tail *)
    Concat [ Lit (str "property="); Char dquote; Lit (str "v:average");
             Char dquote; Star (Class (not_char ">")); ratingTail ];
    (* rating_num[^>]* and the tail *)
    Concat [ Lit (str "rating_num"); Star (Class (not_char ">"));
             ratingTail ] ].

Section Rating.
(** [strconv.ParseFloat(s, 64)] *)
Variable ParseFloat : gostring -> result float64.

(** The [for _, pattern := range patterns] loop. *)
Fixpoint extractRating_loop (patterns : list regexp) (html : gostring)
  : float64 :=
  match patterns with
  | [] => 0%float
  | re :: rest =>
      let matches := FindStringSubmatch re html in
      if (1 <? length matches)%nat then
        match ParseFloat (default [] (matches !! 1%nat)) with
        | Ok rating => rating
        | Err _ => extractRating_loop rest html
        end
      else extractRating_loop rest html
  end.

Definition extractRatingFromHTML (html : gostring) : float64 :=
  extractRating_loop ratingPatterns html.

(** [fetchRating]: one request, no retry.  The read loop keeps what it has
    read when the body fails before its end. *)
Definition fetchRating (w : world) (doubanURL : gostring) : float64 :=
  match http_NewRequest w doubanURL with
  | Some _ => 0%float
  | None =>
      match http_Do w doubanURL 1 with
      | DoFails _ => 0%float
      | DoReturns resp =>
          if negb (StatusCode resp =? StatusOK) then 0%float
          else
            let body :=
              match Body resp with
              | ReadAll data => data
              | ReadFails partial _ => partial
              end in
            extractRatingFromHTML body
      end
  end.
End Rating.

(** ** [main]: asset download *)

(** The file system: the content of every file that exists, by path. *)
Abbreviation files := (gmap gostring gostring).

(** [os.Create]: the file exists and is empty afterwards, unless it fails. *)
Definition os_Create (w : world) (path : gostring) (fs : files)
  : result files :=
  match os_Create_err w path with
  | Some e => Err e
  | None => Ok (<[path := []]> fs)
  end.

(** [io.Copy(out, resp.Body)] into the file just created at [path]: the
    bytes read are written until the disk refuses or the body fails; what
    was written before the error stays in the file. *)
Definition io_Copy (w : world) (path : gostring) (body : body_read)
  (fs : files) : files * option error :=
  let data :=
    match body with ReadAll d => d | ReadFails d _ => d end in
  let readErr :=
    match body with ReadAll _ => None | ReadFails _ e => Some e end in
  match disk_fault w path with
  | Some (n, e) =>
      if (n <? length data)%nat
      then (<[path := take n data]> fs, Some e)
      else (<[path := data]> fs, readErr)
  | None => (<[path := data]> fs, readErr)
  end.

(** [os.Remove(path)], whose error the program discards: the file is gone
    afterwards, unless the removal fails, and then it stays as it is. *)
Definition os_Remove (w : world) (path : gostring) (fs : files) : files :=
  match os_Remove_err w path with
  | Some _ => fs
  | None => delete path fs
  end.

(** The extension chosen by [downloadImage]. *)
Definition imageExt (contentType : gostring) : gostring :=
  if Contains contentType (str "png") then str ".png"
  else if Contains contentType (str "gif") then str ".gif"
  else if Contains contentType (str "webp") then str ".webp"
  else str ".jpg".

(** The extension chosen by [downloadJavImage]. *)
Definition javImageExt (contentType : gostring) : gostring :=
  if Contains contentType (str "png") then str ".png"
  else if Contains contentType (str "webp") then str ".webp"
  else str ".jpg".

Definition download_maxRetries : nat := 3.

Section Download.
(** [filepath.Join] of a directory and a file name. *)
Variable filepath_Join : gostring -> gostring -> gostring.
Variable w : world.

Record download_result : Type := {
  dl_result : result gostring;
  dl_files : files;
  dl_trace : list io_event
}.

(** The loop of [downloadImage]: [n] iterations remain and [attempt] is
    the loop counter. *)
Fixpoint downloadImage_loop (imageURL subjectID imageDir : gostring)
  (n attempt : nat) (fs : files) (tr : list io_event) : download_result :=
  match n with
  | O =>
      {| dl_result :=
           Err (str "failed to download image after "
                ++ itoa (Z.of_nat download_maxRetries) ++ str " attempts");
         dl_files := fs; dl_trace := tr |}
  | S n' =>
      match http_NewRequest w imageURL with
      | Some err =>
          if (attempt =? download_maxRetries)%nat
          then {| dl_result := Err err; dl_files := fs; dl_trace := tr |}
          else downloadImage_loop imageURL subjectID imageDir n'
                 (S attempt) fs (tr ++ [EvSleep retryDelay])
      | None =>
          let tr := tr ++ [EvDo imageURL attempt] in
          match http_Do w imageURL attempt with
          | DoFails err =>
              if (attempt =? download_maxRetries)%nat
              then {| dl_result :=
                        Err (str "failed to download image after "
                             ++ itoa (Z.of_nat download_maxRetries)
                             ++ str " attempts: " ++ err);
                      dl_files := fs; dl_trace := tr |}
              else downloadImage_loop imageURL subjectID imageDir n'
                     (S attempt) fs (tr ++ [EvSleep retryDelay])
          | DoReturns resp =>
              if negb (StatusCode resp =? StatusOK) then
                if (attempt =? download_maxRetries)%nat
                then {| dl_result :=
                          Err (str "failed to download image: status "
                               ++ itoa (StatusCode resp));
                        dl_files := fs; dl_trace := tr |}
                else downloadImage_loop imageURL subjectID imageDir n'
                       (S attempt) fs (tr ++ [EvSleep retryDelay])
              else
                let ext := imageExt (ContentType resp) in
                let filename := subjectID ++ ext in
                let localPath := filepath_Join imageDir filename in
                match os_Create w localPath fs with
                | Err err =>
                    {| dl_result :=
                         Err (str "failed to create file: " ++ err);
                       dl_files := fs; dl_trace := tr |}
                | Ok fs1 =>
                    match io_Copy w localPath (Body resp) fs1 with
                    | (fs2, Some err) =>
                        {| dl_result :=
                             Err (str "failed to save image: " ++ err);
                           dl_files := os_Remove w localPath fs2;
                           dl_trace := tr |}
                    | (fs2, None) =>
                        {| dl_result := Ok localPath;
                           dl_files := fs2; dl_trace := tr |}
                    end
                end
          end
      end
  end.

Definition downloadImage (imageURL subjectID imageDir : gostring)
  (fs : files) : download_result :=
  if decide (imageURL = []) then
    {| dl_result := Err (str "empty image URL");
       dl_files := fs; dl_trace := [] |}
  else
    downloadImage_loop imageURL subjectID imageDir
      download_maxRetries 1 fs [].
End Download.

Section DownloadJav.
Variable filepath_Join : gostring -> gostring -> gostring.
Variable w : world.

(** The loop of [downloadJavImage]. *)
Fixpoint downloadJavImage_loop (imageURL filename imageDir : gostring)
  (n attempt : nat) (fs : files) (tr : list io_event) : download_result :=
  match n with
  | O =>
      {| dl_result :=
           Err (str "failed to download JAV image after "
                ++ itoa (Z.of_nat download_maxRetries) ++ str " attempts");
         dl_files := fs; dl_trace := tr |}
  | S n' =>
      match http_NewRequest w imageURL with
      | Some err =>
          if (attempt =? download_maxRetries)%nat
          then {| dl_result := Err err; dl_files := fs; dl_trace := tr |}
          else downloadJavImage_loop imageURL filename imageDir n'
                 (S attempt) fs (tr ++ [EvSleep retryDelay])
      | None =>
          let tr := tr ++ [EvDo imageURL attempt] in
          match http_Do w imageURL attempt with
          | DoFails err =>
              if (attempt =? download_maxRetries)%nat
              then {| dl_result :=
                        Err (str "failed to download image after "
                             ++ itoa (Z.of_nat download_maxRetries)
                             ++ str " attempts: " ++ err);
                      dl_files := fs; dl_trace := tr |}
              else downloadJavImage_loop imageURL filename imageDir n'
                     (S attempt) fs (tr ++ [EvSleep retryDelay])
          | DoReturns resp =>
              if negb (StatusCode resp =? StatusOK) then
                if (attempt =? download_maxRetries)%nat
                then {| dl_result :=
                          Err (str "failed to download image: status "
                               ++ itoa (StatusCode resp));
                        dl_files := fs; dl_trace := tr |}
                else downloadJavImage_loop imageURL filename imageDir n'
                       (S attempt) fs (tr ++ [EvSleep retryDelay])
              else
                let ext := javImageExt (ContentType resp) in
                let localFilename := filename ++ ext in
                let localPath := filepath_Join imageDir localFilename in
                match os_Create w localPath fs with
                | Err err =>
                    {| dl_result :=
                         Err (str "failed to create file: " ++ err);
                       dl_files := fs; dl_trace := tr |}
                | Ok fs1 =>
                    match io_Copy w localPath (Body resp) fs1 with
                    | (fs2, Some err) =>
                        {| dl_result :=
                             Err (str "failed to save image: " ++ err);
                           dl_files := os_Remove w localPath fs2;
                           dl_trace := tr |}
                    | (fs2, None) =>
                        {| dl_result := Ok localPath;
                           dl_files := fs2; dl_trace := tr |}
                    end
                end
          end
      end
  end.

Definition downloadJavImage (imageURL filename imageDir : gostring)
  (fs : files) : download_result :=
  if decide (imageURL = []) then
    {| dl_result := Err (str "empty image URL");
       dl_files := fs; dl_trace := [] |}
  else
    downloadJavImage_loop imageURL filename imageDir
      download_maxRetries 1 fs [].
End DownloadJav.

(** ** [main]: the subprocess consumer *)

Module JavMovie.
Record t : Type := mk {
  ID : Z;
  Number : gostring;
  Title : gostring;
  Poster : gostring;
  Thumb : gostring;
  Actor : gostring;
  Release : gostring;
  Year : gostring;
  Tag : gostring;
  Mosaic : gostring;
  Runtime : gostring;
  Studio : gostring;
  Publisher : gostring;
  Director : gostring;
  Series : gostring;
  Website : gostring;
  IsFavorite : bool;
  WatchedAt : Time;
  CreatedAt : Time
}.
End JavMovie.

(** A decoded JSON value, as [json.Unmarshal] stores it in an
    [interface{}]; a number is kept as its text. *)
Unset Elimination Schemes.
Inductive json_value : Type :=
| JString (s : gostring)
| JNumber (text : gostring)
| JBool (b : bool)
| JNull
| JArray (elems : list json_value)
| JObject (fields : list (gostring * json_value)).
Set Elimination Schemes.

(** [getString]: the value under [key] when it is a string, else empty. *)
Definition getString (m : gmap gostring json_value) (key : gostring)
  : gostring :=
  match m !! key with
  | Some (JString s) => s
  | _ => []
  end.

(** A Go call either returns or panics. *)
Inductive outcome (A : Type) : Type :=
| Returns (a : A)
| Panics (msg : gostring).
Arguments Returns {A} a.
Arguments Panics {A} msg.

(** The slice expression [s[lo:hi]]; [None] is the run-time panic
    "slice bounds out of range". *)
Definition slice (s : gostring) (lo hi : Z) : option gostring :=
  if (0 <=? lo) && (lo <=? hi) && (hi <=? Z.of_nat (length s))
  then Some (take (Z.to_nat (hi - lo)) (drop (Z.to_nat lo) s))
  else None.

(** [cmd.CombinedOutput()] *)
Record exec_result : Type := {
  exec_output : gostring;
  exec_err : option error
}.

Definition startMarker : gostring := str "__JSON_START__".
Definition endMarker : gostring := str "__JSON_END__".

Section Jav.
(** [json.Unmarshal] into a [map[string]interface{}]. *)
Variable json_Unmarshal : gostring -> result (gmap gostring json_value).

(** [fetchJavInfoFromPython], from the result of running the script. *)
Definition fetchJavInfoFromPython (run : exec_result)
  : outcome (result JavMovie.t) :=
  match exec_err run with
  | Some err =>
      Returns (Err (str "Python 脚本执行失败: " ++ err ++ [newline]
                    ++ exec_output run))
  | None =>
      let outputStr := exec_output run in
      let startIdx := Index outputStr startMarker in
      let endIdx := Index outputStr endMarker in
      if (startIdx =? -1) || (endIdx =? -1) then
        Returns (Err (str "未找到有效的 JSON 输出" ++ [newline]
                      ++ outputStr))
      else
        match slice outputStr
                (startIdx + Z.of_nat (length startMarker)) endIdx with
        | None => Panics (str "slice bounds out of range")
        | Some jsonStr =>
            let jsonStr := TrimSpace jsonStr in
            match json_Unmarshal jsonStr with
            | Err err =>
                Returns (Err (str "JSON 解析失败: " ++ err ++ [newline]
                              ++ jsonStr))
            | Ok result =>
                Returns (Ok {|
                  JavMovie.ID := 0;
                  JavMovie.Number := getString result (str "number");
                  JavMovie.Title := getString result (str "title");
                  JavMovie.Poster := getString result (str "poster");
                  JavMovie.Thumb := getString result (str "thumb");
                  JavMovie.Actor := getString result (str "actor");
                  JavMovie.Release := getString result (str "release");
                  JavMovie.Year := getString result (str "year");
                  JavMovie.Tag := getString result (str "tag");
                  JavMovie.Mosaic := getString result (str "mosaic");
                  JavMovie.Runtime := getString result (str "runtime");
                  JavMovie.Studio := getString result (str "studio");
                  JavMovie.Publisher := getString result (str "publisher");
                  JavMovie.Director := getString result (str "director");
                  JavMovie.Series := getString result (str "series");
                  JavMovie.Website := getString result (str "website");
                  JavMovie.IsFavorite := false;
                  JavMovie.WatchedAt := zeroTime;
                  JavMovie.CreatedAt := zeroTime
                |})
            end
        end
  end.
End Jav.

(** ** [main]: the add-item handler *)

Module Movie.
Record t : Type := mk {
  ID : Z;
  DoubanID : gostring;
  DoubanURL : gostring;
  Title : gostring;
  AltTitle : gostring;
  Director : gostring;
  PubDate : gostring;
  ImageURL : gostring;
  Rating : float64;
  Year : gostring;
  Summary : gostring;
  IsFavorite : bool;
  WatchedAt : Time;
  CreatedAt : Time
}.

(** The three assignments of the existing-record branch. *)
Definition set_WatchedAt (v : Time) (m : t) : t :=
  mk (ID m) (DoubanID m) (DoubanURL m) (Title m) (AltTitle m) (Director m)
     (PubDate m) (ImageURL m) (Rating m) (Year m) (Summary m)
     (IsFavorite m) v (CreatedAt m).
Definition set_DoubanURL (v : gostring) (m : t) : t :=
  mk (ID m) (DoubanID m) v (Title m) (AltTitle m) (Director m)
     (PubDate m) (ImageURL m) (Rating m) (Year m) (Summary m)
     (IsFavorite m) (WatchedAt m) (CreatedAt m).
Definition set_ImageURL (v : gostring) (m : t) : t :=
  mk (ID m) (DoubanID m) (DoubanURL m) (Title m) (AltTitle m) (Director m)
     (PubDate m) v (Rating m) (Year m) (Summary m)
     (IsFavorite m) (WatchedAt m) (CreatedAt m).
End Movie.

Definition extractYear (dateStr : gostring) : gostring :=
  if decide (dateStr = []) then []
  else match Fields dateStr with
       | part :: _ => part
       | [] => []
       end.

Definition encodeURL (s : gostring) : gostring :=
  ReplaceAllByte (ReplaceAllByte s " "%char (str "+")) newline [].

Record request : Type := {
  Method : gostring;
  Form : gmap gostring gostring
}.

(** [r.FormValue(key)] *)
Definition FormValue (r : request) (key : gostring) : gostring :=
  default [] (Form r !! key).

(** What the handler writes to the [http.ResponseWriter]. *)
Inductive reply : Type :=
| HttpError (msg : gostring) (code : Z)
| Redirect (url : gostring) (code : Z).

Definition StatusMethodNotAllowed : Z := 405.
Definition StatusSeeOther : Z := 303.

(** The calls the handler makes to its collaborators, as they happen. *)
Inductive call : Type :=
| CallFetchDoubanMediaInfo (subjectType subjectID : gostring)
| CallDbFirst (doubanID : gostring)
| CallFetchRating (doubanURL : gostring)
| CallDownloadImage (imageURL subjectID imageDir : gostring)
| CallDbSave (m : Movie.t)
| CallDbCreate (m : Movie.t).

(** The state a request runs on: the movie table (by its unique
    [douban_id]), the files on disk, how many times the clock was read, and
    the calls made so far. *)
Record server : Type := {
  db : gmap gostring Movie.t;
  disk : files;
  ticks : nat;
  calls : list call
}.

Definition M (A : Type) : Type := server -> A * server.

#[global] Instance M_ret : MRet M := fun A a s => (a, s).
#[global] Instance M_bind : MBind M :=
  fun A B f m s => let '(a, s') := m s in f a s'.

Definition record_call (c : call) : M unit :=
  fun s => (tt, {| db := db s; disk := disk s; ticks := ticks s;
                   calls := calls s ++ [c] |}).

(** The category [addMovieHandler] reads off the link. *)
Definition detectSubjectType (doubanURL : gostring) : gostring :=
  if Contains doubanURL (str "book.douban.com") then str "book"
  else if Contains doubanURL (str "www.douban.com/game/") then str "game"
  else str "movie".

Inductive db_lookup : Type :=
| DbNotFound
| DbFailed (e : error)
| DbFound (m : Movie.t).

Section Handler.
Variable w : world.
Variable json : json_decoder.
Variable ParseFloat : gostring -> result float64.
Variable filepath_Join : gostring -> gostring -> gostring.
Variable filepath_Base : gostring -> gostring.
(** [time.Parse("2006-01-02", s)] *)
Variable time_Parse : gostring -> result Time.
Variable globalImageDir : gostring.

Definition time_Now : M Time :=
  fun s => (clock w (ticks s),
            {| db := db s; disk := disk s; ticks := S (ticks s);
               calls := calls s |}).

Definition do_FetchDoubanMediaInfo (subjectType subjectID : gostring)
  : M (result MediaSubject.t) :=
  _ ← record_call (CallFetchDoubanMediaInfo subjectType subjectID);
  mret (fst (FetchDoubanMediaInfo w json subjectType subjectID)).

Definition do_fetchRating (doubanURL : gostring) : M float64 :=
  _ ← record_call (CallFetchRating doubanURL);
  mret (fetchRating ParseFloat w doubanURL).

Definition do_downloadImage (imageURL subjectID imageDir : gostring)
  : M (result gostring) :=
  _ ← record_call (CallDownloadImage imageURL subjectID imageDir);
  ((fun s =>
      let r := downloadImage filepath_Join w imageURL subjectID imageDir
                 (disk s) in
      (dl_result r, {| db := db s; disk := dl_files r; ticks := ticks s;
                       calls := calls s |})) : M (result gostring)).

(** [db.Where("douban_id = ?", id).First(&m)] *)
Definition db_First (doubanID : gostring) : M db_lookup :=
  _ ← record_call (CallDbFirst doubanID);
  ((fun s =>
      match db_query_err w with
      | Some e => (DbFailed e, s)
      | None =>
          match db s !! doubanID with
          | Some m => (DbFound m, s)
          | None => (DbNotFound, s)
          end
      end) : M db_lookup).

Definition db_store (m : Movie.t) : M (option error) :=
  fun s =>
    match db_write_err w with
    | Some e => (Some e, s)
    | None =>
        (None, {| db := <[Movie.DoubanID m := m]> (db s); disk := disk s;
                  ticks := ticks s; calls := calls s |})
    end.

(** [db.Save(&m)] *)
Definition db_Save (m : Movie.t) : M (option error) :=
  _ ← record_call (CallDbSave m); db_store m.

(** [db.Create(&m)] *)
Definition db_Create (m : Movie.t) : M (option error) :=
  _ ← record_call (CallDbCreate m); db_store m.

Definition redirect_error (msg : gostring) : reply :=
  Redirect (str "/?error=" ++ encodeURL msg) StatusSeeOther.
Definition redirect_success (msg : gostring) : reply :=
  Redirect (str "/?success=" ++ encodeURL msg) StatusSeeOther.

(** The new-record part of [addMovieHandler], from [extractYear] on. *)
Definition createMovie (doubanURL subjectID : gostring)
  (mediaInfo : MediaSubject.t) (watchedAt : Time) : M reply :=
  let year := extractYear (MediaSubject.PubDate mediaInfo) in
  rating ← (if float_is_zero (MediaSubject.Rating mediaInfo)
            then do_fetchRating doubanURL
            else mret (MediaSubject.Rating mediaInfo));
  localImageURL ←
    (if decide (MediaSubject.ImageURL mediaInfo = []) then mret []
     else
       res ← do_downloadImage (MediaSubject.ImageURL mediaInfo) subjectID
               globalImageDir;
       match res with
       | Err _ => mret (MediaSubject.ImageURL mediaInfo)
       | Ok localPath => mret (str "/images/" ++ filepath_Base localPath)
       end);
  createdAt ← time_Now;
  let movie :=
    {| Movie.ID := 0;
       Movie.DoubanID := subjectID;
       Movie.DoubanURL := doubanURL;
       Movie.Title := MediaSubject.Title mediaInfo;
       Movie.AltTitle := MediaSubject.AltTitle mediaInfo;
       Movie.Director := MediaSubject.Creator mediaInfo;
       Movie.PubDate := MediaSubject.PubDate mediaInfo;
       Movie.ImageURL := localImageURL;
       Movie.Rating := rating;
       Movie.Year := year;
       Movie.Summary := MediaSubject.Summary mediaInfo;
       Movie.IsFavorite := false;
       Movie.WatchedAt := watchedAt;
       Movie.CreatedAt := createdAt |} in
  result ← db_Create movie;
  match result with
  | Some err => mret (redirect_error (str "保存电影失败: " ++ err))
  | None => mret (redirect_success (str "电影添加成功"))
  end.

(** The existing-record branch of [addMovieHandler]. *)
Definition updateMovie (doubanURL subjectID : gostring)
  (mediaInfo : MediaSubject.t) (watchedAt : Time)
  (existingMovie : Movie.t) : M reply :=
  let existingMovie := Movie.set_WatchedAt watchedAt existingMovie in
  let existingMovie := Movie.set_DoubanURL doubanURL existingMovie in
  existingMovie ←
    (if negb (bool_decide (MediaSubject.ImageURL mediaInfo = []))
        && (negb (HasPrefix (Movie.ImageURL existingMovie) (str "/images/"))
            || bool_decide (Movie.ImageURL existingMovie = []))
     then
       res ← do_downloadImage (MediaSubject.ImageURL mediaInfo) subjectID
               globalImageDir;
       match res with
       | Ok localPath =>
           mret (Movie.set_ImageURL
                   (str "/images/" ++ filepath_Base localPath)
                   existingMovie)
       | Err _ => mret existingMovie
       end
     else mret existingMovie);
  _ ← db_Save existingMovie;
  mret (redirect_success (str "电影已存在，已更新观看时间")).

Definition addMovieHandler (r : request) : M reply :=
  if negb (bool_decide (Method r = str "POST")) then
    mret (HttpError (str "Method not allowed") StatusMethodNotAllowed)
  else
    let doubanURL := FormValue r (str "douban_url") in
    let watchedAtStr := FormValue r (str "watched_at") in
    if decide (doubanURL = []) then
      mret (redirect_error (str "请输入豆瓣链接"))
    else
      now ← time_Now;
      let watchedAt :=
        if decide (watchedAtStr = []) then now
        else match time_Parse watchedAtStr with
             | Ok parsed => parsed
             | Err _ => now
             end in
      let subjectType := detectSubjectType doubanURL in
      match ParseDoubanURL doubanURL subjectType with
      | Err err => mret (redirect_error (str "无效的豆瓣链接: " ++ err))
      | Ok subjectID =>
          fetched ← do_FetchDoubanMediaInfo subjectType subjectID;
          match fetched with
          | Err err =>
              mret (redirect_error (str "获取豆瓣信息失败: " ++ err))
          | Ok mediaInfo =>
              found ← db_First subjectID;
              match found with
              | DbNotFound =>
                  createMovie doubanURL subjectID mediaInfo watchedAt
              | DbFailed err =>
                  mret (redirect_error (str "查询数据库失败: " ++ err))
              | DbFound existingMovie =>
                  updateMovie doubanURL subjectID mediaInfo watchedAt
                    existingMovie
              end
          end
      end.
End Handler.

(** ** [douban_module]: the helper of the examples *)

(** [truncateString] of [example.go]; the slice [s[:maxLen]] panics when
    [maxLen] is negative. *)
Definition truncateString (s : gostring) (maxLen : Z) : outcome gostring :=
  if Z.of_nat (length s) <=? maxLen then Returns s
  else match slice s 0 maxLen with
       | Some head => Returns (head ++ str "...")
       | None => Panics (str "slice bounds out of range")
       end.

(** ** [main]: recognising a client that went away *)

(** [isBrokenPipeOrConnectionReset]; [None] is the [nil] error. *)
Definition isBrokenPipeOrConnectionReset (err : option error) : bool :=
  match err with
  | None => false
  | Some errStr =>
      Contains errStr (str "broken pipe")
      || Contains errStr (str "connection reset")
      || Contains errStr (str "write: connection aborted")
  end.

(** ** [main]: the timeline groups *)

Module TimelineGroup.
Record t : Type := mk {
  Year : gostring;
  Month : gostring;
  Movies : list Movie.t
}.
End TimelineGroup.

Module JavTimelineGroup.
Record t : Type := mk {
  Year : gostring;
  Month : gostring;
  JavMovies : list JavMovie.t
}.
End JavTimelineGroup.

(** Go's [<] on strings, which compares them byte by byte. *)
Fixpoint string_lt (a b : gostring) : bool :=
  match a, b with
  | _, [] => false
  | [], _ :: _ => true
  | x :: a', y :: b' =>
      (nat_of_ascii x <? nat_of_ascii y)%nat
      || ((nat_of_ascii x =? nat_of_ascii y)%nat && string_lt a' b')
  end.

(** The order of [sort.Reverse(sort.StringSlice(x))], whose [Less(i, j)] is
    [x[j] < x[i]]: in a sorted slice no element stands before a greater
    one. *)
Definition reverse_order (a b : gostring) : Prop := string_lt a b = false.

#[global] Instance reverse_order_dec (a b : gostring) :
  Decision (reverse_order a b).
Proof. unfold reverse_order. apply _. Defined.

(** [sort.Sort(sort.Reverse(sort.StringSlice(keys)))].  The library's sort
    is not stable; the slices sorted here hold the keys of a map, which are
    distinct, and distinct strings have one descending arrangement. *)
Definition sortReverse (keys : list gostring) : list gostring :=
  merge_sort reverse_order keys.

(** The keys a [for key := range m] loop collects, in some order. *)
Definition map_keys {V : Type} (m : gmap gostring V) : list gostring :=
  (map_to_list m).*1.

(** [groupMoviesByYearMonth] and [groupJavMoviesByYearMonth] have the same
    body but for the types of the records and of the groups. *)
Section Timeline.
Context {Item Group : Type}.
Variable WatchedAt : Item -> Time.
Variable mkGroup : gostring -> gostring -> list Item -> Group.
(** [t.Format(layout)] *)
Variable time_Format : gostring -> Time -> gostring.

(** The body of the first loop. *)
Definition groupMap_add (groupMap : gmap gostring (gmap gostring (list Item)))
  (movie : Item) : gmap gostring (gmap gostring (list Item)) :=
  let year := time_Format (str "2006") (WatchedAt movie) in
  let month := time_Format (str "01") (WatchedAt movie) in
  let months := default ∅ (groupMap !! year) in
  <[year := <[month := default [] (months !! month) ++ [movie]]> months]>
    groupMap.

Definition groupByYearMonth (movies : list Item) : list Group :=
  let groupMap := foldl groupMap_add ∅ movies in
  let years := sortReverse (map_keys groupMap) in
  year ← years;
  let months := sortReverse (map_keys (default ∅ (groupMap !! year))) in
  month ← months;
  [mkGroup year month
     (default [] (default ∅ (groupMap !! year) !! month))].
End Timeline.

Definition groupMoviesByYearMonth
  (time_Format : gostring -> Time -> gostring) (movies : list Movie.t)
  : list TimelineGroup.t :=
  groupByYearMonth Movie.WatchedAt TimelineGroup.mk time_Format movies.

Definition groupJavMoviesByYearMonth
  (time_Format : gostring -> Time -> gostring) (javMovies : list JavMovie.t)
  : list JavTimelineGroup.t :=
  groupByYearMonth JavMovie.WatchedAt JavTimelineGroup.mk time_Format
    javMovies.

(** ** [main]: the second add-item handler *)

(** The state a request of the second catalogue runs on: the table of its
    records (by its unique column, the number), the files, and the number
    of clock readings so far. *)
Record jav_server : Type := {
  jav_db : gmap gostring JavMovie.t;
  jav_disk : files;
  jav_ticks : nat
}.

(** [existingMovie.WatchedAt = watchedAt] *)
Definition jav_set_WatchedAt (v : Time) (m : JavMovie.t) : JavMovie.t :=
  JavMovie.mk (JavMovie.ID m) (JavMovie.Number m) (JavMovie.Title m)
    (JavMovie.Poster m) (JavMovie.Thumb m) (JavMovie.Actor m)
    (JavMovie.Release m) (JavMovie.Year m) (JavMovie.Tag m)
    (JavMovie.Mosaic m) (JavMovie.Runtime m) (JavMovie.Studio m)
    (JavMovie.Publisher m) (JavMovie.Director m) (JavMovie.Series m)
    (JavMovie.Website m) (JavMovie.IsFavorite m) v (JavMovie.CreatedAt m).

Definition jav_redirect_error (msg : gostring) : reply :=
  Redirect (str "/jav?error=" ++ encodeURL msg) StatusSeeOther.
Definition jav_redirect_success (msg : gostring) : reply :=
  Redirect (str "/jav?success=" ++ encodeURL msg) StatusSeeOther.

Section JavHandler.
Variable w : world.
(** The run of the crawler script on a number. *)
Variable exec_script : gostring -> exec_result.
Variable json_Unmarshal : gostring -> result (gmap gostring json_value).
Variable strings_ToUpper : gostring -> gostring.
Variable filepath_Join : gostring -> gostring -> gostring.
Variable filepath_Base : gostring -> gostring.
Variable time_Parse : gostring -> result Time.
Variable globalImageDir : gostring.
(** The error of the database for a second record with a number. *)
Variable unique_violation : error.

(** [db.Where("number = ?", number).First(&m)], of which the handler only
    asks whether its error is nil. *)
Definition jav_First (number : gostring) (s : jav_server)
  : option JavMovie.t :=
  match db_query_err w with
  | Some _ => None
  | None => jav_db s !! number
  end.

(** [db.Save(&m)] of a record read from the table; the handler ignores
    its error. *)
Definition jav_Save (m : JavMovie.t) (s : jav_server) : jav_server :=
  match db_write_err w with
  | Some _ => s
  | None => {| jav_db := <[JavMovie.Number m := m]> (jav_db s);
               jav_disk := jav_disk s; jav_ticks := jav_ticks s |}
  end.

(** [db.Create(&m)]: the number is a unique column. *)
Definition jav_Create (m : JavMovie.t) (s : jav_server)
  : option error * jav_server :=
  match db_write_err w with
  | Some e => (Some e, s)
  | None =>
      match jav_db s !! JavMovie.Number m with
      | Some _ => (Some unique_violation, s)
      | None =>
          (None, {| jav_db := <[JavMovie.Number m := m]> (jav_db s);
                    jav_disk := jav_disk s; jav_ticks := jav_ticks s |})
      end
  end.

(** [time.Now()] *)
Definition jav_Now (s : jav_server) : Time * jav_server :=
  (clock w (jav_ticks s),
   {| jav_db := jav_db s; jav_disk := jav_disk s;
      jav_ticks := S (jav_ticks s) |}).

Definition addJavMovieHandler (r : request) (s : jav_server)
  : outcome (reply * jav_server) :=
  if negb (bool_decide (Method r = str "POST")) then
    Returns (HttpError (str "Method not allowed") StatusMethodNotAllowed, s)
  else
    let number := FormValue r (str "number") in
    let watchedAtStr := FormValue r (str "watched_at") in
    if decide (number = []) then
      Returns (jav_redirect_error (str "请输入番号"), s)
    else
      let '(now, s) := jav_Now s in
      let watchedAt :=
        if decide (watchedAtStr = []) then now
        else match time_Parse watchedAtStr with
             | Ok parsed => parsed
             | Err _ => now
             end in
      match jav_First (strings_ToUpper number) s with
      | Some existingMovie =>
          let existingMovie := jav_set_WatchedAt watchedAt existingMovie in
          let s := jav_Save existingMovie s in
          Returns (jav_redirect_success (str "影片已存在，已更新观看时间"), s)
      | None =>
          match fetchJavInfoFromPython json_Unmarshal (exec_script number)
          with
          | Panics msg => Panics msg
          | Returns (Err err) =>
              Returns (jav_redirect_error (str "获取影片信息失败: " ++ err),
                       s)
          | Returns (Ok javInfo) =>
              let '(localPoster, s) :=
                if decide (JavMovie.Poster javInfo = []) then ([], s)
                else
                  let dl := downloadJavImage filepath_Join w
                              (JavMovie.Poster javInfo)
                              (JavMovie.Number javInfo ++ str "_poster")
                              globalImageDir (jav_disk s) in
                  (match dl_result dl with
                   | Ok localPath =>
                       str "/images/" ++ filepath_Base localPath
                   | Err _ => []
                   end,
                   {| jav_db := jav_db s; jav_disk := dl_files dl;
                      jav_ticks := jav_ticks s |}) in
              let '(createdAt, s) := jav_Now s in
              let javMovie :=
                {| JavMovie.ID := 0;
                   JavMovie.Number := JavMovie.Number javInfo;
                   JavMovie.Title := JavMovie.Title javInfo;
                   JavMovie.Poster := localPoster;
                   JavMovie.Thumb := JavMovie.Thumb javInfo;
                   JavMovie.Actor := JavMovie.Actor javInfo;
                   JavMovie.Release := JavMovie.Release javInfo;
                   JavMovie.Year := JavMovie.Year javInfo;
                   JavMovie.Tag := JavMovie.Tag javInfo;
                   JavMovie.Mosaic := JavMovie.Mosaic javInfo;
                   JavMovie.Runtime := JavMovie.Runtime javInfo;
                   JavMovie.Studio := JavMovie.Studio javInfo;
                   JavMovie.Publisher := JavMovie.Publisher javInfo;
                   JavMovie.Director := JavMovie.Director javInfo;
                   JavMovie.Series := JavMovie.Series javInfo;
                   JavMovie.Website := JavMovie.Website javInfo;
                   JavMovie.IsFavorite := false;
                   JavMovie.WatchedAt := watchedAt;
                   JavMovie.CreatedAt := createdAt |} in
              match jav_Create javMovie s with
              | (Some err, s) =>
                  Returns (jav_redirect_error (str "保存影片失败: " ++ err),
                           s)
              | (None, s) =>
                  Returns (jav_redirect_success (str "影片添加成功"), s)
              end
          end
      end.
End JavHandler.

(** * Vocabulary of the statements *)

(** [pre] ends where the leftmost occurrence of [sub] in [s] begins. *)
Definition first_occurrence (s pre sub post : gostring) : Prop :=
  s = pre ++ sub ++ post /\
  forall pre' post', s = pre' ++ sub ++ post' ->
                     (length pre <= length pre')%nat.

(** A game subject with the given primary and localised titles and
    nothing else. *)
Definition gameSubject (title titleCN : gostring) : DoubanGameSubject.t :=
  DoubanGameSubject.mk title titleCN [] [] [] [] [] {| Normal := [] |} None.

(** [rest] does not start with a byte of the class [p]. *)
Definition stops (p : ascii -> bool) (rest : gostring) : Prop :=
  match rest with [] => True | x :: _ => p x = false end.

Ltac in_list :=
  repeat first [apply list_elem_of_here | apply list_elem_of_further].

(** The hosts the pattern of [ParseDoubanURL] accepts. *)
Definition doubanHosts : list gostring :=
  [str "www.douban.com"; str "book.douban.com"; str "movie.douban.com"].

(** [url] is [https://], one of the three hosts, [/game/] or [/subject/], a
    non-empty run of digits and an optional slash. *)
Definition douban_url (url host seg id slash : gostring) : Prop :=
  url = str "https://" ++ host ++ str "/" ++ seg ++ str "/" ++ id ++ slash /\
  host ∈ doubanHosts /\
  seg ∈ [str "game"; str "subject"] /\
  id <> [] /\ Forall (fun c => is_digit c = true) id /\
  slash ∈ [[]; str "/"].

(** [doubanURLPattern] without its leading [^]. *)
Definition doubanURLBody : regexp :=
  Concat
    [ Lit (str "https://");
      Seq (Alt (Lit (str "www")) (Alt (Lit (str "book")) (Lit (str "movie"))))
          (Lit (str ".douban.com"));
      Char "/";
      Alt (Lit (str "game")) (Lit (str "subject"));
      Char "/";
      Group 1 (Plus (Class is_digit));
      Quest (Char "/");
      Eol ].

(** The categories [ParseDoubanURL] knows. *)
Definition categories : list gostring :=
  [str "book"; str "movie"; str "tv"; str "anime"; str "game"].

(** What [ParseDoubanURL] returns on a URL of the pattern. *)
Definition resolve_matched (ty host id : gostring) : result gostring :=
  match validHosts ty with
  | None => Err (str "unknown subject type")
  | Some hosts =>
      if bool_decide (host ∈ hosts) then Ok id
      else Err (str "invalid host for subject type " ++ ty
                ++ str ". supported hosts: " ++ Join hosts (str ", "))
  end.

(** The resolver as the specification words it: the host belongs to the
    allow-list of the category, and the [/game/] form of the path belongs to
    the game category. *)
Definition spec_hosts (ty : gostring) : list gostring :=
  if decide (ty = str "book") then [str "book.douban.com"]
  else if decide (ty ∈ [str "movie"; str "tv"; str "anime"])
       then [str "movie.douban.com"]
  else if decide (ty = str "game") then [str "www.douban.com"]
  else [].

Definition spec_path (ty seg : gostring) : Prop :=
  seg = str "subject" \/ (ty = str "game" /\ seg = str "game").

Definition spec_resolves (url ty id : gostring) : Prop :=
  exists host seg slash,
    url = str "https://" ++ host ++ str "/" ++ seg ++ str "/" ++ id ++ slash /\
    host ∈ spec_hosts ty /\
    spec_path ty seg /\
    id <> [] /\ Forall (fun c => is_digit c = true) id /\
    slash ∈ [[]; str "/"].

(** How [requestAPI] sorts one attempt: the body it returns, or the error it
    keeps in [err] before trying again. *)
Definition attempt_outcome (a : attempt) : result gostring :=
  match a with
  | DoFails e => Err e
  | DoReturns resp =>
      if StatusCode resp =? StatusOK then
        match Body resp with
        | ReadAll body => Ok body
        | ReadFails _ e => Err e
        end
      else Err (str "bad status: " ++ Status resp)
  end.

(** A [filepath.Join] for the examples: directory, separator, file name. *)
Definition joinPath (dir file : gostring) : gostring :=
  dir ++ str "/" ++ file.

(** A [filepath.Base] for the examples: what follows the last separator. *)
Fixpoint basePath (path : gostring) : gostring :=
  match path with
  | [] => []
  | c :: rest =>
      if existsb (fun x => bool_decide (x = "/"%char)) path
      then basePath rest else path
  end.

Definition response200 (contentType : gostring) (body : body_read)
  : response :=
  {| StatusCode := 200; Status := str "200 OK";
     ContentType := contentType; Body := body |}.

(** A world whose every request is answered by [answer], and where nothing
    else goes wrong. *)
Definition worldOf (answer : gostring -> nat -> attempt) : world :=
  {| http_NewRequest := fun _ => None;
     http_Do := answer;
     os_Create_err := fun _ => None;
     disk_fault := fun _ => None;
     os_Remove_err := fun _ => None;
     db_query_err := None;
     db_write_err := None;
     clock := fun n => 1700000000 + Z.of_nat n |}.

(** The first response breaks off while its body is read; every later one
    is complete. *)
Definition truncatedOnce : world :=
  worldOf (fun _ n =>
             match n with
             | 1%nat => DoReturns (response200 (str "image/png")
                                     (ReadFails (str "PNG")
                                        (str "unexpected EOF")))
             | _ => DoReturns (response200 (str "image/png")
                                 (ReadAll (str "PNGDATA")))
             end).

Definition sampleImageURL : gostring := str "https://img1.doubanio.com/p1.png".

(** The files after a save into [path] that failed, given the files [fs]
    before the file was created: the files less [path] when the removal
    works, and the files with what was written at [path] when it fails. *)
Definition after_failed_save (w : world) (path : gostring)
  (fs after : files) : Prop :=
  match os_Remove_err w path with
  | None => after = delete path fs
  | Some _ => exists partial, after = <[path := partial]> fs
  end.

(** What a call of [downloadImage] may leave behind, given the files [fs]
    it started from.  After an error: the files as they were, or the files
    after a failed save into the destination the call had created.  After
    success: the complete body of a 200 response, at the returned path,
    which is the destination for that response. *)
Definition download_post (join : gostring -> gostring -> gostring)
  (w : world) (imageURL subjectID imageDir : gostring) (fs : files)
  (r : download_result) : Prop :=
  match dl_result r with
  | Err _ =>
      dl_files r = fs \/
      exists resp,
        after_failed_save w
          (join imageDir (subjectID ++ imageExt (ContentType resp))) fs
          (dl_files r)
  | Ok localPath =>
      exists n resp body,
        (1 <= n <= download_maxRetries)%nat /\
        http_Do w imageURL n = DoReturns resp /\
        StatusCode resp = StatusOK /\
        Body resp = ReadAll body /\
        localPath = join imageDir (subjectID ++ imageExt (ContentType resp)) /\
        dl_files r = <[localPath := body]> fs
  end.

(** The disk takes four bytes of any file and then reports that it is
    full; the server answers every request with a complete image. *)
Definition diskFull : world :=
  {| http_NewRequest := fun _ => None;
     http_Do := fun _ _ =>
       DoReturns (response200 (str "image/png") (ReadAll (str "PNGDATA")));
     os_Create_err := fun _ => None;
     disk_fault := fun _ => Some (4%nat, str "no space left on device");
     os_Remove_err := fun _ => None;
     db_query_err := None;
     db_write_err := None;
     clock := fun n => 1700000000 + Z.of_nat n |}.



(** The disk is full after four bytes, as in [diskFull], and the file that
    is still open cannot be removed. *)
Definition stuckDisk : world :=
  {| http_NewRequest := fun _ => None;
     http_Do := fun _ _ =>
       DoReturns (response200 (str "image/png") (ReadAll (str "PNGDATA")));
     os_Create_err := fun _ => None;
     disk_fault := fun _ => Some (4%nat, str "no space left on device");
     os_Remove_err := fun _ => Some (str "sharing violation");
     db_query_err := None;
     db_write_err := None;
     clock := fun n => 1700000000 + Z.of_nat n |}.




(** The rating one pattern yields on a page, in the specification's words:
    the pattern matches and the text of its group parses as a number. *)
Definition pattern_rating (ParseFloat : gostring -> result float64)
  (html : gostring) (re : regexp) : option float64 :=
  match FindStringSubmatch re html with
  | _ :: captured :: _ =>
      match ParseFloat captured with
      | Ok rating => Some rating
      | Err _ => None
      end
  | _ => None
  end.

(** The first pattern, in the order of the list, that yields a rating
    decides; without one the rating is the sentinel. *)
Definition first_rating (ParseFloat : gostring -> result float64)
  (patterns : list regexp) (html : gostring) : float64 :=
  default 0%float (head (omap (pattern_rating ParseFloat html) patterns)).

(** What [fetchRating] has read of the page when it scans it. *)
Definition body_bytes (body : body_read) : gostring :=
  match body with
  | ReadAll data => data
  | ReadFails partial _ => partial
  end.

(** A catalogue page fragment carrying the rating 9.5. *)
Definition samplePage : gostring :=
  str "<strong class=" ++ [dquote] ++ str "ll rating_num" ++ [dquote]
  ++ str " property=" ++ [dquote] ++ str "v:average" ++ [dquote]
  ++ str ">9.5</strong>".

(** [strconv.ParseFloat] on the one text the examples need. *)
Definition sampleParseFloat (s : gostring) : result float64 :=
  if decide (s = str "9.5") then Ok 9.5%float
  else Err (str "strconv.ParseFloat: parsing: invalid syntax").

(** Every request is answered with [samplePage] under the given status. *)
Definition pageWorld (status : Z) : world :=
  worldOf (fun _ _ =>
             DoReturns {| StatusCode := status; Status := itoa status;
                          ContentType := str "text/html";
                          Body := ReadAll samplePage |}).

Definition samplePageURL : gostring :=
  str "https://movie.douban.com/subject/1292052/".

Definition is_CallFetchRating (c : call) : bool :=
  match c with CallFetchRating _ => true | _ => false end.

(** The calls of a resolution that creates a record, in order: the metadata
    fetch, the lookup, the rating backfill when the mapped rating is 0, the
    asset download when there is an image, the creation. *)
Definition new_record_calls
  (subjectType subjectID doubanURL imageDir : gostring)
  (mediaInfo : MediaSubject.t) (movie : Movie.t) : list call :=
  [CallFetchDoubanMediaInfo subjectType subjectID; CallDbFirst subjectID]
  ++ (if float_is_zero (MediaSubject.Rating mediaInfo)
      then [CallFetchRating doubanURL] else [])
  ++ (if decide (MediaSubject.ImageURL mediaInfo = []) then []
      else [CallDownloadImage (MediaSubject.ImageURL mediaInfo) subjectID
              imageDir])
  ++ [CallDbCreate movie].

(** The request [r] on the state [s] is a resolution that creates a record:
    a POST with a link that resolves to [subjectID], whose metadata fetch
    yields [mediaInfo], and that the table does not hold yet. *)
Record new_record (w : world) (json : json_decoder) (r : request)
  (s : server) (subjectID : gostring) (mediaInfo : MediaSubject.t) : Prop := {
  nr_method : Method r = str "POST";
  nr_link : FormValue r (str "douban_url") <> [];
  nr_resolved :
    ParseDoubanURL (FormValue r (str "douban_url"))
      (detectSubjectType (FormValue r (str "douban_url"))) = Ok subjectID;
  nr_fetched :
    fst (FetchDoubanMediaInfo w json
           (detectSubjectType (FormValue r (str "douban_url"))) subjectID)
    = Ok mediaInfo;
  nr_query : db_query_err w = None;
  nr_absent : db s !! subjectID = None
}.

Definition is_CallFetchDoubanMediaInfo (c : call) : bool :=
  match c with CallFetchDoubanMediaInfo _ _ => true | _ => false end.

Definition is_CallDownloadImage (c : call) : bool :=
  match c with CallDownloadImage _ _ _ => true | _ => false end.

(** In the sequence [l], every call of kind [P] is made before every call of
    kind [Q]. *)
Definition precedes (P Q : call -> bool) (l : list call) : Prop :=
  forall i j c d,
    l !! i = Some c -> l !! j = Some d ->
    P c = true -> Q d = true -> (i < j)%nat.

(** A movie subject without a rating and with a cover. *)
Definition sampleMovieSubject : DoubanMovieSubject.t :=
  DoubanMovieSubject.mk
    (str "肖申克的救赎") (str "The Shawshank Redemption")
    [str "1994-09-10"] [{| Name := str "弗兰克·德拉邦特" |}]
    (str "1994 / 美国 / 剧情 犯罪") (str "希望让人自由。") (str "movie")
    {| Normal := sampleImageURL |} None.

Definition sampleDecoder : json_decoder :=
  {| decodeBook := fun _ => Err (str "json: cannot unmarshal");
     decodeMovie := fun _ => Ok sampleMovieSubject;
     decodeGame := fun _ => Err (str "json: cannot unmarshal") |}.

(** The API answers with a JSON document, the catalogue page carries the
    rating 9.5, and the image server answers as [image] says. *)
Definition catalogueWorld (image : attempt) : world :=
  worldOf (fun url _ =>
             if decide (url = sampleImageURL) then image
             else if HasPrefix url (str "https://frodo.douban.com/")
                  then DoReturns (response200 (str "application/json")
                                    (ReadAll (str "{}")))
                  else DoReturns (response200 (str "text/html")
                                    (ReadAll samplePage))).

Definition imageServed : attempt :=
  DoReturns (response200 (str "image/png") (ReadAll (str "PNGDATA"))).

Definition imageUnreachable : attempt :=
  DoFails (str "context deadline exceeded").

Definition sampleRequest : request :=
  {| Method := str "POST";
     Form := {[ str "douban_url" := samplePageURL ]} |}.

Definition emptyServer : server :=
  {| db := ∅; disk := ∅; ticks := 0; calls := [] |}.

Definition noTimeParse (s : gostring) : result Time :=
  Err (str "parsing time: cannot parse").

(** The script printed the closing marker, in a usage line, before the
    opening one. *)
Definition markersOutOfOrder : exec_result :=
  {| exec_output :=
       str "usage: print __JSON_END__ after the JSON and "
       ++ str "__JSON_START__ before it";
     exec_err := None |}.

(** The record [fetchJavInfoFromPython] builds from a decoded object. *)
Definition javMovieOf (result : gmap gostring json_value) : JavMovie.t :=
  {| JavMovie.ID := 0;
     JavMovie.Number := getString result (str "number");
     JavMovie.Title := getString result (str "title");
     JavMovie.Poster := getString result (str "poster");
     JavMovie.Thumb := getString result (str "thumb");
     JavMovie.Actor := getString result (str "actor");
     JavMovie.Release := getString result (str "release");
     JavMovie.Year := getString result (str "year");
     JavMovie.Tag := getString result (str "tag");
     JavMovie.Mosaic := getString result (str "mosaic");
     JavMovie.Runtime := getString result (str "runtime");
     JavMovie.Studio := getString result (str "studio");
     JavMovie.Publisher := getString result (str "publisher");
     JavMovie.Director := getString result (str "director");
     JavMovie.Series := getString result (str "series");
     JavMovie.Website := getString result (str "website");
     JavMovie.IsFavorite := false;
     JavMovie.WatchedAt := zeroTime;
     JavMovie.CreatedAt := zeroTime |}.

(** [sub] occurs in [s]. *)
Definition occurs (sub s : gostring) : Prop :=
  exists pre post, s = pre ++ sub ++ post.

(** The error [downloadImage] ends with when its last attempt fails this
    way; [None] for an attempt that got status 200. *)
Definition download_failure (a : attempt) : option error :=
  match a with
  | DoFails err =>
      Some (str "failed to download image after 3 attempts: " ++ err)
  | DoReturns resp =>
      if StatusCode resp =? StatusOK then None
      else Some (str "failed to download image: status "
                 ++ itoa (StatusCode resp))
  end.

(** Every request is answered with a complete GIF image. *)
Definition gifWorld : world :=
  worldOf (fun _ _ =>
             DoReturns (response200 (str "image/gif")
                          (ReadAll (str "GIF89a")))).

(** A printable ASCII byte other than the space. *)
Definition is_graphic (c : ascii) : bool :=
  let n := nat_of_ascii c in ((33 <=? n) && (n <=? 126))%nat.

(** The request [r] is a POST with a link that resolves to [subjectID] and
    whose metadata fetch yields [mediaInfo]. *)
Record resolved_request (w : world) (json : json_decoder) (r : request)
  (subjectID : gostring) (mediaInfo : MediaSubject.t) : Prop := {
  rr_method : Method r = str "POST";
  rr_link : FormValue r (str "douban_url") <> [];
  rr_resolved :
    ParseDoubanURL (FormValue r (str "douban_url"))
      (detectSubjectType (FormValue r (str "douban_url"))) = Ok subjectID;
  rr_fetched :
    fst (FetchDoubanMediaInfo w json
           (detectSubjectType (FormValue r (str "douban_url"))) subjectID)
    = Ok mediaInfo
}.

(** The viewing date the handler settles on: the [watched_at] field when it
    is present and parses, else the instant the clock shows. *)
Definition watchedAtOf (w : world) (time_Parse : gostring -> result Time)
  (r : request) (s : server) : Time :=
  if decide (FormValue r (str "watched_at") = []) then clock w (ticks s)
  else match time_Parse (FormValue r (str "watched_at")) with
       | Ok parsed => parsed
       | Err _ => clock w (ticks s)
       end.

(** The state once the metadata is fetched and the table looked up. *)
Definition after_lookup (r : request) (subjectID : gostring) (s : server)
  : server :=
  {| db := db s; disk := disk s; ticks := S (ticks s);
     calls := calls s
              ++ [CallFetchDoubanMediaInfo
                    (detectSubjectType (FormValue r (str "douban_url")))
                    subjectID;
                  CallDbFirst subjectID] |}.

(** Every record of the table is stored under its own [douban_id]. *)
Definition keyed_by_id (table : gmap gostring Movie.t) : Prop :=
  forall k m, table !! k = Some m -> Movie.DoubanID m = k.

(** The image reference [updateMovie] keeps or replaces. *)
Definition wants_download (mediaInfo : MediaSubject.t) (existing : Movie.t)
  : bool :=
  negb (bool_decide (MediaSubject.ImageURL mediaInfo = []))
  && (negb (HasPrefix (Movie.ImageURL existing) (str "/images/"))
      || bool_decide (Movie.ImageURL existing = [])).

(** The record a creating resolution hands to the database. *)
Definition created_movie (w : world)
  (ParseFloat : gostring -> result float64)
  (filepath_Join : gostring -> gostring -> gostring)
  (filepath_Base : gostring -> gostring)
  (time_Parse : gostring -> result Time) (globalImageDir : gostring)
  (r : request) (s : server) (subjectID : gostring)
  (mediaInfo : MediaSubject.t) : Movie.t :=
  let link := FormValue r (str "douban_url") in
  let dl := downloadImage filepath_Join w (MediaSubject.ImageURL mediaInfo)
              subjectID globalImageDir (disk s) in
  {| Movie.ID := 0;
     Movie.DoubanID := subjectID;
     Movie.DoubanURL := link;
     Movie.Title := MediaSubject.Title mediaInfo;
     Movie.AltTitle := MediaSubject.AltTitle mediaInfo;
     Movie.Director := MediaSubject.Creator mediaInfo;
     Movie.PubDate := MediaSubject.PubDate mediaInfo;
     Movie.ImageURL :=
       if decide (MediaSubject.ImageURL mediaInfo = []) then []
       else match dl_result dl with
            | Ok localPath => str "/images/" ++ filepath_Base localPath
            | Err _ => MediaSubject.ImageURL mediaInfo
            end;
     Movie.Rating :=
       if float_is_zero (MediaSubject.Rating mediaInfo)
       then fetchRating ParseFloat w link
       else MediaSubject.Rating mediaInfo;
     Movie.Year := extractYear (MediaSubject.PubDate mediaInfo);
     Movie.Summary := MediaSubject.Summary mediaInfo;
     Movie.IsFavorite := false;
     Movie.WatchedAt := watchedAtOf w time_Parse r s;
     Movie.CreatedAt := clock w (S (ticks s)) |}.

(** The record an updating resolution hands to the database. *)
Definition updated_movie (w : world)
  (filepath_Join : gostring -> gostring -> gostring)
  (filepath_Base : gostring -> gostring)
  (time_Parse : gostring -> result Time) (globalImageDir : gostring)
  (r : request) (s : server) (subjectID : gostring)
  (mediaInfo : MediaSubject.t) (existing : Movie.t) : Movie.t :=
  let dl := downloadImage filepath_Join w (MediaSubject.ImageURL mediaInfo)
              subjectID globalImageDir (disk s) in
  Movie.set_ImageURL
    (if wants_download mediaInfo existing then
       match dl_result dl with
       | Ok localPath => str "/images/" ++ filepath_Base localPath
       | Err _ => Movie.ImageURL existing
       end
     else Movie.ImageURL existing)
    (Movie.set_DoubanURL (FormValue r (str "douban_url"))
       (Movie.set_WatchedAt (watchedAtOf w time_Parse r s) existing)).

(** The request finds its record in the table. *)
Record known_record (w : world) (json : json_decoder) (r : request)
  (s : server) (subjectID : gostring) (mediaInfo : MediaSubject.t)
  (existing : Movie.t) : Prop := {
  kr_resolved : resolved_request w json r subjectID mediaInfo;
  kr_query : db_query_err w = None;
  kr_found : db s !! subjectID = Some existing
}.

(** The image server answers with a complete image, and the database
    refuses every write. *)
Definition readOnlyWorld : world :=
  {| http_NewRequest := http_NewRequest (catalogueWorld imageServed);
     http_Do := http_Do (catalogueWorld imageServed);
     os_Create_err := fun _ => None;
     disk_fault := fun _ => None;
     os_Remove_err := fun _ => None;
     db_query_err := None;
     db_write_err := Some (str "attempt to write a readonly database");
     clock := fun n => 1700000000 + Z.of_nat n |}.

(** The address [FetchDoubanMediaInfo] requests for a kind of subject. *)
Definition apiRequestURL (kind subjectID : gostring) : gostring :=
  str "https://frodo.douban.com/api/v2/" ++ kind ++ str "/" ++ subjectID
  ++ str "?apiKey=0ac44ae016490db2204ce0a042db2916".

(** The kind of subject a category is fetched as. *)
Definition apiKind (subjectType : gostring) : gostring :=
  if decide (subjectType = str "book") then str "book"
  else if decide (subjectType = str "game") then str "game"
  else str "movie".

(** An event of a fetch that is bound to [url] and to [budget] attempts. *)
Definition fetch_event (url : gostring) (budget : nat) (ev : io_event)
  : Prop :=
  match ev with
  | EvDo u n => u = url /\ (1 <= n <= budget)%nat
  | EvSleep d => d = retryDelay
  end.

(** What a call of [downloadJavImage] may leave behind: [download_post]
    with the extension this function chooses. *)
Definition jav_download_post (join : gostring -> gostring -> gostring)
  (w : world) (imageURL filename imageDir : gostring) (fs : files)
  (r : download_result) : Prop :=
  match dl_result r with
  | Err _ =>
      dl_files r = fs \/
      exists resp,
        after_failed_save w
          (join imageDir (filename ++ javImageExt (ContentType resp))) fs
          (dl_files r)
  | Ok localPath =>
      exists n resp body,
        (1 <= n <= download_maxRetries)%nat /\
        http_Do w imageURL n = DoReturns resp /\
        StatusCode resp = StatusOK /\
        Body resp = ReadAll body /\
        localPath
        = join imageDir (filename ++ javImageExt (ContentType resp)) /\
        dl_files r = <[localPath := body]> fs
  end.

(** The requests and pauses of a download that goes as far as its [k]-th
    attempt. *)
Fixpoint attempts_until (url : gostring) (i k : nat) : list io_event :=
  match k with
  | O => []
  | 1%nat => [EvDo url i]
  | S k' => EvDo url i :: EvSleep retryDelay :: attempts_until url (S i) k'
  end.

(** The attempt got status 200. *)
Definition answered200 (a : attempt) : bool :=
  match a with
  | DoFails _ => false
  | DoReturns resp => StatusCode resp =? StatusOK
  end.

(** The server refuses twice and then serves a WebP image. *)
Definition thirdTimeLucky : world :=
  worldOf (fun _ n =>
             match n with
             | 1%nat => DoFails (str "connection reset by peer")
             | 2%nat => DoReturns {| StatusCode := 503;
                                     Status := str "503 Service Unavailable";
                                     ContentType := str "text/html";
                                     Body := ReadAll (str "busy") |}
             | _ => DoReturns (response200 (str "image/webp")
                                 (ReadAll (str "RIFFWEBP")))
             end).

(** [sub] differs from [s] at a position both have. *)
Fixpoint mismatch_in (s sub : gostring) : bool :=
  match sub, s with
  | p :: sub', c :: s' => negb (bool_decide (c = p)) || mismatch_in s' sub'
  | _, _ => false
  end.

(** No occurrence of [sub] starts in [pre], whatever follows [pre]. *)
Fixpoint clear_of (pre sub : gostring) : bool :=
  match pre with
  | [] => true
  | _ :: pre' => mismatch_in pre sub && clear_of pre' sub
  end.

(** The links [addMovieHandler] resolves: those of the pattern, except the
    subject pages of the host [www.douban.com]. *)
Definition resolvable_link (url id : gostring) : Prop :=
  exists host seg slash,
    douban_url url host seg id slash /\
    ~ (host = str "www.douban.com" /\ seg = str "subject").

(** The texts a pattern can match, its anchors aside. *)
Fixpoint lang (r : regexp) (m : gostring) {struct r} : Prop :=
  match r with
  | Eps | Bol | Eol => m = []
  | Char c => m = [c]
  | Class p => exists x, m = [x] /\ p x = true
  | Seq r1 r2 => exists m1 m2, m = m1 ++ m2 /\ lang r1 m1 /\ lang r2 m2
  | Alt r1 r2 => lang r1 m \/ lang r2 m
  | Star r0 => exists ms, m = concat ms /\ Forall (lang r0) ms
  | Group _ r0 => lang r0 m
  end.

(** The pattern has no capturing group. *)
Fixpoint groupfree (r : regexp) : bool :=
  match r with
  | Seq r1 r2 | Alt r1 r2 => groupfree r1 && groupfree r2
  | Star r0 => groupfree r0
  | Group _ _ => false
  | _ => true
  end.

(** A decimal numeral: digits, then possibly a point and further digits. *)
Definition numeral (num : gostring) : Prop :=
  exists whole dot frac,
    num = whole ++ dot ++ frac /\
    whole <> [] /\ Forall (fun c => is_digit c = true) whole /\
    dot ∈ [[]; str "."] /\
    Forall (fun c => is_digit c = true) frac.

(** [num] stands in the page between [>] and [</strong>]. *)
Definition rated_in (html num : gostring) : Prop :=
  occurs (str ">" ++ num ++ str "</strong>") html.

(** The year and the month of a viewing date, as the grouping formats
    them. *)
Definition year_month (time_Format : gostring -> Time -> gostring)
  (t : Time) : gostring * gostring :=
  (time_Format (str "2006") t, time_Format (str "01") t).

(** The pair [p] comes before the pair [q] in a timeline: a later year, or
    the same year and a later month, in the order of strings. *)
Definition later (p q : gostring * gostring) : Prop :=
  string_lt q.1 p.1 = true \/ (p.1 = q.1 /\ string_lt q.2 p.2 = true).

(** The records of [movies] seen in the year and month [p], in the order
    of [movies]. *)
Definition seen_in {Item : Type} (WatchedAt : Item -> Time)
  (time_Format : gostring -> Time -> gostring) (p : gostring * gostring)
  (movies : list Item) : list Item :=
  filter (fun movie => year_month time_Format (WatchedAt movie) = p) movies.

(** A timeline of [movies]: the pairs of year and month that occur among
    the viewing dates, each once, the later ones first. *)
Definition timeline {Item : Type} (WatchedAt : Item -> Time)
  (time_Format : gostring -> Time -> gostring) (movies : list Item)
  (ps : list (gostring * gostring)) : Prop :=
  StronglySorted later ps /\
  forall p, p ∈ ps <->
            exists movie, movie ∈ movies /\
                          year_month time_Format (WatchedAt movie) = p.

(** What the map of the grouping holds under a year and a month. *)
Definition cell {Item : Type}
  (groupMap : gmap gostring (gmap gostring (list Item)))
  (p : gostring * gostring) : option (list Item) :=
  groupMap !! p.1 ≫= fun months => months !! p.2.

(** A calendar for the examples: a date is a count of months. *)
Definition monthsFormat (layout : gostring) (t : Time) : gostring :=
  if decide (layout = str "2006") then itoa (2000 + t / 12)
  else let month := t mod 12 + 1 in
       if month <? 10 then str "0" ++ itoa month else itoa month.

(** The viewing date the second handler settles on. *)
Definition javWatchedAt (w : world) (time_Parse : gostring -> result Time)
  (r : request) (s : jav_server) : Time :=
  if decide (FormValue r (str "watched_at") = []) then clock w (jav_ticks s)
  else match time_Parse (FormValue r (str "watched_at")) with
       | Ok parsed => parsed
       | Err _ => clock w (jav_ticks s)
       end.

(** The request is a POST with a number for which the table lookup gives
    nothing and the script a record. *)
Record jav_new_record (w : world) (exec_script : gostring -> exec_result)
  (json_Unmarshal : gostring -> result (gmap gostring json_value))
  (strings_ToUpper : gostring -> gostring) (r : request) (s : jav_server)
  (javInfo : JavMovie.t) : Prop := {
  jn_method : Method r = str "POST";
  jn_number : FormValue r (str "number") <> [];
  jn_absent :
    match db_query_err w with
    | Some _ => True
    | None => jav_db s !! strings_ToUpper (FormValue r (str "number")) = None
    end;
  jn_scraped :
    fetchJavInfoFromPython json_Unmarshal
      (exec_script (FormValue r (str "number"))) = Returns (Ok javInfo)
}.

(** The poster reference of a created record: the local one after a
    download that succeeded, and none otherwise. *)
Definition jav_poster (filepath_Base : gostring -> gostring)
  (javInfo : JavMovie.t) (dl : download_result) : gostring :=
  if decide (JavMovie.Poster javInfo = []) then []
  else match dl_result dl with
       | Ok localPath => str "/images/" ++ filepath_Base localPath
       | Err _ => []
       end.

(** The record a creating resolution of the second handler hands to the
    database. *)
Definition jav_created (w : world)
  (filepath_Join : gostring -> gostring -> gostring)
  (filepath_Base : gostring -> gostring)
  (time_Parse : gostring -> result Time) (globalImageDir : gostring)
  (r : request) (s : jav_server) (javInfo : JavMovie.t) : JavMovie.t :=
  let dl := downloadJavImage filepath_Join w (JavMovie.Poster javInfo)
              (JavMovie.Number javInfo ++ str "_poster") globalImageDir
              (jav_disk s) in
  {| JavMovie.ID := 0;
     JavMovie.Number := JavMovie.Number javInfo;
     JavMovie.Title := JavMovie.Title javInfo;
     JavMovie.Poster := jav_poster filepath_Base javInfo dl;
     JavMovie.Thumb := JavMovie.Thumb javInfo;
     JavMovie.Actor := JavMovie.Actor javInfo;
     JavMovie.Release := JavMovie.Release javInfo;
     JavMovie.Year := JavMovie.Year javInfo;
     JavMovie.Tag := JavMovie.Tag javInfo;
     JavMovie.Mosaic := JavMovie.Mosaic javInfo;
     JavMovie.Runtime := JavMovie.Runtime javInfo;
     JavMovie.Studio := JavMovie.Studio javInfo;
     JavMovie.Publisher := JavMovie.Publisher javInfo;
     JavMovie.Director := JavMovie.Director javInfo;
     JavMovie.Series := JavMovie.Series javInfo;
     JavMovie.Website := JavMovie.Website javInfo;
     JavMovie.IsFavorite := false;
     JavMovie.WatchedAt := javWatchedAt w time_Parse r s;
     JavMovie.CreatedAt := clock w (S (jav_ticks s)) |}.

(** ASCII upper case, the [strings.ToUpper] of the examples. *)
Definition asciiUpper (s : gostring) : gostring :=
  map (fun c => let n := nat_of_ascii c in
                if ((97 <=? n) && (n <=? 122))%nat
                then ascii_of_nat (n - 32) else c) s.

(** The script answers with a record under the number it was given, as it
    was given, and a poster. *)
Definition echoScript (number : gostring) : exec_result :=
  {| exec_output := str "__JSON_START__" ++ number ++ str "__JSON_END__";
     exec_err := None |}.

Definition echoDecoder (jsonStr : gostring)
  : result (gmap gostring json_value) :=
  Ok {[ str "number" := JString jsonStr;
        str "poster" := JString sampleImageURL;
        str "thumb" := JString (str "https://img.example/thumb.jpg") ]}.

Definition javRequest (number : gostring) : request :=
  {| Method := str "POST"; Form := {[ str "number" := number ]} |}.

Definition emptyJavServer : jav_server :=
  {| jav_db := ∅; jav_disk := ∅; jav_ticks := 0 |}.

Definition uniqueViolation : error :=
  str "UNIQUE constraint failed: jav_movies.number".

(** What the script of the examples yields for a number. *)
Definition echoInfo (number : gostring) : JavMovie.t :=
  javMovieOf {[ str "number" := JString number;
                str "poster" := JString sampleImageURL;
                str "thumb" := JString (str "https://img.example/thumb.jpg") ]}.

(** The database cannot answer a query; everything else works. *)
Definition lockedQueryWorld : world :=
  {| http_NewRequest := http_NewRequest (catalogueWorld imageServed);
     http_Do := http_Do (catalogueWorld imageServed);
     os_Create_err := fun _ => None;
     disk_fault := fun _ => None;
     os_Remove_err := fun _ => None;
     db_query_err := Some (str "database is locked");
     db_write_err := None;
     clock := fun n => 1700000000 + Z.of_nat n |}.

(** A table that holds the record of one number. *)
Definition javServerWith (number : gostring) : jav_server :=
  {| jav_db := {[ number := echoInfo number ]}; jav_disk := ∅;
     jav_ticks := 0 |}.

(** Every record of the second table is stored under its own number. *)
Definition keyed_by_number (table : gmap gostring JavMovie.t) : Prop :=
  forall k m, table !! k = Some m -> JavMovie.Number m = k.

(** * Properties *)

(** ** Facts about the [strings] model *)

Section StringFacts.
Implicit Types s sub pre post : gostring.

Lemma HasPrefix_true s sub :
  HasPrefix s sub = true <-> exists post, s = sub ++ post.
Proof.
  revert s; induction sub as [|p sub IH]; intros s; simpl.
  - split; [intros _; by exists s | done].
  - destruct s as [|c s]; simpl.
    + split; [done | intros [post Hpost]; discriminate].
    + rewrite andb_true_iff, bool_decide_eq_true, IH. split.
      * intros [-> [post ->]]. by exists post.
      * intros [post [= -> ->]]. eauto.
Qed.

Lemma HasPrefix_drop s sub :
  HasPrefix s sub = true -> s = sub ++ drop (length sub) s.
Proof.
  intros [post ->]%HasPrefix_true. by rewrite drop_app_length.
Qed.

(** [index_of] finds an occurrence, and the leftmost one. *)
Lemma index_of_Some s sub i :
  index_of s sub = Some i ->
  s = take i s ++ sub ++ drop (i + length sub) s /\
  forall pre post, s = pre ++ sub ++ post -> (i <= length pre)%nat.
Proof.
  revert i; induction s as [|c s IH]; intros i; simpl.
  - destruct (HasPrefix [] sub) eqn:Hp; [|done].
    intros [= <-]. split; [|intros; lia].
    by apply HasPrefix_drop in Hp.
  - destruct (HasPrefix (c :: s) sub) eqn:Hp.
    + intros [= <-]. split; [|intros; lia].
      by apply HasPrefix_drop in Hp.
    + destruct (index_of s sub) as [j|] eqn:Hj; [|done].
      intros [= <-]. destruct (IH j eq_refl) as [Heq Hmin]. split.
      * simpl. by rewrite <- Heq.
      * intros [|c' pre] post Hs.
        -- simpl in Hs. assert (HasPrefix (c :: s) sub = true) as Ht
             by (apply HasPrefix_true; eauto).
           congruence.
        -- injection Hs as -> ->. simpl.
           specialize (Hmin pre post eq_refl). lia.
Qed.

Lemma index_of_None s sub :
  index_of s sub = None -> forall pre post, s <> pre ++ sub ++ post.
Proof.
  induction s as [|c s IH]; simpl.
  - destruct (HasPrefix [] sub) eqn:Hp; [done|].
    intros _ pre post Hs. destruct pre; simpl in Hs.
    + assert (HasPrefix [] sub = true) by (apply HasPrefix_true; eauto).
      congruence.
    + discriminate.
  - destruct (HasPrefix (c :: s) sub) eqn:Hp; [done|].
    destruct (index_of s sub) eqn:Hj; [done|].
    intros _ [|c' pre] post Hs.
    + assert (HasPrefix (c :: s) sub = true) by (apply HasPrefix_true; eauto).
      congruence.
    + injection Hs as -> Hs. by apply (IH eq_refl pre post).
Qed.

Lemma Contains_true s sub :
  Contains s sub = true <-> exists pre post, s = pre ++ sub ++ post.
Proof.
  unfold Contains, Index. destruct (index_of s sub) as [i|] eqn:Hi.
  - split; [intros _ | intros _; apply Z.leb_le; lia].
    apply index_of_Some in Hi as [Hs _]. eauto.
  - split; [done|]. intros (pre & post & Hs).
    exfalso. by apply (index_of_None _ _ Hi pre post).
Qed.

Lemma Contains_empty s : Contains s [] = true.
Proof. apply Contains_true. by exists [], s. Qed.

End StringFacts.

(** ** The game projection *)

Lemma Replace1_remove (s sub : gostring) :
  Contains s sub = true ->
  exists pre post, first_occurrence s pre sub post /\
                   Replace1 s sub [] = pre ++ post.
Proof.
  intros Hc. unfold Replace1. destruct (decide (sub = [])) as [->|Hne].
  - exists [], s. split; [|done]. split; [done | intros; simpl; lia].
  - unfold Contains, Index in Hc.
    destruct (index_of s sub) as [j|] eqn:Hj; [|done].
    destruct (index_of_Some _ _ _ Hj) as [Hs Hmin].
    exists (take j s), (drop (j + length sub) s). split; [|done].
    split; [done|]. intros pre' post' Hs'.
    rewrite length_take. specialize (Hmin _ _ Hs'). lia.
Qed.

(** C2: the canonical and alternate titles of a game subject.  Containment
    is textual containment; when the primary title contains the localised
    one, the localised title is canonical and the alternate title is the
    primary title without the leftmost occurrence of the localised one,
    trimmed; otherwise the primary title is canonical and the localised one
    is the alternate.  The titles of the specification's example come out as
    it says. *)
Theorem game_title_projection (g : DoubanGameSubject.t) :
  let T := DoubanGameSubject.Title g in
  let C := DoubanGameSubject.TitleCN g in
  let r := projectSubject (GameSubject g) in
  (Contains T C = true <-> exists pre post, T = pre ++ C ++ post) /\
  (if Contains T C
   then MediaSubject.Title r = C /\
        exists pre post, first_occurrence T pre C post /\
                         MediaSubject.AltTitle r = TrimSpace (pre ++ post)
   else MediaSubject.Title r = T /\ MediaSubject.AltTitle r = C) /\
  (let e := projectSubject
              (GameSubject (gameSubject (str "素人パイパン18歳 AIちゃん")
                                        (str "AIちゃん"))) in
   MediaSubject.Title e = str "AIちゃん" /\
   MediaSubject.AltTitle e = str "素人パイパン18歳").
Proof.
  intros T C r. split; [apply Contains_true|]. split.
  - subst r. simpl. fold T C. destruct (Contains T C) eqn:Hc; simpl; [|done].
    split; [done|]. destruct (Replace1_remove _ _ Hc) as (pre & post & H1 & H2).
    exists pre, post. by rewrite H2.
  - vm_compute. done.
Qed.

(** C10: a game subject whose localised title is empty and whose primary
    title is not gets the empty string for canonical title and its trimmed
    primary title for alternate title. *)
Theorem game_empty_localized_title (g : DoubanGameSubject.t) :
  DoubanGameSubject.TitleCN g = [] ->
  DoubanGameSubject.Title g <> [] ->
  Contains (DoubanGameSubject.Title g) (DoubanGameSubject.TitleCN g) = true /\
  MediaSubject.Title (projectSubject (GameSubject g)) = [] /\
  MediaSubject.AltTitle (projectSubject (GameSubject g))
    = TrimSpace (DoubanGameSubject.Title g).
Proof.
  intros HC HT. simpl. rewrite HC, Contains_empty. simpl.
  by repeat split.
Qed.

(** The primary title [ Hades ] with an empty localised title. *)
Lemma game_empty_localized_title_witness :
  let g := gameSubject (str " Hades ") [] in
  Contains (DoubanGameSubject.Title g) (DoubanGameSubject.TitleCN g) = true /\
  MediaSubject.Title (projectSubject (GameSubject g)) = [] /\
  MediaSubject.AltTitle (projectSubject (GameSubject g)) = str "Hades".
Proof.
  intros g.
  destruct (game_empty_localized_title g) as (H1 & H2 & H3);
    [reflexivity | discriminate |].
  split; [exact H1|]. split; [exact H2|]. rewrite H3. reflexivity.
Defined.


(** ** Facts about the matcher *)

Section RegexpFacts.
Context {A : Type}.
Implicit Types (k : gostring -> gmap nat gostring -> option A).
Implicit Types (s w : gostring) (caps : gmap nat gostring).

Lemma HasPrefix_app s w : HasPrefix (w ++ s) w = true.
Proof. apply HasPrefix_true. by exists s. Qed.

Lemma run_Lit total w s caps k :
  run total (Lit w) s caps k
  = if HasPrefix s w then k (drop (length w) s) caps else None.
Proof.
  revert s; induction w as [|c w IH]; intros s; simpl; [done|].
  destruct s as [|x s]; simpl; [done|].
  destruct (decide (x = c)) as [->|Hne].
  - rewrite bool_decide_eq_true_2 by done. simpl. apply IH.
  - by rewrite bool_decide_eq_false_2.
Qed.

Lemma run_seq_lit total w r s caps k :
  run total (Seq (Lit w) r) (w ++ s) caps k = run total r s caps k.
Proof.
  simpl. rewrite run_Lit, HasPrefix_app. by rewrite drop_app_length.
Qed.

Lemma run_seq_lit_inv total w r s caps k a :
  run total (Seq (Lit w) r) s caps k = Some a ->
  exists s', s = w ++ s' /\ run total r s' caps k = Some a.
Proof.
  simpl. rewrite run_Lit. destruct (HasPrefix s w) eqn:Hp; [|done].
  intros H. exists (drop (length w) s). split; [|done].
  by apply HasPrefix_drop.
Qed.

Lemma run_seq_char_inv total c r s caps k a :
  run total (Seq (Char c) r) s caps k = Some a ->
  exists s', s = c :: s' /\ run total r s' caps k = Some a.
Proof.
  simpl. destruct s as [|x s]; [done|].
  destruct (decide (x = c)) as [->|]; [|done]. eauto.
Qed.

Lemma run_seq_alt_inv total r1 r2 r s caps k a :
  run total (Seq (Alt r1 r2) r) s caps k = Some a ->
  run total (Seq r1 r) s caps k = Some a \/
  run total (Seq r2 r) s caps k = Some a.
Proof.
  simpl. destruct (run total r1 s caps _) eqn:H1; [left | right]; done.
Qed.

Lemma run_seq_assoc total r1 r2 r s caps k :
  run total (Seq (Seq r1 r2) r) s caps k
  = run total (Seq r1 (Seq r2 r)) s caps k.
Proof. reflexivity. Qed.

(** Greedy repetition of a class. *)
Lemma star_class_inv total p k a fuel :
  forall s caps,
  star_iter (run total (Class p)) k fuel s caps = Some a ->
  exists ds rest, s = ds ++ rest /\ Forall (fun c => p c = true) ds /\
                  k rest caps = Some a.
Proof.
  induction fuel as [|fuel IH]; intros s caps; simpl.
  - intros H. by exists [], s.
  - destruct s as [|x s]; [intros H; by exists [], []|].
    destruct (p x) eqn:Hx; [|intros H; by exists [], (x :: s)].
    destruct (length s <? length (x :: s))%nat;
      [|intros H; by exists [], (x :: s)].
    destruct (star_iter _ k fuel s caps) eqn:Hs.
    + intros [= <-]. destruct (IH _ _ Hs) as (ds & rest & -> & Hds & Hk).
      exists (x :: ds), rest. repeat split; [by constructor | done].
    + intros H. by exists [], (x :: s).
Qed.

Lemma star_class_greedy total p k a ds :
  forall fuel rest caps,
  (length (ds ++ rest) <= fuel)%nat ->
  Forall (fun c => p c = true) ds -> stops p rest ->
  k rest caps = Some a ->
  star_iter (run total (Class p)) k fuel (ds ++ rest) caps = Some a.
Proof.
  induction ds as [|d ds IH]; intros fuel rest caps Hfuel Hds Hstop Hk.
  - destruct fuel; simpl; [done|]. destruct rest as [|x rest]; [done|].
    simpl in Hstop. by rewrite Hstop.
  - destruct fuel; simpl in *; [lia|]. inversion Hds as [|? ? Hd Hds']; subst.
    rewrite Hd. rewrite (proj2 (Nat.ltb_lt _ _)) by lia.
    rewrite IH; [done | lia | done..].
Qed.

Lemma run_seq_digits_inv total p r s caps k a :
  run total (Seq (Group 1 (Plus (Class p))) r) s caps k = Some a ->
  exists ds rest, s = ds ++ rest /\ ds <> [] /\
    Forall (fun c => p c = true) ds /\
    run total r rest (<[1%nat := ds]> caps) k = Some a.
Proof.
  simpl. destruct s as [|x s]; [done|]. destruct (p x) eqn:Hx; [|done].
  intros H. apply (star_class_inv total) in H as (ds & rest & -> & Hds & Hk).
  exists (x :: ds), rest.
  split; [done|]. split; [done|]. split; [by constructor|].
  revert Hk. simpl. rewrite length_app.
  replace (S (length ds + length rest) - length rest)%nat
    with (S (length ds)) by lia.
  simpl. by rewrite take_app_length.
Qed.

Lemma run_seq_digits total p r ds rest caps k a :
  ds <> [] -> Forall (fun c => p c = true) ds -> stops p rest ->
  run total r rest (<[1%nat := ds]> caps) k = Some a ->
  run total (Seq (Group 1 (Plus (Class p))) r) (ds ++ rest) caps k = Some a.
Proof.
  intros Hne Hds Hstop Hk. destruct ds as [|d ds]; [done|].
  inversion Hds as [|? ? Hd Hds']; subst. simpl. rewrite Hd.
  apply (star_class_greedy total); [lia | done | done |].
  simpl. rewrite length_app.
  replace (S (length ds + length rest) - length rest)%nat
    with (S (length ds)) by lia.
  simpl. by rewrite take_app_length.
Qed.

Lemma run_seq_lit_None total w r s caps k :
  HasPrefix s w = false -> run total (Seq (Lit w) r) s caps k = None.
Proof. intros H. simpl. by rewrite run_Lit, H. Qed.

Lemma run_seq_char total c r s caps k :
  run total (Seq (Char c) r) (c :: s) caps k = run total r s caps k.
Proof. simpl. by rewrite decide_True. Qed.

Lemma run_seq_alt_l total r1 r2 r s caps k a :
  run total (Seq r1 r) s caps k = Some a ->
  run total (Seq (Alt r1 r2) r) s caps k = Some a.
Proof. simpl. by intros ->. Qed.

Lemma run_seq_alt_r total r1 r2 r s caps k a :
  run total (Seq r1 r) s caps k = None ->
  run total (Seq r2 r) s caps k = Some a ->
  run total (Seq (Alt r1 r2) r) s caps k = Some a.
Proof. simpl. by intros -> ->. Qed.

(** The end of the pattern: an optional slash, then the end of the text. *)
Lemma run_tail_inv total rest caps k a :
  run total (Seq (Quest (Char "/")) (Seq Eol Eps)) rest caps k = Some a ->
  (rest = [] \/ rest = str "/") /\ k [] caps = Some a.
Proof.
  simpl. destruct rest as [|x [|y rest]]; simpl.
  - intros H. split; [by left | done].
  - destruct (decide (x = "/"%char)) as [->|]; [|done].
    destruct (k [] caps); [|done]. intros H. split; [right; reflexivity | done].
  - by destruct (decide (x = "/"%char)).
Qed.

Lemma run_tail total rest caps k a :
  rest = [] \/ rest = str "/" -> k [] caps = Some a ->
  run total (Seq (Quest (Char "/")) (Seq Eol Eps)) rest caps k = Some a.
Proof. intros [->| ->] Hk; simpl; by rewrite Hk. Qed.

Lemma search_from_Bol_None total r s :
  (length s < total)%nat -> search_from (Seq Bol r) total s = None.
Proof.
  induction s as [|c s IH]; intros Hlt; cbn [search_from run].
  - by rewrite (proj2 (Nat.eqb_neq _ _)) by lia.
  - rewrite (proj2 (Nat.eqb_neq _ _)) by lia.
    apply IH. simpl in Hlt. lia.
Qed.

Lemma search_anchored r text :
  search (Seq Bol r) text
  = run (length text) r text ∅ (fun s' caps => Some (consumed text s', caps)).
Proof.
  unfold search. destruct text as [|c text]; cbn [search_from run].
  - rewrite Nat.eqb_refl. by destruct (run _ r [] ∅ _).
  - rewrite Nat.eqb_refl. destruct (run _ r (c :: text) ∅ _); [done|].
    apply search_from_Bol_None. simpl. lia.
Qed.

End RegexpFacts.

Lemma stops_slash (slash : gostring) :
  slash ∈ [[]; str "/"] -> stops is_digit slash.
Proof.
  intros H. repeat (apply elem_of_cons in H as [->|H]); [done..|].
  by apply elem_of_nil in H.
Qed.

Section Body.
Context {A : Type}.
Variable total : nat.
Variable k : gostring -> gmap nat gostring -> option A.

Lemma doubanURLBody_inv url a :
  run total doubanURLBody url ∅ k = Some a ->
  exists host seg id slash,
    douban_url url host seg id slash /\ k [] (<[1%nat := id]> ∅) = Some a.
Proof.
  unfold doubanURLBody, Concat. intros H.
  apply run_seq_lit_inv in H as (u1 & -> & H).
  rewrite run_seq_assoc in H.
  assert (exists host u2, u1 = host ++ u2 /\ host ∈ doubanHosts /\
            run total
              (Seq (Char "/")
                 (Seq (Alt (Lit (str "game")) (Lit (str "subject")))
                    (Seq (Char "/")
                       (Seq (Group 1 (Plus (Class is_digit)))
                          (Seq (Quest (Char "/")) (Seq Eol Eps))))))
              u2 ∅ k = Some a) as (host & u2 & -> & Hhost & H2).
  { apply run_seq_alt_inv in H as [H|H]; [|apply run_seq_alt_inv in H as [H|H]];
      apply run_seq_lit_inv in H as (v & -> & H);
      apply run_seq_lit_inv in H as (u2 & -> & H).
    - exists (str "www.douban.com"), u2. split; [done|]. split; [|done].
      unfold doubanHosts. in_list.
    - exists (str "book.douban.com"), u2. split; [done|]. split; [|done].
      unfold doubanHosts. in_list.
    - exists (str "movie.douban.com"), u2. split; [done|]. split; [|done].
      unfold doubanHosts. in_list. }
  clear H. apply run_seq_char_inv in H2 as (u3 & -> & H).
  assert (exists seg u4,
            u3 = seg ++ u4 /\ seg ∈ [str "game"; str "subject"] /\
            run total
              (Seq (Char "/")
                 (Seq (Group 1 (Plus (Class is_digit)))
                    (Seq (Quest (Char "/")) (Seq Eol Eps))))
              u4 ∅ k = Some a) as (seg & u4 & -> & Hseg & H4).
  { apply run_seq_alt_inv in H as [H|H];
      apply run_seq_lit_inv in H as (u4 & -> & H).
    - exists (str "game"), u4. split; [done|]. split; [in_list | done].
    - exists (str "subject"), u4. split; [done|]. split; [in_list | done]. }
  clear H. apply run_seq_char_inv in H4 as (u5 & -> & H).
  apply run_seq_digits_inv in H as (id & rest & -> & Hne & Hds & H).
  apply run_tail_inv in H as [Hrest Hk].
  exists host, seg, id, rest. split; [|done].
  split; [done|]. repeat split; try done.
  destruct Hrest as [->| ->]; in_list.
Qed.

Lemma doubanURLBody_complete url host seg id slash a :
  douban_url url host seg id slash ->
  k [] (<[1%nat := id]> ∅) = Some a ->
  run total doubanURLBody url ∅ k = Some a.
Proof.
  intros (-> & Hhost & Hseg & Hne & Hds & Hslash) Hk.
  unfold doubanURLBody, Concat. rewrite run_seq_lit, run_seq_assoc.
  assert (run total
            (Seq (Group 1 (Plus (Class is_digit)))
               (Seq (Quest (Char "/")) (Seq Eol Eps)))
            (id ++ slash) ∅ k = Some a) as Hid.
  { apply run_seq_digits; [done | done | by apply stops_slash |].
    apply run_tail; [|done].
    repeat (apply elem_of_cons in Hslash as [->|Hslash]); eauto.
    by apply elem_of_nil in Hslash. }
  assert (run total
            (Seq (Alt (Lit (str "game")) (Lit (str "subject")))
               (Seq (Char "/")
                  (Seq (Group 1 (Plus (Class is_digit)))
                     (Seq (Quest (Char "/")) (Seq Eol Eps)))))
            (seg ++ str "/" ++ id ++ slash) ∅ k = Some a) as Hs.
  { repeat (apply elem_of_cons in Hseg as [->|Hseg]);
      [| |by apply elem_of_nil in Hseg].
    - apply run_seq_alt_l. rewrite run_seq_lit.
      change (str "/" ++ id ++ slash) with ("/"%char :: id ++ slash).
      by rewrite run_seq_char.
    - apply run_seq_alt_r; [by apply run_seq_lit_None|].
      rewrite run_seq_lit.
      change (str "/" ++ id ++ slash) with ("/"%char :: id ++ slash).
      by rewrite run_seq_char. }
  unfold doubanHosts in Hhost.
  repeat (apply elem_of_cons in Hhost as [->|Hhost]);
    [| | |by apply elem_of_nil in Hhost].
  - change (str "www.douban.com" ++ ?x)
      with (str "www" ++ str ".douban.com"
            ++ "/"%char :: seg ++ str "/" ++ id ++ slash).
    apply run_seq_alt_l. by rewrite !run_seq_lit, run_seq_char.
  - change (str "book.douban.com" ++ ?x)
      with (str "book" ++ str ".douban.com"
            ++ "/"%char :: seg ++ str "/" ++ id ++ slash).
    apply run_seq_alt_r; [by apply run_seq_lit_None|].
    apply run_seq_alt_l. by rewrite !run_seq_lit, run_seq_char.
  - change (str "movie.douban.com" ++ ?x)
      with (str "movie" ++ str ".douban.com"
            ++ "/"%char :: seg ++ str "/" ++ id ++ slash).
    apply run_seq_alt_r; [by apply run_seq_lit_None|].
    apply run_seq_alt_r; [by apply run_seq_lit_None|].
    by rewrite !run_seq_lit, run_seq_char.
Qed.
End Body.

Lemma consumed_all (text : gostring) : consumed text [] = text.
Proof. unfold consumed. simpl. rewrite Nat.sub_0_r. apply firstn_all. Qed.

Lemma doubanURLPattern_match url host seg id slash :
  douban_url url host seg id slash ->
  search doubanURLPattern url = Some (url, <[1%nat := id]> ∅).
Proof.
  intros H. change doubanURLPattern with (Seq Bol doubanURLBody).
  rewrite search_anchored.
  apply (doubanURLBody_complete _ _ url host seg id slash); [done|].
  by rewrite consumed_all.
Qed.

Lemma doubanURLPattern_inv url m :
  search doubanURLPattern url = Some m ->
  exists host seg id slash,
    douban_url url host seg id slash /\ m = (url, <[1%nat := id]> ∅).
Proof.
  change doubanURLPattern with (Seq Bol doubanURLBody).
  rewrite search_anchored. intros H.
  apply doubanURLBody_inv in H as (host & seg & id & slash & Hu & Hk).
  exists host, seg, id, slash. split; [done|].
  rewrite consumed_all in Hk. congruence.
Qed.

Lemma Hostname_douban url host seg id slash :
  douban_url url host seg id slash ->
  URL.Hostname url = Ok host /\ Split host (str ":") !! O = Some host.
Proof.
  intros (-> & Hhost & _). unfold doubanHosts in Hhost.
  repeat (apply elem_of_cons in Hhost as [->|Hhost]);
    [| | |by apply elem_of_nil in Hhost]; split; vm_compute; reflexivity.
Qed.

Lemma existsb_elem_of (x : gostring) (l : list gostring) :
  existsb (fun h => bool_decide (x = h)) l = bool_decide (x ∈ l).
Proof.
  induction l as [|h l IH]; [done|]. cbn [existsb].
  rewrite IH. symmetry.
  destruct (bool_decide (x = h)) eqn:E1; simpl.
  - apply bool_decide_eq_true in E1 as ->.
    apply bool_decide_eq_true. apply list_elem_of_here.
  - apply bool_decide_eq_false in E1.
    apply bool_decide_ext. rewrite elem_of_cons.
    split; [by intros [?|?] | by right].
Qed.

Lemma ParseDoubanURL_matched url ty host seg id slash :
  douban_url url host seg id slash ->
  ParseDoubanURL url ty = resolve_matched ty host id.
Proof.
  intros Hu. unfold ParseDoubanURL, MatchString, FindStringSubmatch.
  rewrite (doubanURLPattern_match _ _ _ _ _ Hu).
  destruct (Hostname_douban _ _ _ _ _ Hu) as [-> Hsplit].
  change (ngroups doubanURLPattern) with 1%nat.
  cbn [negb seq map length Nat.leb lookup].
  rewrite Hsplit. cbn [default list_lookup]. rewrite lookup_insert_eq.
  unfold resolve_matched. destruct (validHosts ty) as [hosts|]; [|done].
  rewrite existsb_elem_of. unfold Datatypes.id.
  by destruct (bool_decide (host ∈ hosts)).
Qed.

Lemma ParseDoubanURL_nomatch url ty :
  search doubanURLPattern url = None ->
  ParseDoubanURL url ty = Err (str "invalid douban URL format").
Proof. intros Hs. unfold ParseDoubanURL, MatchString. by rewrite Hs. Qed.

Lemma ParseDoubanURL_unmatched url ty :
  (forall host seg id slash, ~ douban_url url host seg id slash) ->
  ParseDoubanURL url ty = Err (str "invalid douban URL format").
Proof.
  intros Hno. apply ParseDoubanURL_nomatch.
  destruct (search doubanURLPattern url) as [m|] eqn:Hs; [|done].
  apply doubanURLPattern_inv in Hs as (host & seg & id & slash & Hu & _).
  by destruct (Hno host seg id slash).
Qed.

Lemma validHosts_unknown ty : ty ∉ categories -> validHosts ty = None.
Proof.
  intros Hty. unfold validHosts, categories in *.
  repeat (case_decide; [exfalso; apply Hty; subst ty; in_list|]).
  done.
Qed.

Lemma validHosts_singleton ty hosts :
  validHosts ty = Some hosts -> exists host, hosts = [host].
Proof.
  unfold validHosts. repeat case_decide; intros [= <-]; eauto.
Qed.

(** C1, amended: [ParseDoubanURL] returns an identifier exactly on the URLs
    made of [https://], a host of the pattern that is the host of the
    requested category, [/subject/] or [/game/] (either one, whatever the
    category), a non-empty run of digits and an optional slash, and the
    identifier is that run of digits.  On a URL of the pattern it fails
    with the unknown-category error when the category is none of the five,
    and with the host error when the host is not the category's.  On any
    other URL it fails with the format error. *)
Theorem ParseDoubanURL_spec (url ty : gostring) :
  (validHosts (str "book") = Some [str "book.douban.com"] /\
   validHosts (str "movie") = Some [str "movie.douban.com"] /\
   validHosts (str "tv") = Some [str "movie.douban.com"] /\
   validHosts (str "anime") = Some [str "movie.douban.com"] /\
   validHosts (str "game") = Some [str "www.douban.com"] /\
   (ty ∉ categories -> validHosts ty = None)) /\
  (forall id,
     ParseDoubanURL url ty = Ok id <->
     exists host seg slash,
       douban_url url host seg id slash /\ validHosts ty = Some [host]) /\
  (forall host seg id slash,
     douban_url url host seg id slash ->
     ParseDoubanURL url ty = resolve_matched ty host id) /\
  ((forall host seg id slash, ~ douban_url url host seg id slash) ->
   ParseDoubanURL url ty = Err (str "invalid douban URL format")).
Proof.
  split; [repeat split; try reflexivity; apply validHosts_unknown|].
  split; [|split; [apply ParseDoubanURL_matched
                  |apply ParseDoubanURL_unmatched]].
  intros id. split.
  - intros Hok.
    destruct (search doubanURLPattern url) as [m|] eqn:Hs;
      [|by rewrite ParseDoubanURL_nomatch in Hok].
    apply doubanURLPattern_inv in Hs as (host & seg & id' & slash & Hu & _).
    rewrite (ParseDoubanURL_matched _ ty _ _ _ _ Hu) in Hok.
    unfold resolve_matched in Hok.
    destruct (validHosts ty) as [hosts|] eqn:Hv; [|done].
    destruct (validHosts_singleton _ _ Hv) as [h ->].
    case_bool_decide as Hin; [|done]. injection Hok as ->.
    apply list_elem_of_singleton in Hin as ->. eauto.
  - intros (host & seg & slash & Hu & Hv).
    rewrite (ParseDoubanURL_matched _ ty _ _ _ _ Hu).
    unfold resolve_matched. rewrite Hv.
    by rewrite bool_decide_eq_true_2 by apply list_elem_of_here.
Qed.


(** C1, as stated, fails: the movie category resolves a [/game/] path. *)
Lemma ParseDoubanURL_game_path_any_category :
  ParseDoubanURL (str "https://movie.douban.com/game/42") (str "movie")
    = Ok (str "42") /\
  ~ spec_resolves (str "https://movie.douban.com/game/42") (str "movie")
      (str "42").
Proof.
  split; [vm_compute; reflexivity|].
  intros (host & seg & slash & Hurl & Hhost & Hpath & _).
  assert (host = str "movie.douban.com") as ->.
  { vm_compute in Hhost. by apply list_elem_of_singleton in Hhost. }
  destruct Hpath as [->|[Hty _]]; [|vm_compute in Hty; discriminate].
  vm_compute in Hurl. discriminate.
Qed.

(** ** The retrying fetch *)

(** [requestAPI] makes at most two attempts, returns the body of the first
    one that succeeds, and after two failures reports the last error. *)
Lemma requestAPI_budget (w : world) (url : gostring) :
  http_NewRequest w url = None ->
  requestAPI w url =
    match attempt_outcome (http_Do w url 1) with
    | Ok body => (Ok body, [EvDo url 1])
    | Err _ =>
        match attempt_outcome (http_Do w url 2) with
        | Ok body => (Ok body, [EvDo url 1; EvSleep 2; EvDo url 2])
        | Err e =>
            (Err (str "failed to fetch data after multiple attempts"
                  ++ [newline] ++ e),
             [EvDo url 1; EvSleep 2; EvDo url 2; EvSleep 2])
        end
    end.
Proof.
  intros Hreq. unfold requestAPI, requestAPI_maxRetries.
  cbn [requestAPI_loop]. rewrite Hreq. unfold attempt_outcome.
  destruct (http_Do w url 1) as [e1|r1];
    [|destruct (StatusCode r1 =? StatusOK); [destruct (Body r1)|]];
    cbn [negb app]; try reflexivity;
    (destruct (http_Do w url 2) as [e2|r2];
       [|destruct (StatusCode r2 =? StatusOK); [destruct (Body r2)|]];
       reflexivity).
Qed.

(** A request that cannot be built is not retried. *)
Lemma requestAPI_bad_request (w : world) (url : gostring) (reqErr : error) :
  http_NewRequest w url = Some reqErr ->
  requestAPI w url = (Err reqErr, []).
Proof.
  intros Hreq. unfold requestAPI, requestAPI_maxRetries.
  cbn [requestAPI_loop]. by rewrite Hreq.
Qed.

(** C3: [downloadImage] does not retry a response whose body breaks off.
    The first of its three attempts gets status 200 and a body that fails
    while it is read; the second would succeed; the call makes the one
    request and returns the save error.  [requestAPI], on the same answers,
    tries again and returns the second body. *)
Theorem downloadImage_gives_up_on_body_failure :
  let r := downloadImage joinPath truncatedOnce sampleImageURL (str "42")
             (str "images") ∅ in
  dl_result r = Err (str "failed to save image: unexpected EOF") /\
  dl_trace r = [EvDo sampleImageURL 1] /\
  requestAPI truncatedOnce sampleImageURL
    = (Ok (str "PNGDATA"),
       [EvDo sampleImageURL 1; EvSleep 2; EvDo sampleImageURL 2]).
Proof. vm_compute. done. Qed.

(** ** Asset download and the files it leaves *)

Section DownloadFacts.
Variable join : gostring -> gostring -> gostring.
Variable w : world.
Variables imageURL subjectID imageDir : gostring.
Variable fs : files.

(** Writing the response into the file just created. *)
Lemma store_post (resp : response) (path : gostring) :
  match io_Copy w path (Body resp) (<[path := []]> fs) with
  | (fs2, Some _) => after_failed_save w path fs (os_Remove w path fs2)
  | (fs2, None) =>
      exists body, Body resp = ReadAll body /\ fs2 = <[path := body]> fs
  end.
Proof.
  unfold io_Copy, os_Remove, after_failed_save.
  destruct (disk_fault w path) as [[n e]|];
    [destruct (n <? length _)%nat|]; destruct (Body resp) as [data|data e'];
    destruct (os_Remove_err w path);
    rewrite ?insert_insert_eq, ?delete_insert_eq; eauto.
Qed.

Lemma downloadImage_loop_post (n attempt : nat) (tr : list io_event) :
  (1 <= attempt)%nat ->
  (attempt + n = S download_maxRetries)%nat ->
  download_post join w imageURL subjectID imageDir fs
    (downloadImage_loop join w imageURL subjectID imageDir n attempt fs tr).
Proof.
  revert attempt tr. induction n as [|n IH]; intros attempt tr H1 Hn.
  - by left.
  - assert (forall tr', download_post join w imageURL subjectID imageDir fs
              (downloadImage_loop join w imageURL subjectID imageDir n
                 (S attempt) fs tr')) as Hnext
      by (intros tr'; apply IH; lia).
    cbn [downloadImage_loop].
    destruct (http_NewRequest w imageURL) as [err|].
    { destruct (attempt =? download_maxRetries)%nat; [by left | apply Hnext]. }
    destruct (http_Do w imageURL attempt) as [err|resp] eqn:Hdo.
    { destruct (attempt =? download_maxRetries)%nat; [by left | apply Hnext]. }
    destruct (StatusCode resp =? StatusOK) eqn:Hst; cbn [negb].
    2:{ destruct (attempt =? download_maxRetries)%nat;
          [by left | apply Hnext]. }
    apply Z.eqb_eq in Hst. unfold os_Create.
    destruct (os_Create_err w _) as [err|]; [by left|].
    pose proof (store_post resp
                  (join imageDir (subjectID ++ imageExt (ContentType resp))))
      as Hstore.
    destruct (io_Copy w _ (Body resp) _) as [fs2 [err|]].
    + right. exists resp. exact Hstore.
    + destruct Hstore as (body & Hbody & ->).
      exists attempt, resp, body. repeat split; try done; lia.
Qed.

Lemma downloadImage_post :
  download_post join w imageURL subjectID imageDir fs
    (downloadImage join w imageURL subjectID imageDir fs).
Proof.
  unfold downloadImage. case_decide; [by left|].
  apply downloadImage_loop_post; unfold download_maxRetries; lia.
Qed.

End DownloadFacts.




(** ** Rating backfill *)

Lemma extractRating_loop_first (ParseFloat : gostring -> result float64)
  (patterns : list regexp) (html : gostring) :
  extractRating_loop ParseFloat patterns html
  = first_rating ParseFloat patterns html.
Proof.
  unfold first_rating. induction patterns as [|re rest IH]; [done|].
  cbn [extractRating_loop omap list_omap]. unfold pattern_rating at 1.
  destruct (FindStringSubmatch re html) as [|whole [|captured more]];
    cbn [length Nat.ltb Nat.leb]; try exact IH.
  cbn [lookup list_lookup default from_option].
  change (Datatypes.id captured) with captured.
  destruct (ParseFloat captured) as [rating|e]; [done | exact IH].
Qed.

(** C5, amended: [fetchRating] has no error result.  It returns the sentinel
    0 when the request cannot be built, when the transport fails and when
    the status is not 200; on status 200 it returns the rating of the first
    of the three patterns, in their order, that matches what was read of
    the page and whose group parses as a number, and 0 when there is none. *)
Theorem fetchRating_spec (ParseFloat : gostring -> result float64)
  (w : world) (doubanURL : gostring) :
  fetchRating ParseFloat w doubanURL =
    match http_NewRequest w doubanURL, http_Do w doubanURL 1 with
    | None, DoReturns resp =>
        if StatusCode resp =? 200
        then first_rating ParseFloat ratingPatterns (body_bytes (Body resp))
        else 0%float
    | _, _ => 0%float
    end.
Proof.
  unfold fetchRating, extractRatingFromHTML.
  destruct (http_NewRequest w doubanURL); [done|].
  destruct (http_Do w doubanURL 1) as [e|resp]; [done|].
  unfold StatusOK. destruct (StatusCode resp =? 200); [|done].
  cbn [negb]. apply extractRating_loop_first.
Qed.

(** C5, as stated, fails: the status 206 is a 2xx status, the page carries
    a rating that the first pattern finds and that parses, and [fetchRating]
    returns the sentinel. *)
Lemma fetchRating_ignores_206 :
  (exists resp,
     http_Do (pageWorld 206) samplePageURL 1 = DoReturns resp /\
     200 <= StatusCode resp < 300 /\ Body resp = ReadAll samplePage) /\
  PrimFloat.eqb
    (first_rating sampleParseFloat ratingPatterns samplePage) 9.5%float
    = true /\
  float_is_zero (fetchRating sampleParseFloat (pageWorld 206) samplePageURL)
    = true /\
  PrimFloat.eqb
    (fetchRating sampleParseFloat (pageWorld 200) samplePageURL) 9.5%float
    = true.
Proof.
  split.
  { eexists. split; [reflexivity|]. vm_compute. repeat split; congruence. }
  vm_compute. done.
Qed.

(** ** The add-item handler *)

Section HandlerFacts.
Variable w : world.
Variable json : json_decoder.
Variable ParseFloat : gostring -> result float64.
Variable filepath_Join : gostring -> gostring -> gostring.
Variable filepath_Base : gostring -> gostring.
Variable time_Parse : gostring -> result Time.
Variable globalImageDir : gostring.

Abbreviation handler :=
  (addMovieHandler w json ParseFloat filepath_Join filepath_Base time_Parse
     globalImageDir).
Abbreviation create :=
  (createMovie w ParseFloat filepath_Join filepath_Base globalImageDir).

(** A resolution that creates a record reaches [createMovie] after the
    metadata fetch and the lookup. *)
Lemma addMovieHandler_new_record r s subjectID mediaInfo :
  new_record w json r s subjectID mediaInfo ->
  exists watchedAt,
    handler r s =
      create (FormValue r (str "douban_url")) subjectID mediaInfo watchedAt
        {| db := db s; disk := disk s; ticks := S (ticks s);
           calls := calls s
                    ++ [CallFetchDoubanMediaInfo
                          (detectSubjectType (FormValue r (str "douban_url")))
                          subjectID;
                        CallDbFirst subjectID] |}.
Proof.
  intros [Hm Hl Hp Hf Hq Ha]. unfold addMovieHandler.
  rewrite bool_decide_eq_true_2 by done. cbn [negb].
  rewrite decide_False by done.
  eexists. unfold mbind, M_bind, time_Now. rewrite Hp.
  unfold do_FetchDoubanMediaInfo, record_call, mbind, M_bind, mret, M_ret.
  cbn [db disk ticks calls]. rewrite Hf.
  unfold db_First, record_call, mbind, M_bind. cbn [db disk ticks calls].
  rewrite Hq, Ha. rewrite <- app_assoc. reflexivity.
Qed.

Ltac run_M :=
  unfold do_fetchRating, do_downloadImage, db_Create, db_store, time_Now,
    record_call, mbind, M_bind, mret, M_ret;
  cbn [db disk ticks calls fst snd].

Lemma createMovie_calls doubanURL subjectID mediaInfo watchedAt s :
  exists movie,
    calls (snd (create doubanURL subjectID mediaInfo watchedAt s))
    = calls s
      ++ (if float_is_zero (MediaSubject.Rating mediaInfo)
          then [CallFetchRating doubanURL] else [])
      ++ (if decide (MediaSubject.ImageURL mediaInfo = []) then []
          else [CallDownloadImage (MediaSubject.ImageURL mediaInfo)
                  subjectID globalImageDir])
      ++ [CallDbCreate movie].
Proof.
  unfold createMovie.
  destruct (float_is_zero (MediaSubject.Rating mediaInfo));
    destruct (decide (MediaSubject.ImageURL mediaInfo = [])); run_M;
    try destruct (dl_result _); run_M;
    destruct (db_write_err w); run_M;
    eexists; rewrite <- ?app_assoc; reflexivity.
Qed.

Lemma createMovie_image_fallback doubanURL subjectID mediaInfo watchedAt s e :
  MediaSubject.ImageURL mediaInfo <> [] ->
  dl_result (downloadImage filepath_Join w (MediaSubject.ImageURL mediaInfo)
               subjectID globalImageDir (disk s)) = Err e ->
  exists movie,
    last (calls (snd (create doubanURL subjectID mediaInfo watchedAt s)))
      = Some (CallDbCreate movie) /\
    Movie.DoubanID movie = subjectID /\
    Movie.ImageURL movie = MediaSubject.ImageURL mediaInfo /\
    match db_write_err w with
    | None =>
        fst (create doubanURL subjectID mediaInfo watchedAt s)
          = redirect_success (str "电影添加成功") /\
        db (snd (create doubanURL subjectID mediaInfo watchedAt s))
          !! subjectID = Some movie
    | Some err =>
        fst (create doubanURL subjectID mediaInfo watchedAt s)
          = redirect_error (str "保存电影失败: " ++ err)
    end.
Proof.
  intros Himg Hdl. unfold createMovie.
  destruct (float_is_zero (MediaSubject.Rating mediaInfo));
    rewrite decide_False by done; run_M; rewrite Hdl; run_M;
    destruct (db_write_err w); run_M;
    eexists; rewrite ?last_snoc;
    (split; [reflexivity|]); cbn [Movie.DoubanID Movie.ImageURL];
    rewrite ?lookup_insert_eq; done.
Qed.

End HandlerFacts.

Lemma new_record_calls_order subjectType subjectID doubanURL imageDir
  mediaInfo movie :
  let l := new_record_calls subjectType subjectID doubanURL imageDir
             mediaInfo movie in
  precedes is_CallFetchDoubanMediaInfo is_CallFetchRating l /\
  precedes is_CallFetchRating is_CallDownloadImage l /\
  length (List.filter is_CallFetchRating l)
  = if float_is_zero (MediaSubject.Rating mediaInfo) then 1%nat else 0%nat.
Proof.
  unfold new_record_calls, precedes.
  destruct (float_is_zero (MediaSubject.Rating mediaInfo));
    destruct (decide (MediaSubject.ImageURL mediaInfo = []));
    cbn [app List.filter is_CallFetchRating length];
    (split; [|split; [|reflexivity]]);
    intros i j c d Hi Hj Hc Hd;
    repeat (destruct i as [|i];
            [cbn in Hi; injection Hi as <- | cbn in Hi]);
    try discriminate Hi;
    repeat (destruct j as [|j];
            [cbn in Hj; injection Hj as <- | cbn in Hj]);
    try discriminate Hj;
    cbn in Hc, Hd; try discriminate Hc; try discriminate Hd;
    lia.
Qed.

(** C4: in a resolution that creates a record, the handler's calls are, in
    order: the metadata fetch, the lookup, [fetchRating] if and only if the
    mapped rating is 0, [downloadImage] if the record has an image, the
    creation.  So the metadata fetch is over before [fetchRating] is
    considered, [fetchRating] is called once when the mapped rating is 0 and
    never otherwise, and it is over before [downloadImage] is called. *)
Theorem rating_backfill_once_before_download
  (w : world) (json : json_decoder)
  (ParseFloat : gostring -> result float64)
  (filepath_Join : gostring -> gostring -> gostring)
  (filepath_Base : gostring -> gostring)
  (time_Parse : gostring -> result Time) (globalImageDir : gostring)
  (r : request) (s : server) (subjectID : gostring)
  (mediaInfo : MediaSubject.t) :
  new_record w json r s subjectID mediaInfo ->
  let doubanURL := FormValue r (str "douban_url") in
  let s' := snd (addMovieHandler w json ParseFloat filepath_Join
                   filepath_Base time_Parse globalImageDir r s) in
  exists movie,
    let l := new_record_calls (detectSubjectType doubanURL) subjectID
               doubanURL globalImageDir mediaInfo movie in
    calls s' = calls s ++ l /\
    precedes is_CallFetchDoubanMediaInfo is_CallFetchRating l /\
    precedes is_CallFetchRating is_CallDownloadImage l /\
    length (List.filter is_CallFetchRating l)
    = if float_is_zero (MediaSubject.Rating mediaInfo) then 1%nat else 0%nat.
Proof.
  intros Hnew doubanURL s'. subst s'.
  destruct (addMovieHandler_new_record w json ParseFloat filepath_Join
              filepath_Base time_Parse globalImageDir _ _ _ _ Hnew)
    as [watchedAt ->].
  destruct (createMovie_calls w ParseFloat filepath_Join filepath_Base
              globalImageDir doubanURL subjectID mediaInfo watchedAt
              {| db := db s; disk := disk s; ticks := S (ticks s);
                 calls := calls s
                          ++ [CallFetchDoubanMediaInfo
                                (detectSubjectType doubanURL) subjectID;
                              CallDbFirst subjectID] |})
    as [movie Hcalls].
  exists movie. split.
  - fold doubanURL. rewrite Hcalls. cbn [calls]. unfold new_record_calls.
    by rewrite <- !app_assoc.
  - apply new_record_calls_order.
Qed.

(** A movie without a rating and with a cover, on an empty table. *)
Lemma rating_backfill_once_before_download_witness :
  exists movie,
    calls (snd (addMovieHandler (catalogueWorld imageServed) sampleDecoder
                  sampleParseFloat joinPath basePath noTimeParse
                  (str "images") sampleRequest emptyServer))
    = [CallFetchDoubanMediaInfo (str "movie") (str "1292052");
       CallDbFirst (str "1292052");
       CallFetchRating samplePageURL;
       CallDownloadImage sampleImageURL (str "1292052") (str "images");
       CallDbCreate movie].
Proof.
  destruct (rating_backfill_once_before_download
              (catalogueWorld imageServed) sampleDecoder sampleParseFloat
              joinPath basePath noTimeParse (str "images") sampleRequest
              emptyServer (str "1292052")
              (projectSubject (MovieSubject sampleMovieSubject)))
    as (movie & Hcalls & _).
  - split; vm_compute; congruence.
  - exists movie. rewrite Hcalls. reflexivity.
Defined.

(** C7: in a resolution that creates a record with an image whose download
    fails, the record handed to the database carries the remote image URL
    unchanged; the reply is the success redirect and the record is stored,
    unless the database itself refuses the write. *)
Theorem image_failure_keeps_remote_url
  (w : world) (json : json_decoder)
  (ParseFloat : gostring -> result float64)
  (filepath_Join : gostring -> gostring -> gostring)
  (filepath_Base : gostring -> gostring)
  (time_Parse : gostring -> result Time) (globalImageDir : gostring)
  (r : request) (s : server) (subjectID : gostring)
  (mediaInfo : MediaSubject.t) (e : error) :
  new_record w json r s subjectID mediaInfo ->
  MediaSubject.ImageURL mediaInfo <> [] ->
  dl_result (downloadImage filepath_Join w (MediaSubject.ImageURL mediaInfo)
               subjectID globalImageDir (disk s)) = Err e ->
  let out := addMovieHandler w json ParseFloat filepath_Join filepath_Base
               time_Parse globalImageDir r s in
  exists movie,
    last (calls (snd out)) = Some (CallDbCreate movie) /\
    Movie.DoubanID movie = subjectID /\
    Movie.ImageURL movie = MediaSubject.ImageURL mediaInfo /\
    match db_write_err w with
    | None =>
        fst out = redirect_success (str "电影添加成功") /\
        db (snd out) !! subjectID = Some movie
    | Some err => fst out = redirect_error (str "保存电影失败: " ++ err)
    end.
Proof.
  intros Hnew Himg Hdl out. subst out.
  destruct (addMovieHandler_new_record w json ParseFloat filepath_Join
              filepath_Base time_Parse globalImageDir _ _ _ _ Hnew)
    as [watchedAt ->].
  by apply createMovie_image_fallback with (e := e).
Qed.

(** The same movie when the image server cannot be reached. *)
Lemma image_failure_keeps_remote_url_witness :
  let out := addMovieHandler (catalogueWorld imageUnreachable) sampleDecoder
               sampleParseFloat joinPath basePath noTimeParse (str "images")
               sampleRequest emptyServer in
  exists movie,
    fst out = redirect_success (str "电影添加成功") /\
    db (snd out) !! str "1292052" = Some movie /\
    Movie.ImageURL movie = sampleImageURL.
Proof.
  intros out.
  destruct (image_failure_keeps_remote_url
              (catalogueWorld imageUnreachable) sampleDecoder
              sampleParseFloat joinPath basePath noTimeParse (str "images")
              sampleRequest emptyServer (str "1292052")
              (projectSubject (MovieSubject sampleMovieSubject))
              (str "failed to download image after 3 attempts: "
               ++ str "context deadline exceeded"))
    as (movie & _ & _ & Himg & Hreply & Hdb).
  - split; vm_compute; congruence.
  - vm_compute. congruence.
  - vm_compute. reflexivity.
  - exists movie. split; [exact Hreply|]. split; [exact Hdb | exact Himg].
Defined.

(** ** The subprocess consumer *)

(** [getString] yields the string under the key, and the empty string when
    the key is missing or holds anything else. *)
Lemma getString_spec (m : gmap gostring json_value) (key : gostring) :
  match m !! key with
  | Some (JString s) => getString m key = s
  | _ => getString m key = []
  end.
Proof. unfold getString. by destruct (m !! key) as [[]|]. Qed.

Lemma Index_absent (s sub : gostring) :
  Index s sub = -1 <-> forall pre post, s <> pre ++ sub ++ post.
Proof.
  unfold Index. destruct (index_of s sub) as [i|] eqn:Hi.
  - split; [lia|]. intros Hno. apply index_of_Some in Hi as [Hs _].
    by destruct (Hno _ _ Hs).
  - split; [|done]. intros _. by apply index_of_None.
Qed.

Section JavFacts.
Variable json_Unmarshal : gostring -> result (gmap gostring json_value).

(** Without one of the markers the error carries the whole output. *)
Lemma fetchJav_missing_marker (output : gostring) :
  Index output startMarker = -1 \/ Index output endMarker = -1 ->
  fetchJavInfoFromPython json_Unmarshal
    {| exec_output := output; exec_err := None |}
  = Returns (Err (str "未找到有效的 JSON 输出" ++ [newline] ++ output)).
Proof.
  intros H. unfold fetchJavInfoFromPython. cbn [exec_err exec_output].
  by destruct H as [-> | ->]; rewrite ?Z.eqb_refl, ?orb_true_r.
Qed.

(** With the first closing marker after the first opening one, the text
    between them, trimmed, is what is decoded, and the fields come from
    [getString]. *)
Lemma fetchJav_between (pre mid post : gostring) :
  first_occurrence (pre ++ startMarker ++ mid ++ endMarker ++ post)
    pre startMarker (mid ++ endMarker ++ post) ->
  first_occurrence (pre ++ startMarker ++ mid ++ endMarker ++ post)
    (pre ++ startMarker ++ mid) endMarker post ->
  fetchJavInfoFromPython json_Unmarshal
    {| exec_output := pre ++ startMarker ++ mid ++ endMarker ++ post;
       exec_err := None |}
  = Returns
      match json_Unmarshal (TrimSpace mid) with
      | Ok result => Ok (javMovieOf result)
      | Err err =>
          Err (str "JSON 解析失败: " ++ err ++ [newline] ++ TrimSpace mid)
      end.
Proof.
  intros [_ Hstart] [_ Hend].
  set (output := pre ++ startMarker ++ mid ++ endMarker ++ post) in *.
  assert (forall sub p q, output = p ++ sub ++ q ->
            (forall p' q', output = p' ++ sub ++ q' ->
                           (length p <= length p')%nat) ->
            Index output sub = Z.of_nat (length p)) as Hidx.
  { intros sub p q Hout Hmin. unfold Index.
    destruct (index_of output sub) as [i|] eqn:Hi.
    - apply index_of_Some in Hi as [Hs Hleast].
      specialize (Hleast _ _ Hout). specialize (Hmin _ _ Hs).
      rewrite length_take in Hmin. f_equal. lia.
    - by destruct (index_of_None _ _ Hi _ _ Hout). }
  unfold fetchJavInfoFromPython. cbn [exec_err exec_output]. fold output.
  rewrite (Hidx startMarker pre (mid ++ endMarker ++ post) eq_refl Hstart).
  rewrite (Hidx endMarker (pre ++ startMarker ++ mid) post)
    by (done || (unfold output; by rewrite <- !app_assoc)).
  rewrite !length_app.
  replace (_ =? -1) with false by (symmetry; apply Z.eqb_neq; lia).
  replace (_ =? -1) with false by (symmetry; apply Z.eqb_neq; lia).
  cbn [orb]. unfold slice.
  replace (_ && _ && _) with true.
  2:{ symmetry. rewrite !andb_true_iff, !Z.leb_le. unfold output.
      rewrite !length_app. lia. }
  replace (Z.to_nat _) with (length mid) by lia.
  replace (Z.to_nat _) with (length pre + length startMarker)%nat by lia.
  unfold output. rewrite app_assoc, <- length_app, drop_app_length.
  rewrite take_app_length.
  by destruct (json_Unmarshal (TrimSpace mid)).
Qed.

(** C9: when the first closing marker comes before the first opening one,
    [fetchJavInfoFromPython] neither extracts a text nor returns an error:
    the slice expression panics.  Both markers are present in the output. *)
Theorem fetchJav_panics_on_reversed_markers :
  Index (exec_output markersOutOfOrder) startMarker = 45 /\
  Index (exec_output markersOutOfOrder) endMarker = 13 /\
  fetchJavInfoFromPython json_Unmarshal markersOutOfOrder
  = Panics (str "slice bounds out of range").
Proof. vm_compute. done. Qed.

End JavFacts.

(** ** Asset extensions *)

(** C8: on a 200 response of content type [image/gif], [downloadImage]
    names the file [.gif] and [downloadJavImage] names it [.jpg]: a content
    type containing gif yields [.gif] in the first and not in the second. *)
Theorem javImageExt_gif_is_jpg :
  imageExt (str "image/gif") = str ".gif" /\
  javImageExt (str "image/gif") = str ".jpg" /\
  dl_result (downloadImage joinPath gifWorld sampleImageURL (str "42")
               (str "images") ∅)
  = Ok (str "images/42.gif") /\
  dl_result (downloadJavImage joinPath gifWorld sampleImageURL
               (str "SSIS-001_poster") (str "images") ∅)
  = Ok (str "images/SSIS-001_poster.jpg").
Proof. vm_compute. done. Qed.


Lemma Contains_false (s sub : gostring) :
  Contains s sub = false <-> ~ occurs sub s.
Proof.
  unfold occurs. rewrite <- Contains_true. by destruct (Contains s sub).
Qed.

(** [downloadImage]: png before gif before webp, and [.jpg] otherwise. *)
Lemma imageExt_mapping (contentType : gostring) :
  (occurs (str "png") contentType -> imageExt contentType = str ".png") /\
  (~ occurs (str "png") contentType -> occurs (str "gif") contentType ->
   imageExt contentType = str ".gif") /\
  (~ occurs (str "png") contentType -> ~ occurs (str "gif") contentType ->
   occurs (str "webp") contentType -> imageExt contentType = str ".webp") /\
  (~ occurs (str "png") contentType -> ~ occurs (str "gif") contentType ->
   ~ occurs (str "webp") contentType -> imageExt contentType = str ".jpg").
Proof.
  unfold imageExt.
  repeat split; intros;
    repeat match goal with
      | H : occurs _ _ |- _ => apply Contains_true in H; rewrite H
      | H : ~ occurs _ _ |- _ => apply Contains_false in H; rewrite H
      end; reflexivity.
Qed.

(** [downloadJavImage]: png before webp, and [.jpg] otherwise, also for a
    gif. *)
Lemma javImageExt_mapping (contentType : gostring) :
  (occurs (str "png") contentType -> javImageExt contentType = str ".png") /\
  (~ occurs (str "png") contentType -> occurs (str "webp") contentType ->
   javImageExt contentType = str ".webp") /\
  (~ occurs (str "png") contentType -> ~ occurs (str "webp") contentType ->
   javImageExt contentType = str ".jpg").
Proof.
  unfold javImageExt.
  repeat split; intros;
    repeat match goal with
      | H : occurs _ _ |- _ => apply Contains_true in H; rewrite H
      | H : ~ occurs _ _ |- _ => apply Contains_false in H; rewrite H
      end; reflexivity.
Qed.

(** ** The retry budget of the asset download *)

(** Three attempts that fail in the transport or by their status use up the
    budget: the call makes three requests, sleeps between them, leaves the
    files alone and reports the failure of the last one. *)
Lemma downloadImage_exhausted (join : gostring -> gostring -> gostring)
  (w : world) (imageURL subjectID imageDir : gostring) (fs : files)
  (e1 e2 e3 : error) :
  imageURL <> [] ->
  http_NewRequest w imageURL = None ->
  download_failure (http_Do w imageURL 1) = Some e1 ->
  download_failure (http_Do w imageURL 2) = Some e2 ->
  download_failure (http_Do w imageURL 3) = Some e3 ->
  downloadImage join w imageURL subjectID imageDir fs
  = {| dl_result := Err e3; dl_files := fs;
       dl_trace := [EvDo imageURL 1; EvSleep 2; EvDo imageURL 2; EvSleep 2;
                    EvDo imageURL 3] |}.
Proof.
  intros Hurl Hreq H1 H2 H3. unfold downloadImage.
  rewrite decide_False by done. unfold download_maxRetries.
  cbn [downloadImage_loop]. rewrite Hreq. unfold download_failure in *.
  destruct (http_Do w imageURL 1) as [err1|r1];
    [|destruct (StatusCode r1 =? StatusOK); [discriminate|]];
    (destruct (http_Do w imageURL 2) as [err2|r2];
       [|destruct (StatusCode r2 =? StatusOK); [discriminate|]]);
    (destruct (http_Do w imageURL 3) as [err3|r3];
       [|destruct (StatusCode r3 =? StatusOK); [discriminate|]]);
    injection H3 as <-; reflexivity.
Qed.

(** ** The library models on small inputs *)

Example TrimSpace_ascii :
  TrimSpace (str "  The Witcher 3 ") = str "The Witcher 3".
Proof. reflexivity. Qed.

(** U+3000, the ideographic space, is white space too. *)
Example TrimSpace_ideographic :
  TrimSpace (str "　巫师3　") = str "巫师3".
Proof. vm_compute. reflexivity. Qed.

Example Replace1_first_only :
  Replace1 (str "a-b-c") (str "-") [] = str "ab-c".
Proof. reflexivity. Qed.

Example Split_subtitle :
  Split (str "1994 / 美国 / 剧情 犯罪") (str " / ")
  = [str "1994"; str "美国"; str "剧情 犯罪"].
Proof. vm_compute. reflexivity. Qed.

Example extractYear_first_field :
  extractYear (str " 1994-09-10 (多伦多电影节)") = str "1994-09-10".
Proof. vm_compute. reflexivity. Qed.

Example FindStringSubmatch_rating :
  FindStringSubmatch
    (Concat [Lit (str "rating_num"); Star (Class (not_char ">")); ratingTail])
    samplePage
  = [str "rating_num" ++ [dquote] ++ str " property=" ++ [dquote]
     ++ str "v:average" ++ [dquote] ++ str ">9.5</strong>";
     str "9.5"].
Proof. vm_compute. reflexivity. Qed.

Example FindStringSubmatch_no_match :
  FindStringSubmatch doubanURLPattern
    (str "http://movie.douban.com/subject/1292052/") = [].
Proof. vm_compute. reflexivity. Qed.

Example ParseDoubanURL_movie :
  ParseDoubanURL samplePageURL (str "movie") = Ok (str "1292052").
Proof. vm_compute. reflexivity. Qed.

Example ParseDoubanURL_wrong_host :
  ParseDoubanURL (str "https://book.douban.com/subject/26752088/")
    (str "movie")
  = Err (str "invalid host for subject type movie. "
         ++ str "supported hosts: movie.douban.com").
Proof. vm_compute. reflexivity. Qed.

Example projectSubject_movie :
  let m := projectSubject (MovieSubject sampleMovieSubject) in
  MediaSubject.Creator m = str "弗兰克·德拉邦特" /\
  MediaSubject.Press m = str "美国" /\
  MediaSubject.PubDate m = str "1994-09-10" /\
  float_is_zero (MediaSubject.Rating m) = true.
Proof. vm_compute. done. Qed.

(** ** The string helpers of the handlers *)

Lemma ReplaceAllByte_app (s t : gostring) (old : ascii) (new : gostring) :
  ReplaceAllByte (s ++ t) old new
  = ReplaceAllByte s old new ++ ReplaceAllByte t old new.
Proof. unfold ReplaceAllByte. apply flat_map_app. Qed.

Lemma encodeURL_cons (c : ascii) (s : gostring) :
  encodeURL (c :: s)
  = (if decide (c = newline) then []
     else if decide (c = " "%char) then str "+" else [c]) ++ encodeURL s.
Proof.
  unfold encodeURL, ReplaceAllByte. cbn [flat_map].
  rewrite flat_map_app. f_equal.
  destruct (decide (c = " "%char)) as [->|Hsp].
  - by rewrite (decide_False (P := " "%char = newline)) by discriminate.
  - cbn [flat_map]. rewrite app_nil_r. by destruct (decide (c = newline)).
Qed.

Lemma encodeURL_app (s t : gostring) :
  encodeURL (s ++ t) = encodeURL s ++ encodeURL t.
Proof. unfold encodeURL. by rewrite !ReplaceAllByte_app. Qed.

Lemma encodeURL_no_blank (s : gostring) :
  (" "%char ∉ encodeURL s) /\
  (newline ∉ encodeURL s) /\
  (length (encodeURL s) <= length s)%nat /\
  encodeURL (encodeURL s) = encodeURL s /\
  (" "%char ∉ s -> newline ∉ s -> encodeURL s = s).
Proof.
  induction s as [|c s (IH1 & IH2 & IH3 & IH4 & IH5)].
  - repeat split; try apply not_elem_of_nil; done.
  - rewrite encodeURL_cons.
    destruct (decide (c = newline)) as [->|Hnl]; cbn [app].
    { repeat split; try done; [cbn [length]; lia|].
      intros _ Hin. destruct Hin. apply list_elem_of_here. }
    destruct (decide (c = " "%char)) as [->|Hsp]; cbn [app str
      list_ascii_of_string].
    + repeat split.
      * intros [?|?]%elem_of_cons; [discriminate | done].
      * intros [?|?]%elem_of_cons; [discriminate | done].
      * cbn [length]. lia.
      * rewrite encodeURL_cons.
        rewrite (decide_False (P := "+"%char = newline)) by discriminate.
        rewrite (decide_False (P := "+"%char = " "%char)) by discriminate.
        cbn [app]. by rewrite IH4.
      * intros Hin. destruct Hin. apply list_elem_of_here.
    + repeat split.
      * intros [?|?]%elem_of_cons; [by subst | done].
      * intros [?|?]%elem_of_cons; [by subst | done].
      * cbn [length]. lia.
      * rewrite encodeURL_cons, !decide_False by done.
        cbn [app]. by rewrite IH4.
      * intros H1 H2. rewrite IH5; [done | | ];
          intros Hin; [apply H1 | apply H2]; by apply list_elem_of_further.
Qed.

(** X1: [encodeURL] works byte by byte: it puts a plus sign for every space,
    drops every line feed and keeps every other byte, in place.  So its
    result holds no space and no line feed, is never longer than its
    argument and is shorter by the number of line feeds, and applying it
    twice is applying it once. *)
Theorem encodeURL_clean (s : gostring) :
  (forall t, encodeURL (s ++ t) = encodeURL s ++ encodeURL t) /\
  encodeURL (str " ") = str "+" /\
  encodeURL [newline] = [] /\
  (forall c, c <> " "%char -> c <> newline -> encodeURL [c] = [c]) /\
  encodeURL s
  = flat_map (fun c => if decide (c = newline) then []
                       else if decide (c = " "%char) then str "+"
                       else [c]) s /\
  length (encodeURL s)
  = length (filter (fun c => c <> newline) s) /\
  (" "%char ∉ encodeURL s) /\
  (newline ∉ encodeURL s) /\
  (length (encodeURL s) <= length s)%nat /\
  encodeURL (encodeURL s) = encodeURL s /\
  (" "%char ∉ s -> newline ∉ s -> encodeURL s = s).
Proof.
  split; [intros t; apply encodeURL_app|].
  split; [reflexivity|]. split; [reflexivity|]. split.
  { intros c Hsp Hnl. rewrite encodeURL_cons.
    by rewrite !decide_False by done. }
  split.
  { induction s as [|c s IH]; [done|].
    rewrite encodeURL_cons. cbn [flat_map]. by rewrite IH. }
  split; [|apply encodeURL_no_blank].
  induction s as [|c s IH]; [done|].
  rewrite encodeURL_cons, filter_cons, length_app, IH.
  destruct (decide (c <> newline)) as [Hnl|Heq].
  - rewrite (decide_False (P := c = newline)) by done.
    by destruct (decide (c = " "%char)).
  - apply dec_stable in Heq. by rewrite (decide_True (P := c = newline)).
Qed.

Lemma slice_prefix (s : gostring) (n : Z) :
  0 <= n <= Z.of_nat (length s) ->
  slice s 0 n = Some (take (Z.to_nat n) s).
Proof.
  intros Hn. unfold slice.
  replace ((0 <=? 0) && (0 <=? n) && (n <=? Z.of_nat (length s)))
    with true by (symmetry; rewrite !andb_true_iff, !Z.leb_le; lia).
  by rewrite Z.sub_0_r.
Qed.

Lemma slice_negative (s : gostring) (n : Z) : n < 0 -> slice s 0 n = None.
Proof.
  intros Hn. unfold slice.
  replace ((0 <=? 0) && (0 <=? n) && (n <=? Z.of_nat (length s)))
    with false; [done|].
  symmetry. rewrite !andb_false_iff, !Z.leb_gt. lia.
Qed.

(** X2: [truncateString] with a bound that is not negative returns a string of
    at most [maxLen + 3] bytes, or [s] itself when it is within the bound;
    a cut string starts like [s] for [maxLen] bytes, and a second truncation
    changes nothing.  With a negative bound it panics. *)
Theorem truncateString_spec (s : gostring) (maxLen : Z) :
  if 0 <=? maxLen then
    exists t,
      truncateString s maxLen = Returns t /\
      Z.of_nat (length t) <= Z.max (Z.of_nat (length s)) (maxLen + 3) /\
      (Z.of_nat (length s) <= maxLen -> t = s) /\
      (maxLen < Z.of_nat (length s) ->
       t = take (Z.to_nat maxLen) s ++ str "..." /\
       Z.of_nat (length t) = maxLen + 3) /\
      truncateString t maxLen = Returns t
  else truncateString s maxLen = Panics (str "slice bounds out of range").
Proof.
  unfold truncateString.
  destruct (0 <=? maxLen) eqn:Hmax.
  - apply Z.leb_le in Hmax.
    destruct (Z.of_nat (length s) <=? maxLen) eqn:Hlen.
    + exists s. rewrite Hlen. apply Z.leb_le in Hlen.
      split; [done|]. split; [lia|]. split; [done|]. split; [lia|]. done.
    + apply Z.leb_gt in Hlen. rewrite slice_prefix by lia.
      set (t := take (Z.to_nat maxLen) s ++ str "...").
      assert (Z.of_nat (length t) = maxLen + 3) as Ht.
      { unfold t. rewrite length_app, length_take.
        change (length (str "...")) with 3%nat. lia. }
      exists t. split; [done|]. split; [lia|]. split; [lia|].
      split; [done|].
      rewrite (proj2 (Z.leb_gt _ _)) by lia.
      rewrite slice_prefix by lia. do 2 f_equal. unfold t.
      rewrite take_app_le by (rewrite length_take; lia).
      rewrite take_take. f_equal. lia.
  - apply Z.leb_gt in Hmax. rewrite (proj2 (Z.leb_gt _ _)) by lia.
    by rewrite slice_negative.
Qed.

Lemma occurs_wrap (sub s pre post : gostring) :
  occurs sub s -> occurs sub (pre ++ s ++ post).
Proof.
  intros (a & b & ->). exists (pre ++ a), (b ++ post).
  by rewrite <- !app_assoc.
Qed.

(** X3: an error recognised as a client that went away is still recognised
    when its message is wrapped in more text; the [nil] error and the empty
    message are not recognised. *)
Theorem isBrokenPipe_wrapped (errStr pre post : gostring) :
  isBrokenPipeOrConnectionReset None = false /\
  isBrokenPipeOrConnectionReset (Some []) = false /\
  (isBrokenPipeOrConnectionReset (Some errStr) = true ->
   isBrokenPipeOrConnectionReset (Some (pre ++ errStr ++ post)) = true).
Proof.
  split; [done|]. split; [done|]. unfold isBrokenPipeOrConnectionReset.
  rewrite !orb_true_iff, !Contains_true.
  intros [[H|H]|H]; [left; left | left; right | right];
    by apply occurs_wrap.
Qed.

(** ** Splitting and joining *)

Lemma split_scan_skip (sep : gostring) (s : gostring) :
  forall (k : nat) (cur : gostring),
    split_scan sep k cur s = split_scan sep O cur (drop k s).
Proof.
  induction s as [|c s IH]; intros k cur.
  - by rewrite drop_nil.
  - destruct k as [|k]; [done|]. cbn [split_scan drop]. apply IH.
Qed.

(** [Split] cuts at the leftmost occurrence of the separator and goes on
    after it. *)
Lemma split_scan_index (sep : gostring) :
  sep <> [] ->
  forall (s cur : gostring),
    split_scan sep O cur s =
      match index_of s sep with
      | None => [rev cur ++ s]
      | Some i =>
          (rev cur ++ take i s) :: Split (drop (i + length sep) s) sep
      end.
Proof.
  intros Hsep. induction s as [|c s IH]; intros cur.
  - destruct sep as [|x sep]; [done|]. cbn. by rewrite app_nil_r.
  - cbn [split_scan index_of]. destruct (HasPrefix (c :: s) sep) eqn:Hp.
    + rewrite split_scan_skip. cbn [take]. rewrite app_nil_r.
      f_equal. unfold Split. f_equal.
      destruct sep as [|x sep]; [done|]. cbn [length Nat.add drop].
      by rewrite Nat.sub_succ, Nat.sub_0_r.
    + rewrite IH. destruct (index_of s sep) as [i|]; cbn [fmap option_fmap
        option_map rev take Nat.add drop].
      * by rewrite <- app_assoc.
      * by rewrite <- app_assoc.
Qed.

Lemma Split_index (s sep : gostring) :
  sep <> [] ->
  Split s sep =
    match index_of s sep with
    | None => [s]
    | Some i => take i s :: Split (drop (i + length sep) s) sep
    end.
Proof. intros Hsep. unfold Split at 1. by rewrite split_scan_index. Qed.

Lemma first_occurrence_index (s pre sub post : gostring) :
  first_occurrence s pre sub post ->
  index_of s sub = Some (length pre) /\
  take (length pre) s = pre /\
  drop (length pre + length sub) s = post.
Proof.
  intros [-> Hmin]. destruct (index_of _ sub) as [i|] eqn:Hi.
  - destruct (index_of_Some _ _ _ Hi) as [Hs Hleast].
    specialize (Hleast _ _ eq_refl). specialize (Hmin _ _ Hs).
    rewrite length_take in Hmin. assert (i = length pre) as -> by lia.
    split; [done|]. split; [by rewrite take_app_length|].
    by rewrite app_assoc, <- length_app, drop_app_length.
  - by destruct (index_of_None _ _ Hi pre post).
Qed.

Lemma index_of_absent (s sub : gostring) :
  index_of s sub = None <-> ~ occurs sub s.
Proof.
  split.
  - intros Hi (pre & post & Hs). by apply (index_of_None _ _ Hi pre post).
  - intros Hno. destruct (index_of s sub) as [i|] eqn:Hi; [|done].
    destruct Hno. apply index_of_Some in Hi as [Hs _]. red. eauto.
Qed.

(** X4: the affiliation of a movie is the text between the first and the
    second [" / "] of its card subtitle: empty when the subtitle has no
    [" / "], the rest of the subtitle when it has one, whatever comes
    after the second being dropped. *)
Theorem movie_press_is_second_segment (subject : DoubanMovieSubject.t) :
  let subtitle := DoubanMovieSubject.CardSubtitle subject in
  let press := MediaSubject.Press (projectSubject (MovieSubject subject)) in
  (~ occurs (str " / ") subtitle -> press = []) /\
  (forall first rest,
     first_occurrence subtitle first (str " / ") rest ->
     (~ occurs (str " / ") rest -> press = rest) /\
     (forall second more,
        first_occurrence rest second (str " / ") more -> press = second)).
Proof.
  intros subtitle press. subst press. cbn [projectSubject MediaSubject.Press].
  fold subtitle. rewrite Split_index by discriminate. split.
  - intros Hno%index_of_absent. by rewrite Hno.
  - intros first rest (Hi & _ & Hrest)%first_occurrence_index.
    rewrite Hi, Hrest. rewrite (Split_index rest) by discriminate. split.
    + intros Hno%index_of_absent. by rewrite Hno.
    + intros second more (Hj & Hsecond & _)%first_occurrence_index.
      by rewrite Hj, Hsecond.
Qed.

Lemma index_of_byte_absent (c : ascii) (e : gostring) :
  c ∉ e -> index_of e [c] = None.
Proof.
  induction e as [|x e IH]; intros Hc; [done|].
  cbn [index_of HasPrefix]. rewrite bool_decide_eq_false_2.
  - cbn [andb]. rewrite IH; [done|]. intros Hin. apply Hc.
    by apply list_elem_of_further.
  - intros ->. apply Hc. apply list_elem_of_here.
Qed.

Lemma index_of_byte_first (c : ascii) (e rest : gostring) :
  c ∉ e -> index_of (e ++ c :: rest) [c] = Some (length e).
Proof.
  induction e as [|x e IH]; intros Hc.
  - cbn [app index_of HasPrefix]. by rewrite bool_decide_eq_true_2.
  - cbn [app index_of HasPrefix]. rewrite bool_decide_eq_false_2.
    + cbn [andb]. rewrite IH; [done|]. intros Hin. apply Hc.
      by apply list_elem_of_further.
    + intros ->. apply Hc. apply list_elem_of_here.
Qed.

Lemma drop_app_cons (c : ascii) (e rest : gostring) :
  drop (length e + 1) (e ++ c :: rest) = rest.
Proof. induction e as [|x e IH]; [done | exact IH]. Qed.

(** X5: names without a slash come back from the joined creator string when it
    is split at the slashes.  The list must not be empty: the empty list is
    joined to the empty string, which splits into one empty name. *)
Theorem creator_split_round_trip (names : list gostring) :
  names <> [] ->
  Forall (fun name => "/"%char ∉ name) names ->
  Split (joinStringsWithSlash names) (str "/") = names /\
  Split (joinStringsWithSlash []) (str "/") = [[]].
Proof.
  intros Hne Hnames. split; [|done]. unfold joinStringsWithSlash.
  induction names as [|e names IH]; [done|].
  inversion Hnames as [|? ? He Hrest]; subst.
  rewrite Split_index by discriminate.
  destruct names as [|e2 names].
  - cbn [Join]. change (str "/") with ["/"%char].
    by rewrite index_of_byte_absent.
  - cbn [Join]. change (str "/") with ["/"%char]. cbn [app].
    rewrite index_of_byte_first by done.
    rewrite take_app_length. f_equal. cbn [length].
    rewrite drop_app_cons. apply IH; done.
Qed.

Lemma creator_split_round_trip_witness :
  Split (getCreator [ {| Name := str "Lana Wachowski" |};
                      {| Name := str "Lilly Wachowski" |} ]) (str "/")
  = [str "Lana Wachowski"; str "Lilly Wachowski"].
Proof.
  destruct (creator_split_round_trip
              [str "Lana Wachowski"; str "Lilly Wachowski"]) as [H _].
  - discriminate.
  - repeat constructor; vm_compute; intros H; by repeat
      (apply elem_of_cons in H as [H|H]; [discriminate H|]);
      apply elem_of_nil in H.
  - exact H.
Defined.

(** ** The year of a publication date *)

Lemma space_width_graphic (c : ascii) (s : gostring) :
  is_graphic c = true -> space_width (c :: s) = O.
Proof.
  destruct c as [[] [] [] [] [] [] [] []]; intros H;
    solve [discriminate H | reflexivity].
Qed.

Lemma fields_scan_graphic (d : gostring) :
  Forall (fun c => is_graphic c = true) d ->
  forall cur rest,
    fields_scan O cur (d ++ rest) = fields_scan O (rev d ++ cur) rest.
Proof.
  induction 1 as [|c d Hc Hd IH]; intros cur rest; [done|].
  cbn [app fields_scan]. rewrite space_width_graphic by done.
  rewrite IH. f_equal. cbn [rev]. by rewrite <- app_assoc.
Qed.

Lemma Fields_leading_space (s : gostring) :
  Fields (" "%char :: s) = Fields s.
Proof. reflexivity. Qed.

(** X6: [extractYear] returns the first white-space-delimited token of the
    date, whole: a date written as one run of printable ASCII bytes comes
    back unchanged, also when spaces precede it and when a space and more
    text follow.  A leading space is skipped, and the empty date has no
    year. *)
Theorem extractYear_first_token (d rest : gostring) :
  d <> [] ->
  Forall (fun c => is_graphic c = true) d ->
  extractYear d = d /\
  extractYear (d ++ " "%char :: rest) = d /\
  extractYear (" "%char :: d ++ " "%char :: rest) = d /\
  extractYear [] = [] /\
  (forall s, extractYear (" "%char :: s) = extractYear s).
Proof.
  intros Hne Hd.
  assert (forall tail, tail = [] \/ (exists r, tail = " "%char :: r) ->
            extractYear (d ++ tail) = d) as Hmain.
  { intros tail Htail. unfold extractYear.
    rewrite decide_False by (destruct d; done).
    unfold Fields. rewrite fields_scan_graphic by done.
    rewrite app_nil_r.
    destruct Htail as [->|[r ->]].
    - cbn [fields_scan]. destruct (rev d) eqn:Hr.
      + apply (f_equal (@rev ascii)) in Hr. rewrite rev_involutive in Hr.
        by subst.
      + by rewrite <- Hr, rev_involutive.
    - cbn [fields_scan]. change (space_width (" "%char :: r)) with 1%nat.
      cbv iota. destruct (rev d) eqn:Hr.
      + apply (f_equal (@rev ascii)) in Hr. rewrite rev_involutive in Hr.
        by subst.
      + rewrite <- Hr, rev_involutive. done. }
  assert (forall s, extractYear (" "%char :: s) = extractYear s) as Hlead.
  { intros s. unfold extractYear. rewrite decide_False by done.
    rewrite Fields_leading_space. by destruct s. }
  split; [rewrite <- (app_nil_r d) at 1; apply Hmain; by left|].
  split; [apply Hmain; eauto|].
  split; [rewrite Hlead; apply Hmain; eauto|].
  split; [done | exact Hlead].
Qed.

Lemma extractYear_first_token_witness :
  extractYear (str "1994-09-10 (USA)") = str "1994-09-10".
Proof.
  destruct (extractYear_first_token (str "1994-09-10") (str "(USA)"))
    as (_ & H & _).
  - discriminate.
  - repeat constructor.
  - exact H.
Defined.

(** ** The add-item handler, branch by branch *)

Section HandlerBranches.
Variable w : world.
Variable json : json_decoder.
Variable ParseFloat : gostring -> result float64.
Variable filepath_Join : gostring -> gostring -> gostring.
Variable filepath_Base : gostring -> gostring.
Variable time_Parse : gostring -> result Time.
Variable globalImageDir : gostring.

Abbreviation handler' :=
  (addMovieHandler w json ParseFloat filepath_Join filepath_Base time_Parse
     globalImageDir).
Abbreviation create' :=
  (createMovie w ParseFloat filepath_Join filepath_Base globalImageDir).
Abbreviation update' :=
  (updateMovie w filepath_Join filepath_Base globalImageDir).

Ltac run_M' :=
  unfold do_fetchRating, do_downloadImage, do_FetchDoubanMediaInfo,
    db_First, db_Create, db_Save, db_store, time_Now,
    record_call, mbind, M_bind, mret, M_ret;
  cbn [db disk ticks calls fst snd].

(** Where a resolved request goes after the lookup. *)
Lemma addMovieHandler_resolved r s subjectID mediaInfo :
  resolved_request w json r subjectID mediaInfo ->
  handler' r s =
    match db_query_err w with
    | Some err =>
        (redirect_error (str "查询数据库失败: " ++ err),
         after_lookup r subjectID s)
    | None =>
        match db s !! subjectID with
        | None =>
            create' (FormValue r (str "douban_url")) subjectID mediaInfo
              (watchedAtOf w time_Parse r s) (after_lookup r subjectID s)
        | Some existingMovie =>
            update' (FormValue r (str "douban_url")) subjectID mediaInfo
              (watchedAtOf w time_Parse r s) existingMovie
              (after_lookup r subjectID s)
        end
    end.
Proof.
  intros [Hm Hl Hp Hf]. unfold addMovieHandler.
  rewrite bool_decide_eq_true_2 by done. cbn [negb].
  rewrite decide_False by done. run_M'. rewrite Hp. run_M'. rewrite Hf.
  run_M'. unfold after_lookup, watchedAtOf.
  destruct (db_query_err w); [by rewrite <- app_assoc|].
  destruct (db s !! subjectID); by rewrite <- app_assoc.
Qed.

(** X7: a request that is refused before the metadata fetch touches nothing:
    no collaborator is called and the table and the files stay as they
    were.  This holds for a request that is not a POST, for one without a
    link and for one whose link does not resolve.  When the metadata fetch
    fails or the lookup fails, the table and the files are untouched too and
    neither the rating page nor the image is requested. *)
Theorem addMovieHandler_refusals (r : request) (s : server) :
  let link := FormValue r (str "douban_url") in
  (Method r <> str "POST" ->
   handler' r s
   = (HttpError (str "Method not allowed") StatusMethodNotAllowed, s)) /\
  (Method r = str "POST" -> link = [] ->
   handler' r s = (redirect_error (str "请输入豆瓣链接"), s)) /\
  (forall err,
     Method r = str "POST" -> link <> [] ->
     ParseDoubanURL link (detectSubjectType link) = Err err ->
     fst (handler' r s) = redirect_error (str "无效的豆瓣链接: " ++ err) /\
     db (snd (handler' r s)) = db s /\
     disk (snd (handler' r s)) = disk s /\
     calls (snd (handler' r s)) = calls s) /\
  (forall subjectID err,
     Method r = str "POST" -> link <> [] ->
     ParseDoubanURL link (detectSubjectType link) = Ok subjectID ->
     fst (FetchDoubanMediaInfo w json (detectSubjectType link) subjectID)
     = Err err ->
     fst (handler' r s) = redirect_error (str "获取豆瓣信息失败: " ++ err) /\
     db (snd (handler' r s)) = db s /\
     disk (snd (handler' r s)) = disk s /\
     calls (snd (handler' r s))
     = calls s ++ [CallFetchDoubanMediaInfo (detectSubjectType link)
                     subjectID]) /\
  (forall subjectID mediaInfo err,
     resolved_request w json r subjectID mediaInfo ->
     db_query_err w = Some err ->
     fst (handler' r s) = redirect_error (str "查询数据库失败: " ++ err) /\
     db (snd (handler' r s)) = db s /\
     disk (snd (handler' r s)) = disk s /\
     calls (snd (handler' r s))
     = calls s ++ [CallFetchDoubanMediaInfo (detectSubjectType link)
                     subjectID;
                   CallDbFirst subjectID]).
Proof.
  intros link. repeat split.
  - intros Hm. unfold addMovieHandler.
    by rewrite bool_decide_eq_false_2 by done.
  - intros Hm Hl. unfold addMovieHandler.
    rewrite bool_decide_eq_true_2 by done. cbn [negb].
    fold link. by rewrite Hl.
  - unfold addMovieHandler.
    rewrite bool_decide_eq_true_2 by done. cbn [negb].
    fold link. rewrite decide_False by done. run_M'. by rewrite H1.
  - unfold addMovieHandler.
    rewrite bool_decide_eq_true_2 by done. cbn [negb].
    fold link. rewrite decide_False by done. run_M'. by rewrite H1.
  - unfold addMovieHandler.
    rewrite bool_decide_eq_true_2 by done. cbn [negb].
    fold link. rewrite decide_False by done. run_M'. by rewrite H1.
  - unfold addMovieHandler.
    rewrite bool_decide_eq_true_2 by done. cbn [negb].
    fold link. rewrite decide_False by done. run_M'. by rewrite H1.
  - unfold addMovieHandler.
    rewrite bool_decide_eq_true_2 by done. cbn [negb].
    fold link. rewrite decide_False by done. run_M'. rewrite H1. run_M'.
    by rewrite H2.
  - unfold addMovieHandler.
    rewrite bool_decide_eq_true_2 by done. cbn [negb].
    fold link. rewrite decide_False by done. run_M'. rewrite H1. run_M'.
    by rewrite H2.
  - unfold addMovieHandler.
    rewrite bool_decide_eq_true_2 by done. cbn [negb].
    fold link. rewrite decide_False by done. run_M'. rewrite H1. run_M'.
    by rewrite H2.
  - unfold addMovieHandler.
    rewrite bool_decide_eq_true_2 by done. cbn [negb].
    fold link. rewrite decide_False by done. run_M'. rewrite H1. run_M'.
    by rewrite H2.
  - rewrite (addMovieHandler_resolved _ _ _ _ H), H0. done.
  - rewrite (addMovieHandler_resolved _ _ _ _ H), H0. done.
  - rewrite (addMovieHandler_resolved _ _ _ _ H), H0. done.
  - rewrite (addMovieHandler_resolved _ _ _ _ H), H0.
    cbn [snd after_lookup calls]. done.
Qed.

End HandlerBranches.

Section HandlerRecords.
Variable w : world.
Variable json : json_decoder.
Variable ParseFloat : gostring -> result float64.
Variable filepath_Join : gostring -> gostring -> gostring.
Variable filepath_Base : gostring -> gostring.
Variable time_Parse : gostring -> result Time.
Variable globalImageDir : gostring.

Abbreviation handler2 :=
  (addMovieHandler w json ParseFloat filepath_Join filepath_Base time_Parse
     globalImageDir).
Abbreviation created :=
  (created_movie w ParseFloat filepath_Join filepath_Base time_Parse
     globalImageDir).
Abbreviation updated :=
  (updated_movie w filepath_Join filepath_Base time_Parse globalImageDir).

Ltac run_M2 :=
  unfold do_fetchRating, do_downloadImage, do_FetchDoubanMediaInfo,
    db_First, db_Create, db_Save, db_store, time_Now,
    record_call, mbind, M_bind, mret, M_ret;
  cbn [db disk ticks calls fst snd].

Lemma new_record_resolved r s subjectID mediaInfo :
  new_record w json r s subjectID mediaInfo ->
  resolved_request w json r subjectID mediaInfo.
Proof. intros [? ? ? ? ? ?]. by split. Qed.

(** What a creating resolution leaves: the record it hands to the
    database, stored under the identifier unless the write is refused; the
    files of the download, whatever the database says; and the reply. *)
Lemma addMovieHandler_creates r s subjectID mediaInfo :
  new_record w json r s subjectID mediaInfo ->
  let out := handler2 r s in
  let movie := created r s subjectID mediaInfo in
  let dl := downloadImage filepath_Join w (MediaSubject.ImageURL mediaInfo)
              subjectID globalImageDir (disk s) in
  last (calls (snd out)) = Some (CallDbCreate movie) /\
  db (snd out) = match db_write_err w with
                 | None => <[subjectID := movie]> (db s)
                 | Some _ => db s
                 end /\
  disk (snd out) = (if decide (MediaSubject.ImageURL mediaInfo = [])
                    then disk s else dl_files dl) /\
  fst out = match db_write_err w with
            | None => redirect_success (str "电影添加成功")
            | Some err => redirect_error (str "保存电影失败: " ++ err)
            end.
Proof.
  intros Hnew out movie dl. subst out movie dl.
  rewrite (addMovieHandler_resolved w json ParseFloat filepath_Join
             filepath_Base time_Parse globalImageDir _ s _ _
             (new_record_resolved _ _ _ _ Hnew)).
  destruct Hnew as [_ _ _ _ Hq Ha]. rewrite Hq, Ha.
  unfold createMovie, created_movie, after_lookup.
  destruct (float_is_zero (MediaSubject.Rating mediaInfo));
    destruct (decide (MediaSubject.ImageURL mediaInfo = [])); run_M2;
    try destruct (dl_result _); run_M2;
    destruct (db_write_err w); run_M2;
    rewrite ?last_snoc; done.
Qed.

(** What an updating resolution leaves. *)
Lemma addMovieHandler_updates r s subjectID mediaInfo existing :
  known_record w json r s subjectID mediaInfo existing ->
  let out := handler2 r s in
  let saved := updated r s subjectID mediaInfo existing in
  let dl := downloadImage filepath_Join w (MediaSubject.ImageURL mediaInfo)
              subjectID globalImageDir (disk s) in
  fst out = redirect_success (str "电影已存在，已更新观看时间") /\
  calls (snd out)
  = calls s
    ++ [CallFetchDoubanMediaInfo
          (detectSubjectType (FormValue r (str "douban_url"))) subjectID;
        CallDbFirst subjectID]
    ++ (if wants_download mediaInfo existing
        then [CallDownloadImage (MediaSubject.ImageURL mediaInfo) subjectID
                globalImageDir]
        else [])
    ++ [CallDbSave saved] /\
  db (snd out) = match db_write_err w with
                 | None => <[Movie.DoubanID existing := saved]> (db s)
                 | Some _ => db s
                 end /\
  disk (snd out) = (if wants_download mediaInfo existing
                    then dl_files dl else disk s).
Proof.
  intros [Hres Hq Hf] out saved dl. subst out saved dl.
  rewrite (addMovieHandler_resolved w json ParseFloat filepath_Join
             filepath_Base time_Parse globalImageDir _ s _ _ Hres).
  rewrite Hq, Hf. unfold updateMovie, updated_movie, after_lookup.
  unfold wants_download.
  cbn [Movie.set_WatchedAt Movie.set_DoubanURL Movie.ImageURL].
  destruct (negb (bool_decide (MediaSubject.ImageURL mediaInfo = []))
            && (negb (HasPrefix (Movie.ImageURL existing) (str "/images/"))
                || bool_decide (Movie.ImageURL existing = []))); run_M2;
    try destruct (dl_result _); run_M2;
    destruct (db_write_err w); run_M2;
    rewrite <- ?app_assoc; done.
Qed.

(** X8: a link whose record is already in the table: the handler answers with
    the success redirect whether or not the database accepts the write,
    never calls [fetchRating], and saves the stored record with a new
    viewing date and link; the image is requested only when the metadata
    has one and the stored reference is not a local one, and every other
    field, the rating among them, is the stored one. *)
Theorem existing_record_is_refreshed r s subjectID mediaInfo existing :
  known_record w json r s subjectID mediaInfo existing ->
  let out := handler2 r s in
  let saved := updated r s subjectID mediaInfo existing in
  fst out = redirect_success (str "电影已存在，已更新观看时间") /\
  last (calls (snd out)) = Some (CallDbSave saved) /\
  Forall (fun c => is_CallFetchRating c = false)
    (drop (length (calls s)) (calls (snd out))) /\
  (HasPrefix (Movie.ImageURL existing) (str "/images/") = true ->
   Forall (fun c => is_CallDownloadImage c = false)
     (drop (length (calls s)) (calls (snd out))) /\
   disk (snd out) = disk s /\
   Movie.ImageURL saved = Movie.ImageURL existing) /\
  db (snd out) = match db_write_err w with
                 | None => <[Movie.DoubanID existing := saved]> (db s)
                 | Some _ => db s
                 end /\
  Movie.WatchedAt saved = watchedAtOf w time_Parse r s /\
  Movie.DoubanURL saved = FormValue r (str "douban_url") /\
  (Movie.ID saved, Movie.DoubanID saved, Movie.Title saved,
   Movie.AltTitle saved, Movie.Director saved, Movie.PubDate saved,
   Movie.Rating saved, Movie.Year saved, Movie.Summary saved,
   Movie.IsFavorite saved, Movie.CreatedAt saved)
  = (Movie.ID existing, Movie.DoubanID existing, Movie.Title existing,
     Movie.AltTitle existing, Movie.Director existing,
     Movie.PubDate existing, Movie.Rating existing, Movie.Year existing,
     Movie.Summary existing, Movie.IsFavorite existing,
     Movie.CreatedAt existing).
Proof.
  intros Hknown out saved.
  destruct (addMovieHandler_updates _ _ _ _ _ Hknown)
    as (Hreply & Hcalls & Hdb & Hdisk).
  fold out saved in Hreply, Hcalls, Hdb, Hdisk.
  split; [exact Hreply|]. split.
  { rewrite Hcalls, !app_assoc. apply last_snoc. }
  split.
  { rewrite Hcalls, drop_app_length.
    destruct (wants_download mediaInfo existing); repeat constructor. }
  split.
  { intros Hlocal.
    assert (wants_download mediaInfo existing = false) as Hno.
    { unfold wants_download. rewrite Hlocal. cbn [negb orb].
      rewrite (bool_decide_eq_false_2 (Movie.ImageURL existing = [])).
      - apply andb_false_r.
      - intros Hnil. by rewrite Hnil in Hlocal. }
    rewrite Hcalls, drop_app_length, Hdisk. subst saved.
    unfold updated_movie. rewrite Hno. repeat split. repeat constructor. }
  split; [exact Hdb|]. done.
Qed.

(** X9: a creating resolution whose write the database refuses leaves the
    table as it was, answers with the error redirect, and leaves behind the
    image file it had downloaded. *)
Theorem refused_create_leaves_image r s subjectID mediaInfo err localPath :
  new_record w json r s subjectID mediaInfo ->
  db_write_err w = Some err ->
  MediaSubject.ImageURL mediaInfo <> [] ->
  dl_result (downloadImage filepath_Join w (MediaSubject.ImageURL mediaInfo)
               subjectID globalImageDir (disk s)) = Ok localPath ->
  let out := handler2 r s in
  fst out = redirect_error (str "保存电影失败: " ++ err) /\
  db (snd out) = db s /\
  is_Some (disk (snd out) !! localPath).
Proof.
  intros Hnew Hw Himg Hdl out.
  destruct (addMovieHandler_creates _ _ _ _ Hnew)
    as (_ & Hdb & Hdisk & Hreply).
  fold out in Hdb, Hdisk, Hreply. rewrite Hw in Hdb, Hreply.
  rewrite decide_False in Hdisk by done.
  split; [exact Hreply|]. split; [exact Hdb|]. rewrite Hdisk.
  pose proof (downloadImage_post filepath_Join w
                (MediaSubject.ImageURL mediaInfo) subjectID globalImageDir
                (disk s)) as Hpost.
  unfold download_post in Hpost. rewrite Hdl in Hpost.
  destruct Hpost as (n & resp & body & _ & _ & _ & _ & _ & ->).
  rewrite lookup_insert_eq. eauto.
Qed.

(** X10: the same link added twice: the second request finds the record the
    first one created, saves it again under the same identifier with the
    rating, the titles and the creation date of the first, and asks for no
    rating; the rest of the table is as before the first request. *)
Theorem adding_twice_keeps_one_record r s subjectID mediaInfo :
  new_record w json r s subjectID mediaInfo ->
  db_write_err w = None ->
  let s1 := snd (handler2 r s) in
  let s2 := snd (handler2 r s1) in
  exists first second,
    db s1 = <[subjectID := first]> (db s) /\
    db s2 = <[subjectID := second]> (db s) /\
    first = created r s subjectID mediaInfo /\
    second = updated r s1 subjectID mediaInfo first /\
    Movie.Rating second = Movie.Rating first /\
    Movie.Title second = Movie.Title first /\
    Movie.CreatedAt second = Movie.CreatedAt first /\
    Forall (fun c => is_CallFetchRating c = false)
      (drop (length (calls s1)) (calls s2)).
Proof.
  intros Hnew Hw s1 s2.
  destruct (addMovieHandler_creates _ _ _ _ Hnew) as (_ & Hdb1 & _ & _).
  fold s1 in Hdb1. rewrite Hw in Hdb1.
  set (first := created r s subjectID mediaInfo) in *.
  assert (known_record w json r s1 subjectID mediaInfo first) as Hknown.
  { split; [by apply (new_record_resolved r s) | by destruct Hnew |].
    rewrite Hdb1. apply lookup_insert_eq. }
  destruct (addMovieHandler_updates _ _ _ _ _ Hknown)
    as (_ & Hcalls & Hdb2 & _).
  fold s2 in Hcalls, Hdb2. rewrite Hw in Hdb2.
  exists first, (updated r s1 subjectID mediaInfo first).
  split; [exact Hdb1|]. split.
  { rewrite Hdb2, Hdb1. change (Movie.DoubanID first) with subjectID.
    apply insert_insert_eq. }
  split; [done|]. split; [done|]. repeat split.
  rewrite Hcalls, drop_app_length.
  destruct (wants_download mediaInfo first); repeat constructor.
Qed.

(** X11: the record a creating resolution hands to the database and stores: the
    descriptive fields are those of the canonical record, the year is the
    first token of its date, the rating is the one of the metadata service
    unless that is zero, in which case it is what [fetchRating] gives for
    the link; the record is not a favourite; the viewing date is the date
    of the form when the form gives one that parses, and otherwise, when
    the form gives none or one that does not parse, the reading of the
    clock taken before the one of the creation date. *)
Theorem new_record_is_created r s subjectID mediaInfo :
  new_record w json r s subjectID mediaInfo ->
  let out := handler2 r s in
  exists movie,
    last (calls (snd out)) = Some (CallDbCreate movie) /\
    (db_write_err w = None ->
     db (snd out) !! subjectID = Some movie /\
     fst out = redirect_success (str "电影添加成功")) /\
    (Movie.DoubanID movie, Movie.DoubanURL movie, Movie.Title movie,
     Movie.AltTitle movie, Movie.Director movie, Movie.PubDate movie,
     Movie.Summary movie, Movie.Year movie, Movie.IsFavorite movie)
    = (subjectID, FormValue r (str "douban_url"),
       MediaSubject.Title mediaInfo, MediaSubject.AltTitle mediaInfo,
       MediaSubject.Creator mediaInfo, MediaSubject.PubDate mediaInfo,
       MediaSubject.Summary mediaInfo,
       extractYear (MediaSubject.PubDate mediaInfo), false) /\
    Movie.Rating movie
    = (if float_is_zero (MediaSubject.Rating mediaInfo)
       then fetchRating ParseFloat w (FormValue r (str "douban_url"))
       else MediaSubject.Rating mediaInfo) /\
    Movie.CreatedAt movie = clock w (S (ticks s)) /\
    (FormValue r (str "watched_at") = [] ->
     Movie.WatchedAt movie = clock w (ticks s)) /\
    (forall parsed,
       FormValue r (str "watched_at") <> [] ->
       time_Parse (FormValue r (str "watched_at")) = Ok parsed ->
       Movie.WatchedAt movie = parsed) /\
    (forall err,
       FormValue r (str "watched_at") <> [] ->
       time_Parse (FormValue r (str "watched_at")) = Err err ->
       Movie.WatchedAt movie = clock w (ticks s)).
Proof.
  intros Hnew out.
  destruct (addMovieHandler_creates _ _ _ _ Hnew)
    as (Hlast & Hdb & _ & Hreply).
  fold out in Hlast, Hdb, Hreply.
  exists (created r s subjectID mediaInfo).
  split; [exact Hlast|]. split.
  { intros Hw. rewrite Hw in Hdb, Hreply. rewrite Hdb.
    split; [apply lookup_insert_eq | exact Hreply]. }
  split; [done|]. split; [done|]. split; [done|].
  cbn [created_movie Movie.WatchedAt]. unfold watchedAtOf. split; [|split].
  - intros Hempty. by rewrite decide_True.
  - intros parsed Hne Hparse. rewrite decide_False by done.
    by rewrite Hparse.
  - intros err Hne Hparse. rewrite decide_False by done.
    by rewrite Hparse.
Qed.

End HandlerRecords.

(** The record of the sample movie, added once, is found by a second
    request for the same link. *)
Lemma existing_record_is_refreshed_witness :
  let handler := addMovieHandler (catalogueWorld imageServed) sampleDecoder
                   sampleParseFloat joinPath basePath noTimeParse
                   (str "images") in
  let s1 := snd (handler sampleRequest emptyServer) in
  fst (handler sampleRequest s1)
  = redirect_success (str "电影已存在，已更新观看时间") /\
  Forall (fun c => is_CallFetchRating c = false)
    (drop (length (calls s1)) (calls (snd (handler sampleRequest s1)))).
Proof.
  intros handler s1.
  destruct (db s1 !! str "1292052") as [existing|] eqn:Hfound;
    [|vm_compute in Hfound; discriminate].
  destruct (existing_record_is_refreshed
              (catalogueWorld imageServed) sampleDecoder sampleParseFloat
              joinPath basePath noTimeParse (str "images") sampleRequest
              s1 (str "1292052")
              (projectSubject (MovieSubject sampleMovieSubject)) existing)
    as (Hreply & _ & Hcalls & _).
  - split; [split; vm_compute; congruence | reflexivity | exact Hfound].
  - split; [exact Hreply | exact Hcalls].
Defined.

(** The sample movie on a database that refuses writes: the image is on
    the disk and the table is empty. *)
Lemma refused_create_leaves_image_witness :
  let out := addMovieHandler readOnlyWorld sampleDecoder sampleParseFloat
               joinPath basePath noTimeParse (str "images") sampleRequest
               emptyServer in
  fst out = redirect_error
              (str "保存电影失败: "
               ++ str "attempt to write a readonly database") /\
  db (snd out) = db emptyServer /\
  is_Some (disk (snd out) !! str "images/1292052.png").
Proof.
  apply (refused_create_leaves_image readOnlyWorld sampleDecoder
           sampleParseFloat joinPath basePath noTimeParse (str "images")
           sampleRequest emptyServer (str "1292052")
           (projectSubject (MovieSubject sampleMovieSubject))).
  - split; vm_compute; congruence.
  - reflexivity.
  - vm_compute; congruence.
  - vm_compute; reflexivity.
Defined.

(** The sample movie added twice to an empty table. *)
Lemma adding_twice_keeps_one_record_witness :
  let handler := addMovieHandler (catalogueWorld imageServed) sampleDecoder
                   sampleParseFloat joinPath basePath noTimeParse
                   (str "images") in
  let s1 := snd (handler sampleRequest emptyServer) in
  let s2 := snd (handler sampleRequest s1) in
  exists second, db s2 = {[ str "1292052" := second ]}.
Proof.
  intros handler s1 s2.
  destruct (adding_twice_keeps_one_record
              (catalogueWorld imageServed) sampleDecoder sampleParseFloat
              joinPath basePath noTimeParse (str "images") sampleRequest
              emptyServer (str "1292052")
              (projectSubject (MovieSubject sampleMovieSubject)))
    as (first & second & _ & Hdb & _).
  - split; vm_compute; congruence.
  - reflexivity.
  - exists second. exact Hdb.
Defined.

(** The sample movie on an empty table: no viewing date in the form. *)
Lemma new_record_is_created_witness :
  exists movie,
    db (snd (addMovieHandler (catalogueWorld imageServed) sampleDecoder
               sampleParseFloat joinPath basePath noTimeParse
               (str "images") sampleRequest emptyServer))
       !! str "1292052" = Some movie /\
    Movie.Year movie = str "1994-09-10" /\
    Movie.IsFavorite movie = false.
Proof.
  destruct (new_record_is_created
              (catalogueWorld imageServed) sampleDecoder sampleParseFloat
              joinPath basePath noTimeParse (str "images") sampleRequest
              emptyServer (str "1292052")
              (projectSubject (MovieSubject sampleMovieSubject)))
    as (movie & _ & Hstored & Hfields & _).
  - split; vm_compute; congruence.
  - exists movie. destruct (Hstored eq_refl) as [Hdb _].
    split; [exact Hdb|]. injection Hfields as _ _ _ _ _ _ _ Hyear Hfav.
    split; [rewrite Hyear; reflexivity | exact Hfav].
Defined.

(** ** The metadata fetch *)

(** X12: [requestAPI] on every world: a request that cannot be built ends the
    call with that error and without any attempt; otherwise the first
    attempt is made, the second only after the first failed and a pause,
    the body returned is the body of the first attempt that got status 200
    and could be read to its end, and two failures end, after another
    pause, in an error that carries the second one. *)
Theorem requestAPI_outcomes (w : world) (url : gostring) :
  requestAPI w url =
    match http_NewRequest w url with
    | Some reqErr => (Err reqErr, [])
    | None =>
        match attempt_outcome (http_Do w url 1),
              attempt_outcome (http_Do w url 2) with
        | Ok body, _ => (Ok body, [EvDo url 1])
        | Err _, Ok body =>
            (Ok body, [EvDo url 1; EvSleep retryDelay; EvDo url 2])
        | Err _, Err e =>
            (Err (str "failed to fetch data after multiple attempts"
                  ++ [newline] ++ e),
             [EvDo url 1; EvSleep retryDelay; EvDo url 2;
              EvSleep retryDelay])
        end
    end.
Proof.
  destruct (http_NewRequest w url) as [reqErr|] eqn:Hreq.
  - by apply requestAPI_bad_request.
  - rewrite (requestAPI_budget _ _ Hreq).
    destruct (attempt_outcome (http_Do w url 1)); [done|].
    by destruct (attempt_outcome (http_Do w url 2)).
Qed.

Lemma requestAPI_events (w : world) (url : gostring) :
  Forall (fetch_event url requestAPI_maxRetries) (snd (requestAPI w url)).
Proof.
  destruct (http_NewRequest w url) as [reqErr|] eqn:Hreq.
  - rewrite (requestAPI_bad_request _ _ _ Hreq). constructor.
  - rewrite (requestAPI_budget _ _ Hreq).
    destruct (attempt_outcome (http_Do w url 1));
      [|destruct (attempt_outcome (http_Do w url 2))];
      cbn [snd]; repeat constructor.
Qed.

Lemma FetchDoubanMediaInfo_unfold (w : world) (json : json_decoder)
  (subjectType subjectID : gostring) :
  FetchDoubanMediaInfo w json subjectType subjectID
  = match requestAPI w (apiRequestURL (apiKind subjectType) subjectID) with
    | (Err err, tr) => (Err err, tr)
    | (Ok jsonData, tr) =>
        match unmarshalSubject json subjectType jsonData with
        | Err err => (Err err, tr)
        | Ok doubanSubject => (Ok (projectSubject doubanSubject), tr)
        end
    end.
Proof.
  unfold FetchDoubanMediaInfo, apiRequestURL, apiKind, doubanAPIHost,
    doubanAPIToken.
  repeat case_decide; by rewrite <- ?app_assoc.
Qed.

(** X13: a category that is neither [book] nor [game] is fetched and decoded as
    a movie, whatever it is: [FetchDoubanMediaInfo] refuses no category. *)
Theorem FetchDoubanMediaInfo_defaults_to_movie (w : world)
  (json : json_decoder) (subjectType subjectID : gostring) :
  subjectType <> str "book" ->
  subjectType <> str "game" ->
  FetchDoubanMediaInfo w json subjectType subjectID
  = FetchDoubanMediaInfo w json (str "movie") subjectID.
Proof.
  intros Hbook Hgame. rewrite !FetchDoubanMediaInfo_unfold.
  unfold apiKind, unmarshalSubject.
  destruct (decide (subjectType = str "book")); [done|].
  destruct (decide (subjectType = str "game")); [done|].
  destruct (decide (str "movie" = str "book")) as [Heq|_];
    [vm_compute in Heq; discriminate|].
  destruct (decide (str "movie" = str "game")) as [Heq|_];
    [vm_compute in Heq; discriminate|].
  reflexivity.
Qed.

(** The category [podcast], which [ParseDoubanURL] does not know, yields
    the sample movie. *)
Lemma FetchDoubanMediaInfo_defaults_to_movie_witness :
  ParseDoubanURL samplePageURL (str "podcast")
  = Err (str "unknown subject type") /\
  fst (FetchDoubanMediaInfo (catalogueWorld imageServed) sampleDecoder
         (str "podcast") (str "1292052"))
  = Ok (projectSubject (MovieSubject sampleMovieSubject)).
Proof.
  split; [vm_compute; reflexivity|].
  rewrite (FetchDoubanMediaInfo_defaults_to_movie
             (catalogueWorld imageServed) sampleDecoder (str "podcast")
             (str "1292052")).
  - vm_compute; reflexivity.
  - vm_compute; congruence.
  - vm_compute; congruence.
Defined.

(** X14: [FetchDoubanMediaInfo] talks to one address only, the one of the kind
    and identifier on the API host, at most twice, and pauses two seconds
    after a failed attempt; an error of the request is returned as it is,
    whatever the decoder; and a body that does not decode costs no further
    request. *)
Theorem FetchDoubanMediaInfo_requests (w : world) (json : json_decoder)
  (subjectType subjectID : gostring) :
  let url := apiRequestURL (apiKind subjectType) subjectID in
  let out := FetchDoubanMediaInfo w json subjectType subjectID in
  snd out = snd (requestAPI w url) /\
  Forall (fetch_event url 2) (snd out) /\
  (forall err, fst (requestAPI w url) = Err err -> fst out = Err err) /\
  (forall jsonData,
     fst (requestAPI w url) = Ok jsonData ->
     fst out
     = match unmarshalSubject json subjectType jsonData with
       | Ok subject => Ok (projectSubject subject)
       | Err err => Err err
       end).
Proof.
  intros url out. subst out. rewrite FetchDoubanMediaInfo_unfold. fold url.
  pose proof (requestAPI_events w url) as Hev.
  destruct (requestAPI w url) as [[jsonData|err] tr]; cbn [fst snd] in *.
  - split; [by destruct (unmarshalSubject _ _ _)|].
    split; [by destruct (unmarshalSubject _ _ _)|].
    split; [done|]. intros ? [= <-].
    by destruct (unmarshalSubject _ _ _).
  - repeat split; try done. by intros ? [= <-].
Qed.

(** ** The outcomes of the subprocess consumer *)

Lemma index_of_split (s sub : gostring) (i : nat) :
  index_of s sub = Some i ->
  exists post, s = take i s ++ sub ++ post /\ length (take i s) = i.
Proof.
  intros Hi. apply index_of_Some in Hi as [Hs Hmin].
  exists (drop (i + length sub) s). split; [exact Hs|].
  specialize (Hmin _ _ Hs). rewrite length_take in Hmin |- *.
  apply Nat.min_l. exact (Nat.le_trans _ _ _ Hmin (Nat.le_min_r _ _)).
Qed.

Lemma slice_Some (s : gostring) (lo hi : Z) (t : gostring) :
  slice s lo hi = Some t ->
  0 <= lo <= hi /\ hi <= Z.of_nat (length s) /\
  t = drop (Z.to_nat lo) (take (Z.to_nat hi) s).
Proof.
  unfold slice.
  destruct ((0 <=? lo) && (lo <=? hi) && (hi <=? Z.of_nat (length s)))
    eqn:Hb; [|done].
  rewrite !andb_true_iff, !Z.leb_le in Hb. intros [= <-].
  split; [lia|]. split; [lia|].
  rewrite take_drop_commute. f_equal. f_equal. lia.
Qed.

Lemma slice_None (s : gostring) (lo hi : Z) :
  slice s lo hi = None <-> ~ (0 <= lo <= hi /\ hi <= Z.of_nat (length s)).
Proof.
  unfold slice.
  destruct ((0 <=? lo) && (lo <=? hi) && (hi <=? Z.of_nat (length s)))
    eqn:Hb.
  - rewrite !andb_true_iff, !Z.leb_le in Hb. split; [done | lia].
  - rewrite !andb_false_iff, !Z.leb_gt in Hb. split; [lia | done].
Qed.

Section JavOutcomes.
Variable json_Unmarshal : gostring -> result (gmap gostring json_value).

(** X15: [fetchJavInfoFromPython] on every result of the script.  A failed run
    is reported with the output, whatever the output holds.  After a run
    that succeeded, an output without one of the markers is reported as
    such; the call panics exactly when both markers occur and the first
    closing one starts before the end of the first opening one; and a
    record is returned only for an output that holds the opening marker,
    a text, and the closing marker, in this order, the text decoding,
    once trimmed, to the object the record is read from. *)
Theorem fetchJav_outcomes (run : exec_result) :
  let out := fetchJavInfoFromPython json_Unmarshal run in
  let output := exec_output run in
  (forall err, exec_err run = Some err ->
     out = Returns (Err (str "Python 脚本执行失败: " ++ err ++ [newline]
                         ++ output))) /\
  (exec_err run = None ->
   (~ occurs startMarker output \/ ~ occurs endMarker output ->
    out = Returns (Err (str "未找到有效的 JSON 输出" ++ [newline]
                        ++ output))) /\
   ((exists msg, out = Panics msg) <->
    occurs startMarker output /\ occurs endMarker output /\
    Index output endMarker
    < Index output startMarker + Z.of_nat (length startMarker)) /\
   (forall movie, out = Returns (Ok movie) ->
      exists pre mid post decoded,
        output = pre ++ startMarker ++ mid ++ endMarker ++ post /\
        json_Unmarshal (TrimSpace mid) = Ok decoded /\
        movie = javMovieOf decoded)).
Proof.
  intros out output. subst out. unfold fetchJavInfoFromPython.
  fold output. split.
  { intros err ->. reflexivity. }
  intros ->. unfold Index.
  destruct (index_of output startMarker) as [i|] eqn:Hi.
  2:{ apply index_of_absent in Hi. cbn [Z.eqb orb].
      split; [done|]. split.
      - split; [by intros [msg Hmsg] | by intros [Hocc _]].
      - intros movie Hm. discriminate. }
  destruct (index_of output endMarker) as [j|] eqn:Hj.
  2:{ apply index_of_absent in Hj.
      replace (Z.of_nat i =? -1) with false by (symmetry; apply Z.eqb_neq; lia).
      cbn [Z.eqb orb].
      split; [done|]. split.
      - split; [by intros [msg Hmsg] | by intros (_ & Hocc & _)].
      - intros movie Hm. discriminate. }
  assert (occurs startMarker output) as Hs
    by (apply index_of_Some in Hi as [Hs _]; red; eauto).
  assert (occurs endMarker output) as He
    by (apply index_of_Some in Hj as [He _]; red; eauto).
  replace (Z.of_nat i =? -1) with false by (symmetry; apply Z.eqb_neq; lia).
  replace (Z.of_nat j =? -1) with false by (symmetry; apply Z.eqb_neq; lia).
  cbn [orb].
  destruct (index_of_split _ _ _ Hi) as (post0 & Hout0 & Hleni).
  destruct (index_of_split _ _ _ Hj) as (post1 & Hout1 & Hlenj).
  assert (j + length endMarker <= length output)%nat as Hjlen.
  { pose proof (f_equal length Hout1) as Hl.
    rewrite !length_app in Hl. lia. }
  split.
  { intros [Hno|Hno]; by destruct Hno. }
  destruct (slice output (Z.of_nat i + Z.of_nat (length startMarker))
              (Z.of_nat j)) as [jsonStr|] eqn:Hslice.
  - apply slice_Some in Hslice as (Hlo & Hhi & ->). split.
    + split.
      * intros [msg Hmsg].
        by destruct (json_Unmarshal _) in Hmsg.
      * intros (_ & _ & Hlt). lia.
    + intros movie Hm.
      replace (Z.to_nat (Z.of_nat i + Z.of_nat (length startMarker)))
        with (i + length startMarker)%nat in Hm by lia.
      rewrite Nat2Z.id in Hm.
      set (mid := drop (i + length startMarker) (take j output)) in *.
      destruct (json_Unmarshal (TrimSpace mid)) as [decoded|err] eqn:Hd;
        [|discriminate].
      exists (take i output), mid, post1, decoded.
      split; [|split; [done | by injection Hm as <-]].
      assert (take (i + length startMarker) (take j output)
              = take i output ++ startMarker) as Hhead.
      { rewrite take_take, Nat.min_l by lia.
        rewrite Hout0 at 1. rewrite app_assoc.
        rewrite take_app_length'; [done|].
        rewrite length_app. lia. }
      rewrite Hout1 at 1.
      rewrite <- (take_drop (i + length startMarker) (take j output)).
      rewrite Hhead. fold mid. by rewrite <- !app_assoc.
  - apply slice_None in Hslice. split.
    + split; [|by eauto].
      intros _. split; [done|]. split; [done|]. lia.
    + intros movie Hm. discriminate.
Qed.

End JavOutcomes.

(** ** The second asset download *)

Section DownloadJavFacts.
Variable join : gostring -> gostring -> gostring.
Variable w : world.
Variables imageURL filename imageDir : gostring.
Variable fs : files.

Lemma downloadJavImage_loop_post (n attempt : nat) (tr : list io_event) :
  (1 <= attempt)%nat ->
  (attempt + n = S download_maxRetries)%nat ->
  jav_download_post join w imageURL filename imageDir fs
    (downloadJavImage_loop join w imageURL filename imageDir n attempt fs
       tr).
Proof.
  revert attempt tr. induction n as [|n IH]; intros attempt tr H1 Hn.
  - by left.
  - assert (forall tr',
              jav_download_post join w imageURL filename imageDir fs
                (downloadJavImage_loop join w imageURL filename imageDir n
                   (S attempt) fs tr')) as Hnext
      by (intros tr'; apply IH; lia).
    cbn [downloadJavImage_loop].
    destruct (http_NewRequest w imageURL) as [err|].
    { destruct (attempt =? download_maxRetries)%nat; [by left | apply Hnext]. }
    destruct (http_Do w imageURL attempt) as [err|resp] eqn:Hdo.
    { destruct (attempt =? download_maxRetries)%nat; [by left | apply Hnext]. }
    destruct (StatusCode resp =? StatusOK) eqn:Hst; cbn [negb].
    2:{ destruct (attempt =? download_maxRetries)%nat;
          [by left | apply Hnext]. }
    apply Z.eqb_eq in Hst. unfold os_Create.
    destruct (os_Create_err w _) as [err|]; [by left|].
    pose proof (store_post w fs resp
                  (join imageDir
                     (filename ++ javImageExt (ContentType resp))))
      as Hstore.
    destruct (io_Copy w _ (Body resp) _) as [fs2 [err|]].
    + right. exists resp. exact Hstore.
    + destruct Hstore as (body & Hbody & ->).
      exists attempt, resp, body. repeat split; try done; lia.
Qed.


Lemma downloadJavImage_loop_agrees (n attempt : nat) (tr : list io_event) :
  (forall k resp,
     http_Do w imageURL k = DoReturns resp ->
     StatusCode resp = StatusOK ->
     javImageExt (ContentType resp) = imageExt (ContentType resp)) ->
  (1 <= n)%nat ->
  (attempt + n = S download_maxRetries)%nat ->
  downloadJavImage_loop join w imageURL filename imageDir n attempt fs tr
  = downloadImage_loop join w imageURL filename imageDir n attempt fs tr.
Proof.
  intros Hext. revert attempt tr.
  induction n as [|n IH]; intros attempt tr H1 Hn; [lia|].
  assert (n = O /\ (attempt =? download_maxRetries)%nat = true \/
          (1 <= n)%nat /\ (attempt =? download_maxRetries)%nat = false)
    as Hcase.
  { destruct n; [left | right]; split; try lia.
    - apply Nat.eqb_eq. lia.
    - apply Nat.eqb_neq. lia. }
  cbn [downloadJavImage_loop downloadImage_loop].
  destruct (http_NewRequest w imageURL) as [err|].
  { destruct Hcase as [[_ ->]|[Hn1 ->]]; [done | apply IH; lia]. }
  destruct (http_Do w imageURL attempt) as [err|resp] eqn:Hdo.
  { destruct Hcase as [[_ ->]|[Hn1 ->]]; [done | apply IH; lia]. }
  destruct (StatusCode resp =? StatusOK) eqn:Hst; cbn [negb].
  2:{ destruct Hcase as [[_ ->]|[Hn1 ->]]; [done | apply IH; lia]. }
  apply Z.eqb_eq in Hst. by rewrite (Hext _ _ Hdo Hst).
Qed.

(** X17: the two download functions, given the same answers of the server and
    of the disk: when no 200 response has a content type that the two map
    to different extensions, they return the same result, leave the same
    files and make the same requests and pauses. *)
Theorem downloadJavImage_agrees_with_downloadImage :
  (forall k resp,
     http_Do w imageURL k = DoReturns resp ->
     StatusCode resp = StatusOK ->
     javImageExt (ContentType resp) = imageExt (ContentType resp)) ->
  downloadJavImage join w imageURL filename imageDir fs
  = downloadImage join w imageURL filename imageDir fs.
Proof.
  intros Hext. unfold downloadJavImage, downloadImage.
  case_decide; [done|].
  apply downloadJavImage_loop_agrees; unfold download_maxRetries;
    [done | lia | lia].
Qed.

End DownloadJavFacts.

Section DownloadBudget.
Variable join : gostring -> gostring -> gostring.
Variable w : world.
Variables imageURL subjectID imageDir : gostring.
Variable fs : files.

(** X18: [downloadImage] stops at its first 200 response, whatever becomes of
    it: when the request can be built and the [k]-th attempt is the first
    one with status 200, the call makes [k] requests with a pause of two
    seconds between them and none after, and its result and files are
    those of saving that response; when none of the three attempts gets
    status 200, the files are untouched. *)
Theorem downloadImage_stops_at_first_200 (k : nat) (resp : response) :
  imageURL <> [] ->
  http_NewRequest w imageURL = None ->
  (1 <= k <= download_maxRetries)%nat ->
  (forall j, (1 <= j < k)%nat ->
             answered200 (http_Do w imageURL j) = false) ->
  http_Do w imageURL k = DoReturns resp ->
  StatusCode resp = StatusOK ->
  let r := downloadImage join w imageURL subjectID imageDir fs in
  let localPath :=
    join imageDir (subjectID ++ imageExt (ContentType resp)) in
  dl_trace r = attempts_until imageURL 1 k /\
  (dl_result r, dl_files r)
  = match os_Create w localPath fs with
    | Err err => (Err (str "failed to create file: " ++ err), fs)
    | Ok fs1 =>
        match io_Copy w localPath (Body resp) fs1 with
        | (fs2, Some err) =>
            (Err (str "failed to save image: " ++ err),
             os_Remove w localPath fs2)
        | (fs2, None) => (Ok localPath, fs2)
        end
    end.
Proof.
  intros Hurl Hreq Hk Hbefore Hdo Hst r localPath. subst r localPath.
  unfold downloadImage. rewrite decide_False by done.
  unfold download_maxRetries in *.
  assert (forall j, (1 <= j < k)%nat ->
            match http_Do w imageURL j with
            | DoFails _ => True
            | DoReturns r => (StatusCode r =? StatusOK) = false
            end) as Hfail.
  { intros j Hj. specialize (Hbefore j Hj).
    by destruct (http_Do w imageURL j). }
  apply Z.eqb_eq in Hst.
  assert (k = 1 \/ k = 2 \/ k = 3)%nat as [-> | [-> | ->]] by lia.
  - cbn [downloadImage_loop attempts_until]. rewrite Hreq, Hdo, Hst.
    cbn [negb app]. destruct (os_Create w _ fs) as [fs1|err]; [|done].
    by destruct (io_Copy w _ (Body resp) fs1) as [fs2 [err|]].
  - pose proof (Hfail 1%nat ltac:(lia)) as H1.
    cbn [downloadImage_loop attempts_until]. rewrite Hreq, Hdo, Hst.
    destruct (http_Do w imageURL 1) as [e1|r1]; [|rewrite H1];
      cbn [negb app Nat.eqb];
      (destruct (os_Create w _ fs) as [fs1|err]; [|done]);
      by destruct (io_Copy w _ (Body resp) fs1) as [fs2 [err|]].
  - pose proof (Hfail 1%nat ltac:(lia)) as H1.
    pose proof (Hfail 2%nat ltac:(lia)) as H2.
    cbn [downloadImage_loop attempts_until]. rewrite Hreq, Hdo, Hst.
    destruct (http_Do w imageURL 1) as [e1|r1]; [|rewrite H1];
      (destruct (http_Do w imageURL 2) as [e2|r2]; [|rewrite H2]);
      cbn [negb app Nat.eqb];
      (destruct (os_Create w _ fs) as [fs1|err]; [|done]);
      by destruct (io_Copy w _ (Body resp) fs1) as [fs2 [err|]].
Qed.

End DownloadBudget.

(** Every answer is a PNG image: the poster is stored as the cover would
    be. *)
Lemma downloadJavImage_agrees_with_downloadImage_witness :
  downloadJavImage joinPath diskFull sampleImageURL (str "SSIS-001_poster")
    (str "images") ∅
  = downloadImage joinPath diskFull sampleImageURL (str "SSIS-001_poster")
      (str "images") ∅.
Proof.
  apply (downloadJavImage_agrees_with_downloadImage joinPath diskFull
           sampleImageURL (str "SSIS-001_poster") (str "images") ∅).
  intros k resp [= <-] _. vm_compute. reflexivity.
Defined.

(** Two refusals and then an image: three requests, two pauses, and the
    image on the disk. *)
Lemma downloadImage_stops_at_first_200_witness :
  let r := downloadImage joinPath thirdTimeLucky sampleImageURL (str "42")
             (str "images") ∅ in
  dl_trace r = [EvDo sampleImageURL 1; EvSleep 2; EvDo sampleImageURL 2;
                EvSleep 2; EvDo sampleImageURL 3] /\
  dl_result r = Ok (str "images/42.webp") /\
  dl_files r !! str "images/42.webp" = Some (str "RIFFWEBP").
Proof.
  intros r.
  destruct (downloadImage_stops_at_first_200 joinPath thirdTimeLucky
              sampleImageURL (str "42") (str "images") ∅ 3%nat
              (response200 (str "image/webp") (ReadAll (str "RIFFWEBP"))))
    as [Htrace Hres].
  - vm_compute; congruence.
  - reflexivity.
  - unfold download_maxRetries; lia.
  - intros j Hj. assert (j = 1 \/ j = 2)%nat as [-> | ->] by lia;
      reflexivity.
  - reflexivity.
  - reflexivity.
  - split; [exact Htrace|]. split; vm_compute; reflexivity.
Defined.

(** ** The category read off the link *)

Lemma mismatch_HasPrefix (s sub rest : gostring) :
  mismatch_in s sub = true -> HasPrefix (s ++ rest) sub = false.
Proof.
  revert s. induction sub as [|p sub IH]; intros [|c s]; cbn; try done.
  destruct (bool_decide (c = p)); cbn; [apply IH | done].
Qed.

Lemma index_of_clear (pre rest sub : gostring) :
  clear_of pre sub = true ->
  index_of (pre ++ rest) sub = Nat.add (length pre) <$> index_of rest sub.
Proof.
  induction pre as [|c pre IH]; intros Hclear.
  - cbn [app length]. by destruct (index_of rest sub).
  - cbn [clear_of] in Hclear. apply andb_true_iff in Hclear as [Hm Hc].
    cbn [app index_of length].
    change (c :: pre ++ rest) with ((c :: pre) ++ rest).
    rewrite (mismatch_HasPrefix _ _ _ Hm), (IH Hc).
    by destruct (index_of rest sub).
Qed.

Lemma Contains_clear (pre rest sub : gostring) :
  clear_of pre sub = true ->
  Contains (pre ++ rest) sub = Contains rest sub.
Proof.
  intros Hclear. unfold Contains, Index.
  rewrite (index_of_clear _ _ _ Hclear).
  destruct (index_of rest sub); cbn [fmap option_fmap option_map]; [|done].
  apply eq_true_iff_eq. rewrite !Z.leb_le. lia.
Qed.

Lemma index_of_digits (id slash sub : gostring) (c : ascii) :
  Forall (fun d => is_digit d = true) id ->
  slash ∈ [[]; str "/"] ->
  is_digit c = false -> c <> "/"%char ->
  index_of (id ++ slash) (c :: sub) = None.
Proof.
  intros Hid Hslash Hc Hne. induction Hid as [|d id Hd _ IH].
  - apply elem_of_cons in Hslash as [->|Hslash]; [done|].
    apply list_elem_of_singleton in Hslash as ->.
    cbn. rewrite bool_decide_eq_false_2; [done|].
    intros Heq. by destruct Hne.
  - cbn [app index_of HasPrefix]. rewrite IH.
    rewrite bool_decide_eq_false_2; [done|]. intros ->. congruence.
Qed.

Lemma Contains_digits (id slash sub : gostring) (c : ascii) :
  Forall (fun d => is_digit d = true) id ->
  slash ∈ [[]; str "/"] ->
  is_digit c = false -> c <> "/"%char ->
  Contains (id ++ slash) (c :: sub) = false.
Proof.
  intros. unfold Contains, Index. by rewrite (index_of_digits id slash sub c).
Qed.

Lemma detectSubjectType_douban_url (url host seg id slash : gostring) :
  douban_url url host seg id slash ->
  detectSubjectType url
  = if decide (host = str "book.douban.com") then str "book"
    else if decide (host = str "www.douban.com" /\ seg = str "game")
         then str "game"
    else str "movie".
Proof.
  intros (-> & Hhost & Hseg & _ & Hid & Hslash).
  unfold detectSubjectType, doubanHosts in *.
  assert (forall pre sub c,
            clear_of pre (c :: sub) = true ->
            is_digit c = false -> c <> "/"%char ->
            Contains (pre ++ id ++ slash) (c :: sub) = false) as Hclear.
  { intros pre sub c Hp Hc Hne.
    rewrite (Contains_clear _ _ _ Hp). by apply Contains_digits. }
  repeat (apply elem_of_cons in Hhost as [->|Hhost]);
    [| | |by apply elem_of_nil in Hhost];
    (repeat (apply elem_of_cons in Hseg as [->|Hseg]);
       [| |by apply elem_of_nil in Hseg]).
  - (* www, game *)
    rewrite decide_False by (intros Heq; vm_compute in Heq; discriminate).
    rewrite decide_True by done.
    change (str "https://" ++ str "www.douban.com" ++ str "/" ++ str "game"
            ++ str "/" ++ id ++ slash)
      with (str "https://www.douban.com/game/" ++ id ++ slash).
    rewrite (Hclear _ (str "ook.douban.com") "b"%char) by done.
    replace (Contains _ (str "www.douban.com/game/")) with true; [done|].
    symmetry. apply Contains_true.
    by exists (str "https://"), (id ++ slash).
  - (* www, subject *)
    rewrite decide_False by (intros Heq; vm_compute in Heq; discriminate).
    rewrite decide_False
      by (intros [_ Heq]; vm_compute in Heq; discriminate).
    change (str "https://" ++ str "www.douban.com" ++ str "/"
            ++ str "subject" ++ str "/" ++ id ++ slash)
      with (str "https://www.douban.com/subject/" ++ id ++ slash).
    rewrite (Hclear _ (str "ook.douban.com") "b"%char) by done.
    by rewrite (Hclear _ (str "ww.douban.com/game/") "w"%char).
  - rewrite decide_True by done.
    replace (Contains _ (str "book.douban.com")) with true; [done|].
    symmetry. apply Contains_true.
    by exists (str "https://"), (str "/game/" ++ id ++ slash).
  - rewrite decide_True by done.
    replace (Contains _ (str "book.douban.com")) with true; [done|].
    symmetry. apply Contains_true.
    by exists (str "https://"), (str "/subject/" ++ id ++ slash).
  - rewrite decide_False by (intros Heq; vm_compute in Heq; discriminate).
    rewrite decide_False
      by (intros [Heq _]; vm_compute in Heq; discriminate).
    change (str "https://" ++ str "movie.douban.com" ++ str "/" ++ str "game"
            ++ str "/" ++ id ++ slash)
      with (str "https://movie.douban.com/game/" ++ id ++ slash).
    rewrite (Hclear _ (str "ook.douban.com") "b"%char) by done.
    by rewrite (Hclear _ (str "ww.douban.com/game/") "w"%char).
  - rewrite decide_False by (intros Heq; vm_compute in Heq; discriminate).
    rewrite decide_False
      by (intros [Heq _]; vm_compute in Heq; discriminate).
    change (str "https://" ++ str "movie.douban.com" ++ str "/"
            ++ str "subject" ++ str "/" ++ id ++ slash)
      with (str "https://movie.douban.com/subject/" ++ id ++ slash).
    rewrite (Hclear _ (str "ook.douban.com") "b"%char) by done.
    by rewrite (Hclear _ (str "ww.douban.com/game/") "w"%char).
Qed.

(** X19: the link resolution of [addMovieHandler], which reads the category off
    the link and hands both to [ParseDoubanURL]: a link resolves to an
    identifier exactly when it is of the pattern and is not a subject page
    of the host [www.douban.com]; such a page is refused with the host
    error of the movie category, and a link on the movie or book host
    resolves also with the [/game/] form of the path. *)
Theorem link_resolution (url : gostring) :
  (forall id,
     ParseDoubanURL url (detectSubjectType url) = Ok id
     <-> resolvable_link url id) /\
  (forall id slash,
     douban_url url (str "www.douban.com") (str "subject") id slash ->
     ParseDoubanURL url (detectSubjectType url)
     = Err (str "invalid host for subject type movie. "
            ++ str "supported hosts: movie.douban.com")) /\
  (forall host id slash,
     douban_url url host (str "game") id slash ->
     ParseDoubanURL url (detectSubjectType url) = Ok id).
Proof.
  assert (forall host seg id slash,
            douban_url url host seg id slash ->
            ParseDoubanURL url (detectSubjectType url)
            = if decide (host = str "www.douban.com" /\ seg = str "subject")
              then Err (str "invalid host for subject type movie. "
                        ++ str "supported hosts: movie.douban.com")
              else Ok id) as Hres.
  { intros host seg id slash Hu.
    rewrite (ParseDoubanURL_matched _ _ _ _ _ _ Hu).
    rewrite (detectSubjectType_douban_url _ _ _ _ _ Hu).
    destruct Hu as (_ & Hhost & Hseg & _). unfold doubanHosts in *.
    repeat (apply elem_of_cons in Hhost as [->|Hhost]);
      [| | |by apply elem_of_nil in Hhost];
      (repeat (apply elem_of_cons in Hseg as [->|Hseg]);
         [| |by apply elem_of_nil in Hseg]);
      vm_compute; reflexivity. }
  split; [|split].
  - intros id. split.
    + intros Hok.
      destruct (search doubanURLPattern url) as [m|] eqn:Hs.
      * apply doubanURLPattern_inv in Hs
          as (host & seg & id' & slash & Hu & _).
        rewrite (Hres _ _ _ _ Hu) in Hok.
        case_decide as Hwww; [discriminate|]. injection Hok as <-.
        by exists host, seg, slash.
      * by rewrite (ParseDoubanURL_nomatch _ _ Hs) in Hok.
    + intros (host & seg & slash & Hu & Hnot).
      rewrite (Hres _ _ _ _ Hu). by rewrite decide_False.
  - intros id slash Hu. rewrite (Hres _ _ _ _ Hu). by rewrite decide_True.
  - intros host id slash Hu. rewrite (Hres _ _ _ _ Hu).
    rewrite decide_False; [done|].
    intros [_ Heq]. vm_compute in Heq. discriminate.
Qed.

(** ** What the rating patterns can capture *)

Section MatcherSoundness.
Context {A : Type}.
Variable total : nat.

Lemma star_iter_sound
  (step : gostring -> gmap nat gostring ->
          (gostring -> gmap nat gostring -> option A) -> option A)
  (P : gostring -> Prop) (keeps : Prop) :
  (forall s caps k a,
     step s caps k = Some a ->
     exists m s' caps',
       s = m ++ s' /\ P m /\ k s' caps' = Some a /\
       (keeps -> caps' = caps)) ->
  forall fuel s caps k (a : A),
    star_iter step k fuel s caps = Some a ->
    exists ms s' caps',
      s = concat ms ++ s' /\ Forall P ms /\ k s' caps' = Some a /\
      (keeps -> caps' = caps).
Proof.
  intros Hstep. induction fuel as [|fuel IH]; intros s caps k a;
    cbn [star_iter].
  - intros Hk. by exists [], s, caps.
  - destruct (step s caps _) as [a'|] eqn:Hs.
    + intros [= ->]. apply Hstep in Hs
        as (m & s1 & caps1 & -> & Hm & Hcont & Hcaps1).
      destruct (length s1 <? length (m ++ s1))%nat in Hcont; [|done].
      apply IH in Hcont as (ms & s' & caps' & -> & Hms & Hk & Hcaps').
      exists (m :: ms), s', caps'. cbn [concat].
      rewrite <- app_assoc. repeat split; try done.
      * by constructor.
      * intros Hkeep. by rewrite Hcaps', Hcaps1.
    + intros Hk. by exists [], s, caps.
Qed.

(** The matcher is sound: what it consumes before it calls its
    continuation is a text of the pattern, and a pattern without a group
    hands the captures on as they were. *)
Lemma run_sound (r : regexp) :
  forall s caps (k : gostring -> gmap nat gostring -> option A) a,
    run total r s caps k = Some a ->
    exists m s' caps',
      s = m ++ s' /\ lang r m /\ k s' caps' = Some a /\
      (groupfree r = true -> caps' = caps).
Proof.
  induction r as [|c|p|r1 IH1 r2 IH2|r1 IH1 r2 IH2|r0 IH0|i r0 IH0| |];
    intros s caps k a; cbn [run lang groupfree].
  - intros Hk. by exists [], s, caps.
  - destruct s as [|x s]; [done|].
    destruct (decide (x = c)) as [->|]; [|done].
    intros Hk. by exists [c], s, caps.
  - destruct s as [|x s]; [done|]. destruct (p x) eqn:Hx; [|done].
    intros Hk. exists [x], s, caps. repeat split; eauto.
  - intros H1. apply IH1 in H1 as (m1 & s1 & caps1 & -> & Hm1 & H2 & Hc1).
    apply IH2 in H2 as (m2 & s2 & caps2 & -> & Hm2 & Hk & Hc2).
    exists (m1 ++ m2), s2, caps2. rewrite <- app_assoc.
    repeat split; eauto.
    intros [Hg1 Hg2]%andb_true_iff. by rewrite Hc2, Hc1.
  - destruct (run total r1 s caps k) as [a'|] eqn:H1.
    + intros [= ->]. apply IH1 in H1 as (m & s' & caps' & -> & Hm & Hk & Hc).
      exists m, s', caps'. repeat split; eauto.
      intros [Hg1 Hg2]%andb_true_iff. eauto.
    + intros H2. apply IH2 in H2 as (m & s' & caps' & -> & Hm & Hk & Hc).
      exists m, s', caps'. repeat split; eauto.
      intros [Hg1 Hg2]%andb_true_iff. eauto.
  - intros Hstar.
    apply (star_iter_sound (run total r0) (lang r0) (groupfree r0 = true))
      in Hstar as (ms & s' & caps' & -> & Hms & Hk & Hc); [|exact IH0].
    exists (concat ms), s', caps'. repeat split; eauto.
  - intros H0. apply IH0 in H0 as (m & s' & caps' & -> & Hm & Hk & _).
    exists m, s', (<[i := take (length (m ++ s') - length s') (m ++ s')]>
                     caps').
    repeat split; try done.
  - destruct (length s =? total)%nat; [|done].
    intros Hk. by exists [], s, caps.
  - destruct s; [|done]. intros Hk. by exists [], [], caps.
Qed.

(** A pattern without groups before the rest of a sequence. *)
Lemma run_seq_groupfree (p r : regexp) s caps
  (k : gostring -> gmap nat gostring -> option A) a :
  groupfree p = true ->
  run total (Seq p r) s caps k = Some a ->
  exists m s', s = m ++ s' /\ run total r s' caps k = Some a.
Proof.
  intros Hg Hrun. cbn [run] in Hrun.
  apply run_sound in Hrun as (m & s' & caps' & -> & _ & Hr & Hc).
  rewrite (Hc Hg) in Hr. eauto.
Qed.

Lemma lang_star_class (p : ascii -> bool) (m : gostring) :
  lang (Star (Class p)) m -> Forall (fun c => p c = true) m.
Proof.
  intros (ms & -> & Hms). induction Hms as [|x ms (c & -> & Hc) _ IH].
  - constructor.
  - cbn [concat app]. by constructor.
Qed.

Lemma HasPrefix_split (s w : gostring) :
  HasPrefix s w = true -> s = w ++ drop (length w) s.
Proof.
  intros Hp. apply HasPrefix_true in Hp as [post ->].
  by rewrite drop_app_length.
Qed.

Lemma run_seq_group (i : nat) (r0 r : regexp) s caps
  (k : gostring -> gmap nat gostring -> option A) :
  run total (Seq (Group i r0) r) s caps k
  = run total r0 s caps
      (fun s' caps' =>
         run total r s' (<[i := take (length s - length s') s]> caps') k).
Proof. reflexivity. Qed.

(** The end of each rating pattern captures a numeral that stands between
    [>] and [</strong>]. *)
Lemma ratingTail_inv (r : regexp) s caps
  (k : gostring -> gmap nat gostring -> option A) a :
  run total (Seq ratingTail r) s caps k = Some a ->
  exists num rest,
    s = str ">" ++ num ++ str "</strong>" ++ rest /\ numeral num /\
    run total r rest (<[1%nat := num]> caps) k = Some a.
Proof.
  unfold ratingTail. cbn [Concat]. rewrite !run_seq_assoc.
  intros Hrun. apply run_seq_char_inv in Hrun as (s1 & -> & Hrun).
  rewrite run_seq_assoc, run_seq_group in Hrun.
  apply run_sound in Hrun as (m & s2 & caps2 & -> & Hm & Hrun & Hc).
  rewrite (Hc eq_refl) in Hrun.
  rewrite length_app, Nat.add_sub, take_app_length in Hrun.
  rewrite run_seq_assoc in Hrun.
  apply run_seq_lit_inv in Hrun as (rest & -> & Hrun).
  exists m, rest. split; [done|]. split; [|exact Hrun].
  destruct Hm as (m1 & m23 & -> & Hplus & m2 & m3' & -> & Hdot & Hrest).
  destruct Hplus as (d & ds & -> & (x & -> & Hx) & Hds).
  apply lang_star_class in Hds.
  destruct Hrest as (m3 & e & -> & Hfrac & ->).
  apply lang_star_class in Hfrac. rewrite app_nil_r.
  exists ([x] ++ ds), m2, m3. repeat split.
  - done.
  - by constructor.
  - destruct Hdot as [-> | ->]; in_list.
  - done.
Qed.

End MatcherSoundness.

Lemma search_from_inv (r : regexp) (total : nat) (s : gostring) m :
  search_from r total s = Some m ->
  exists pre s0,
    s = pre ++ s0 /\
    run total r s0 ∅ (fun s' caps => Some (consumed s0 s', caps)) = Some m.
Proof.
  induction s as [|c s IH]; cbn [search_from].
  - destruct (run total r [] ∅ _) as [m'|] eqn:Hrun; [|done].
    intros [= ->]. by exists [], [].
  - destruct (run total r (c :: s) ∅ _) as [m'|] eqn:Hrun.
    + intros [= ->]. by exists [], (c :: s).
    + intros Hs. apply IH in Hs as (pre & s0 & -> & Hrun0).
      by exists (c :: pre), s0.
Qed.

Lemma occurs_within (sub s pre post : gostring) :
  occurs sub s -> occurs sub (pre ++ s ++ post).
Proof.
  intros (p & q & ->). exists (pre ++ p), (q ++ post).
  by rewrite <- !app_assoc.
Qed.

(** Each of the three patterns, when it matches, captures a numeral that
    stands in the page between [>] and [</strong>]. *)
Lemma ratingPatterns_capture (re : regexp) (html whole : gostring)
  (caps : gmap nat gostring) :
  re ∈ ratingPatterns ->
  search re html = Some (whole, caps) ->
  exists num, numeral num /\ rated_in html num /\ caps !! 1%nat = Some num.
Proof.
  intros Hre Hs. unfold search in Hs.
  apply search_from_inv in Hs as (pre & s0 & -> & Hrun).
  assert (forall s,
            run (length (pre ++ s0)) (Seq ratingTail Eps) s ∅
              (fun s' caps => Some (consumed s0 s', caps))
            = Some (whole, caps) ->
            exists num, numeral num /\ occurs (str ">" ++ num
                                                ++ str "</strong>") s /\
                        caps !! 1%nat = Some num) as Htail.
  { intros s Ht.
    apply ratingTail_inv in Ht as (num & rest & -> & Hnum & Hk).
    cbn [run] in Hk. injection Hk as _ <-.
    exists num. split; [done|]. split; [|apply lookup_insert_eq].
    exists [], rest. cbn [app]. by rewrite <- !app_assoc. }
  assert (forall p r s a,
            groupfree p = true ->
            run (length (pre ++ s0)) (Seq p r) s ∅
              (fun s' caps => Some (consumed s0 s', caps)) = Some a ->
            exists m s', s = m ++ s' /\
              run (length (pre ++ s0)) r s' ∅
                (fun s' caps => Some (consumed s0 s', caps)) = Some a)
    as Hstep by (intros; by eapply run_seq_groupfree).
  assert (forall (P : gostring -> Prop) m s',
            (exists num, numeral num /\
               occurs (str ">" ++ num ++ str "</strong>") s' /\ P num) ->
            exists num, numeral num /\
               occurs (str ">" ++ num ++ str "</strong>") (m ++ s') /\
               P num) as Hgrow.
  { intros P m s' (num & Hnum & Hocc & HP). exists num.
    split; [done|]. split; [|done].
    rewrite <- (app_nil_r s'). by apply occurs_within. }
  unfold rated_in.
  apply (Hgrow (fun num => caps !! 1%nat = Some num) pre s0).
  unfold ratingPatterns in Hre.
  repeat (apply elem_of_cons in Hre as [->|Hre]);
    [| | |by apply elem_of_nil in Hre]; cbn [Concat] in Hrun;
    repeat (apply Hstep in Hrun as (? & ? & -> & Hrun); [|reflexivity];
            apply (Hgrow (fun num => caps !! 1%nat = Some num)));
    by apply Htail.
Qed.

(** X20: [extractRatingFromHTML] is the sentinel 0 or the number parsed from a
    decimal numeral that stands in the page between [>] and [</strong>]:
    no other text of the page is handed to the parser with effect, and a
    page without [</strong>] has the rating 0. *)
Theorem extractRatingFromHTML_sound
  (ParseFloat : gostring -> result float64) (html : gostring) :
  (extractRatingFromHTML ParseFloat html = 0%float \/
   exists num,
     numeral num /\ rated_in html num /\
     ParseFloat num = Ok (extractRatingFromHTML ParseFloat html)) /\
  (~ occurs (str "</strong>") html ->
   extractRatingFromHTML ParseFloat html = 0%float).
Proof.
  assert (forall patterns,
            (forall re, re ∈ patterns -> re ∈ ratingPatterns) ->
            extractRating_loop ParseFloat patterns html = 0%float \/
            exists num,
              numeral num /\ rated_in html num /\
              ParseFloat num
              = Ok (extractRating_loop ParseFloat patterns html)) as Hloop.
  { induction patterns as [|re rest IH]; intros Hin; [by left|].
    assert (forall re', re' ∈ rest -> re' ∈ ratingPatterns) as Hrest
      by (intros re' Hre'; apply Hin; by apply list_elem_of_further).
    cbn [extractRating_loop]. unfold FindStringSubmatch.
    destruct (search re html) as [[whole caps]|] eqn:Hs;
      [|exact (IH Hrest)].
    destruct (ratingPatterns_capture re html whole caps
                (Hin re (list_elem_of_here _ _)) Hs)
      as (num & Hnum & Hrated & Hcap).
    destruct (ngroups re) as [|n]; [exact (IH Hrest)|].
    cbn [seq map length Nat.ltb Nat.leb lookup list_lookup].
    rewrite Hcap. cbn [default from_option].
    unfold id.
    destruct (ParseFloat num) as [rating|e] eqn:Hp; [|exact (IH Hrest)].
    right. by exists num. }
  split.
  - unfold extractRatingFromHTML. by apply Hloop.
  - intros Hno.
    destruct (Hloop ratingPatterns ltac:(done))
      as [H0|(num & _ & Hrated & _)]; [exact H0|].
    destruct Hno. destruct Hrated as (pre & post & ->).
    exists (pre ++ str ">" ++ num), post. by rewrite <- !app_assoc.
Qed.

(** ** The timeline groups *)

Lemma nat_of_ascii_inj (x y : ascii) :
  nat_of_ascii x = nat_of_ascii y -> x = y.
Proof.
  intros H. rewrite <- (ascii_nat_embedding x), <- (ascii_nat_embedding y).
  by rewrite H.
Qed.

Lemma string_lt_asym (a b : gostring) :
  string_lt a b = true -> string_lt b a = false.
Proof.
  revert b. induction a as [|x a IH]; intros [|y b]; cbn [string_lt];
    try done.
  rewrite orb_true_iff, andb_true_iff, orb_false_iff, andb_false_iff.
  rewrite !Nat.ltb_lt, !Nat.eqb_eq, !Nat.ltb_ge, !Nat.eqb_neq.
  intros [Hlt|[Heq Hab]]; [split; [lia | left; lia]|].
  split; [lia|]. right. by apply IH.
Qed.

Lemma string_lt_trichotomy (a b : gostring) :
  string_lt a b = false -> string_lt b a = false -> a = b.
Proof.
  revert b. induction a as [|x a IH]; intros [|y b]; cbn [string_lt];
    try done.
  rewrite !orb_false_iff, !andb_false_iff.
  rewrite !Nat.ltb_ge, !Nat.eqb_neq.
  intros [H1 H2] [H3 H4].
  assert (nat_of_ascii x = nat_of_ascii y) as Heq by lia.
  rewrite (nat_of_ascii_inj _ _ Heq). f_equal. apply IH.
  - destruct H2 as [H2|H2]; [lia | done].
  - destruct H4 as [H4|H4]; [lia | done].
Qed.

Lemma string_lt_trans (a b c : gostring) :
  string_lt a b = true -> string_lt b c = true -> string_lt a c = true.
Proof.
  revert b c.
  induction a as [|x a IH]; intros [|y b] [|z c]; cbn [string_lt];
    try done.
  rewrite !orb_true_iff, !andb_true_iff, !Nat.ltb_lt, !Nat.eqb_eq.
  intros [H1|[H1 Hab]] [H2|[H2 Hbc]]; try (left; lia).
  right. split; [lia|]. by apply (IH b).
Qed.

#[local] Instance reverse_order_total : Total reverse_order.
Proof.
  intros a b. unfold reverse_order.
  destruct (string_lt a b) eqn:Hab; [right | by left].
  by apply string_lt_asym.
Qed.

#[local] Instance reverse_order_trans : Transitive reverse_order.
Proof.
  intros a b c Hab Hbc. unfold reverse_order in *.
  destruct (string_lt a c) eqn:Hac; [|done].
  destruct (string_lt b a) eqn:Hba.
  - pose proof (string_lt_trans _ _ _ Hba Hac). congruence.
  - rewrite (string_lt_trichotomy _ _ Hab Hba) in Hac. congruence.
Qed.

Lemma elem_of_sortReverse (x : gostring) (ks : list gostring) :
  x ∈ sortReverse ks <-> x ∈ ks.
Proof. unfold sortReverse. by rewrite merge_sort_Permutation. Qed.

Lemma StronglySorted_strict (ks : list gostring) :
  NoDup ks -> StronglySorted reverse_order ks ->
  StronglySorted (fun a b => string_lt b a = true) ks.
Proof.
  intros Hnd Hs. induction Hs as [|a ks Hs IH Hall]; [constructor|].
  apply NoDup_cons in Hnd as [Ha Hnd]. constructor; [by apply IH|].
  apply Forall_forall. intros b Hb.
  rewrite Forall_forall in Hall. specialize (Hall b Hb).
  destruct (string_lt b a) eqn:Hba; [done|].
  rewrite (string_lt_trichotomy _ _ Hall Hba) in Ha. by destruct Ha.
Qed.

(** The keys of a map, sorted: each key once, the greater ones first. *)
Lemma sortReverse_keys {V : Type} (m : gmap gostring V) :
  StronglySorted (fun a b => string_lt b a = true)
    (sortReverse (map_keys m)) /\
  forall k, k ∈ sortReverse (map_keys m) <-> is_Some (m !! k).
Proof.
  split.
  - apply StronglySorted_strict.
    + unfold sortReverse. rewrite merge_sort_Permutation.
      apply NoDup_fst_map_to_list.
    + apply StronglySorted_merge_sort; apply _.
  - intros k. rewrite elem_of_sortReverse. unfold map_keys.
    rewrite list_elem_of_fmap. split.
    + intros ([k' v] & -> & Hkv). apply elem_of_map_to_list in Hkv. eauto.
    + intros [v Hv]. exists (k, v). split; [done|].
      by apply elem_of_map_to_list.
Qed.

Section TimelineFacts.
Context {Item Group : Type}.
Variable WatchedAt : Item -> Time.
Variable mkGroup : gostring -> gostring -> list Item -> Group.
Variable time_Format : gostring -> Time -> gostring.

Abbreviation seen := (seen_in WatchedAt time_Format).
Abbreviation add := (groupMap_add WatchedAt time_Format).

Lemma seen_snoc (p : gostring * gostring) (movies : list Item)
  (movie : Item) :
  seen p (movies ++ [movie])
  = seen p movies
    ++ (if decide (year_month time_Format (WatchedAt movie) = p)
        then [movie] else []).
Proof.
  unfold seen_in. by rewrite filter_app.
Qed.

(** The map of the first loop holds, under a year and a month, the records
    seen then, in their order, and nothing under a year and a month in
    which there is none. *)
Lemma groupMap_cells (movies : list Item) (p : gostring * gostring) :
  cell (foldl add ∅ movies) p
  = match seen p movies with
    | [] => None
    | l => Some l
    end.
Proof.
  induction movies as [|movie movies IH] using rev_ind.
  - unfold cell. cbn [foldl]. by rewrite lookup_empty.
  - rewrite foldl_app. cbn [foldl]. rewrite seen_snoc.
    set (gm := foldl add ∅ movies) in *.
    destruct p as [y m]. unfold cell in *. cbn [fst snd] in *.
    unfold groupMap_add at 1.
    set (year := time_Format (str "2006") (WatchedAt movie)).
    set (month := time_Format (str "01") (WatchedAt movie)).
    destruct (decide (year = y)) as [<-|Hy].
    + rewrite lookup_insert_eq. cbn [mbind option_bind].
      destruct (decide (month = m)) as [<-|Hm].
      * rewrite lookup_insert_eq, decide_True by done.
        destruct (gm !! year) as [months|];
          cbn [mbind option_bind default from_option] in *; unfold id.
        -- rewrite IH. by destruct (seen_in _ _ _ movies).
        -- rewrite lookup_empty. cbn [default from_option].
           by destruct (seen_in _ _ _ movies).
      * rewrite lookup_insert_ne by done.
        rewrite decide_False
          by (intros Heq; apply (f_equal snd) in Heq; exact (Hm Heq)).
        rewrite app_nil_r.
        destruct (gm !! year) as [months|];
          cbn [mbind option_bind default from_option] in *; unfold id;
          [done|].
        by rewrite lookup_empty.
    + rewrite lookup_insert_ne by done.
      rewrite decide_False
        by (intros Heq; apply (f_equal fst) in Heq; exact (Hy Heq)).
      by rewrite app_nil_r.
Qed.

Lemma cell_Some (movies : list Item) (p : gostring * gostring)
  (months : gmap gostring (list Item)) (l : list Item) :
  foldl add ∅ movies !! p.1 = Some months ->
  months !! p.2 = Some l ->
  l = seen p movies /\ l <> [].
Proof.
  intros Hy Hm. pose proof (groupMap_cells movies p) as Hcell.
  unfold cell in Hcell. rewrite Hy in Hcell. cbn in Hcell.
  rewrite Hm in Hcell. destruct (seen_in _ _ _ movies); [done|].
  injection Hcell as ->. done.
Qed.

Lemma bind_singleton {X Y : Type} (f : X -> Y) (l : list X) :
  (x ← l; [f x]) = f <$> l.
Proof. induction l as [|x l IH]; [done|]. cbn. by rewrite IH. Qed.

Lemma StronglySorted_bind {X Y : Type} (R : relation X) (S : relation Y)
  (f : X -> list Y) (l : list X) :
  StronglySorted R l ->
  (forall x, x ∈ l -> StronglySorted S (f x)) ->
  (forall x1 x2 y1 y2,
     R x1 x2 -> y1 ∈ f x1 -> y2 ∈ f x2 -> S y1 y2) ->
  StronglySorted S (l ≫= f).
Proof.
  intros Hl Hin Hout. induction Hl as [|x l Hl IH Hall]; [constructor|].
  cbn. assert (StronglySorted S (l ≫= f)) as Hrest.
  { apply IH. intros x' Hx'. apply Hin. by apply list_elem_of_further. }
  assert (forall y1 y2, y1 ∈ f x -> y2 ∈ l ≫= f -> S y1 y2) as Hcross.
  { intros y1 y2 Hy1 Hy2. apply list_elem_of_bind in Hy2 as (x2 & Hy2 & Hx2).
    rewrite Forall_forall in Hall. by apply (Hout x x2); [apply Hall|..]. }
  pose proof (Hin x (list_elem_of_here _ _)) as Hfx.
  induction Hfx as [|y ys Hys IHys Hally]; [done|].
  cbn. constructor.
  - apply IHys. intros y1 y2 Hy1. apply Hcross.
    by apply list_elem_of_further.
  - apply Forall_app. split; [done|].
    apply Forall_forall. intros y2 Hy2. apply Hcross; [|done].
    apply list_elem_of_here.
Qed.

Lemma fmap_in_ext {X Y : Type} (f g : X -> Y) (l : list X) :
  (forall x, x ∈ l -> f x = g x) -> f <$> l = g <$> l.
Proof.
  induction l as [|x l IH]; intros Hfg; [done|]. cbn. f_equal.
  - apply Hfg, list_elem_of_here.
  - apply IH. intros x' Hx'. by apply Hfg, list_elem_of_further.
Qed.

Lemma bind_pairs {X Y Z : Type} (l : list X) (k : X -> list Y)
  (g : X -> Y -> Z) (h : X * Y -> Z) :
  (forall x y, x ∈ l -> y ∈ k x -> g x y = h (x, y)) ->
  (x ← l; y ← k x; [g x y]) = h <$> (x ← l; y ← k x; [(x, y)]).
Proof.
  induction l as [|x l IH]; intros Hgh; [done|]. cbn.
  rewrite fmap_app. f_equal.
  - rewrite !bind_singleton, <- list_fmap_compose.
    apply fmap_in_ext. intros y Hy. cbn. apply Hgh; [|done].
    apply list_elem_of_here.
  - apply IH. intros x' y Hx' Hy. apply Hgh; [|done].
    by apply list_elem_of_further.
Qed.

(** [groupByYearMonth] gives one group for each year and month in which a
    record was seen, the later ones first, and a group holds the records
    seen in its year and month, in the order of the input. *)
Lemma groupByYearMonth_timeline (movies : list Item) :
  exists ps,
    timeline WatchedAt time_Format movies ps /\
    groupByYearMonth WatchedAt mkGroup time_Format movies
    = (fun p => mkGroup p.1 p.2 (seen p movies)) <$> ps.
Proof.
  unfold groupByYearMonth.
  set (gm := foldl add ∅ movies).
  set (months_of := fun year =>
         sortReverse (map_keys (default ∅ (gm !! year)))).
  exists (year ← sortReverse (map_keys gm);
          month ← months_of year; [(year, month)]).
  destruct (sortReverse_keys gm) as [Hys Hyk].
  assert (forall y m,
            y ∈ sortReverse (map_keys gm) -> m ∈ months_of y ->
            exists months l,
              gm !! y = Some months /\ months !! m = Some l /\
              l = seen (y, m) movies /\ l <> []) as Hcellin.
  { intros y m Hy Hm. apply Hyk in Hy as [months Hy].
    unfold months_of in Hm. rewrite Hy in Hm. cbn [default] in Hm.
    apply (proj2 (sortReverse_keys months)) in Hm as [l Hm].
    exists months, l. split; [done|]. split; [done|].
    by apply (cell_Some movies (y, m) months l). }
  split; [split|].
  - apply (StronglySorted_bind (fun a b => string_lt b a = true)).
    + exact Hys.
    + intros y Hy. rewrite bind_singleton.
      pose proof (proj1 (sortReverse_keys (default ∅ (gm !! y)))) as Hms.
      fold (months_of y) in Hms.
      induction Hms as [|m ms Hms IH Hall]; [constructor|].
      cbn. constructor; [exact IH|].
      apply Forall_fmap, (Forall_impl _ _ _ Hall).
      intros m' Hlt. by right.
    + intros y1 y2 p1 p2 Hlt Hp1 Hp2.
      rewrite bind_singleton in Hp1, Hp2.
      apply list_elem_of_fmap in Hp1 as (m1 & -> & _).
      apply list_elem_of_fmap in Hp2 as (m2 & -> & _). by left.
  - intros [y m]. rewrite list_elem_of_bind. split.
    + intros (y' & Hp & Hy). rewrite bind_singleton in Hp.
      apply list_elem_of_fmap in Hp as (m' & [= -> ->] & Hm).
      destruct (Hcellin _ _ Hy Hm) as (months & l & _ & _ & -> & Hne).
      unfold seen_in in Hne.
      destruct (filter _ movies) as [|movie rest] eqn:Hf; [done|].
      assert (movie ∈ filter
                (fun movie =>
                   year_month time_Format (WatchedAt movie) = (y', m'))
                movies) as Hin by (rewrite Hf; apply list_elem_of_here).
      apply list_elem_of_filter in Hin as [Hym Hin]. eauto.
    + intros (movie & Hin & Hym).
      pose proof (groupMap_cells movies (y, m)) as Hcell.
      assert (movie ∈ seen (y, m) movies) as Hseen
        by (by apply list_elem_of_filter).
      destruct (seen_in _ _ _ movies) as [|x l] eqn:Hl;
        [by apply elem_of_nil in Hseen|].
      unfold cell in Hcell. fold gm in Hcell. cbn [fst snd] in Hcell.
      destruct (gm !! y) as [months|] eqn:Hy; [|done].
      cbn [mbind option_bind] in Hcell.
      exists y. split.
      * rewrite bind_singleton. apply list_elem_of_fmap.
        exists m. split; [done|]. unfold months_of. rewrite Hy.
        apply (proj2 (sortReverse_keys months)). eauto.
      * apply Hyk. eauto.
  - apply bind_pairs. intros y m Hy Hm.
    destruct (Hcellin _ _ Hy Hm) as (months & l & Hgy & Hgm & <- & _).
    cbn [fst snd]. rewrite Hgy. cbn [default from_option]. unfold id.
    by rewrite Hgm.
Qed.
End TimelineFacts.

Lemma later_asym (p q : gostring * gostring) : later p q -> ~ later q p.
Proof.
  intros [H1|[Heq H1]] [H2|[Heq' H2]].
  - apply string_lt_asym in H1. congruence.
  - rewrite Heq' in H1. pose proof (string_lt_asym _ _ H1). congruence.
  - rewrite Heq in H2. pose proof (string_lt_asym _ _ H2). congruence.
  - apply string_lt_asym in H1. congruence.
Qed.

(** A list in strictly descending order is determined by its elements. *)
Lemma sorted_later_unique (ps qs : list (gostring * gostring)) :
  StronglySorted later ps -> StronglySorted later qs ->
  (forall p, p ∈ ps <-> p ∈ qs) -> ps = qs.
Proof.
  intros Hps. revert qs.
  induction Hps as [|a ps Hps IH Ha]; intros qs Hqs Hsame.
  - destruct qs as [|b qs]; [done|].
    by destruct (proj1 (elem_of_nil b)); apply Hsame, list_elem_of_here.
  - destruct Hqs as [|b qs Hqs Hb].
    { by destruct (proj1 (elem_of_nil a)); apply Hsame, list_elem_of_here. }
    rewrite Forall_forall in Ha, Hb.
    assert (a = b) as <-.
    { pose proof (proj1 (Hsame a) (list_elem_of_here _ _)) as Hab.
      pose proof (proj2 (Hsame b) (list_elem_of_here _ _)) as Hba.
      apply elem_of_cons in Hab as [Hab|Hab]; [done|].
      apply elem_of_cons in Hba as [Hba|Hba]; [done|].
      destruct (later_asym _ _ (Ha _ Hba) (Hb _ Hab)). }
    f_equal. apply IH; [done|]. intros p. split; intros Hp.
    + pose proof (proj1 (Hsame p) (list_elem_of_further _ _ _ Hp)) as Hq.
      apply elem_of_cons in Hq as [->|Hq]; [|done].
      destruct (later_asym _ _ (Ha _ Hp) (Ha _ Hp)).
    + pose proof (proj2 (Hsame p) (list_elem_of_further _ _ _ Hp)) as Hq.
      apply elem_of_cons in Hq as [->|Hq]; [|done].
      destruct (later_asym _ _ (Hb _ Hp) (Hb _ Hp)).
Qed.

Lemma timeline_unique {Item : Type} (WatchedAt : Item -> Time)
  (time_Format : gostring -> Time -> gostring) (movies : list Item)
  (ps qs : list (gostring * gostring)) :
  timeline WatchedAt time_Format movies ps ->
  timeline WatchedAt time_Format movies qs -> ps = qs.
Proof.
  intros [Hps Hp] [Hqs Hq]. apply sorted_later_unique; [done..|].
  intros p. by rewrite Hp, Hq.
Qed.

(** X21: [groupMoviesByYearMonth] returns the timeline of its records: there is
    one list of the years and months of the viewing dates that holds each
    once with the later ones first, whatever order the maps are walked in,
    and the groups are, in the order of that list, its years and months,
    each with the records seen then, in the order of the input. *)
Theorem groupMoviesByYearMonth_timeline
  (time_Format : gostring -> Time -> gostring) (movies : list Movie.t) :
  (exists ps, timeline Movie.WatchedAt time_Format movies ps) /\
  (forall ps,
     timeline Movie.WatchedAt time_Format movies ps ->
     groupMoviesByYearMonth time_Format movies
     = (fun p => TimelineGroup.mk p.1 p.2
                   (seen_in Movie.WatchedAt time_Format p movies)) <$> ps).
Proof.
  destruct (groupByYearMonth_timeline Movie.WatchedAt TimelineGroup.mk
              time_Format movies) as (ps & Hps & Hgroups).
  split; [by exists ps|]. intros qs Hqs.
  by rewrite (timeline_unique _ _ _ _ _ Hqs Hps).
Qed.

(** X22: [groupJavMoviesByYearMonth] returns the timeline of its records, in
    the same sense. *)
Theorem groupJavMoviesByYearMonth_timeline
  (time_Format : gostring -> Time -> gostring)
  (javMovies : list JavMovie.t) :
  (exists ps, timeline JavMovie.WatchedAt time_Format javMovies ps) /\
  (forall ps,
     timeline JavMovie.WatchedAt time_Format javMovies ps ->
     groupJavMoviesByYearMonth time_Format javMovies
     = (fun p => JavTimelineGroup.mk p.1 p.2
                   (seen_in JavMovie.WatchedAt time_Format p javMovies))
       <$> ps).
Proof.
  destruct (groupByYearMonth_timeline JavMovie.WatchedAt
              JavTimelineGroup.mk time_Format javMovies)
    as (ps & Hps & Hgroups).
  split; [by exists ps|]. intros qs Hqs.
  by rewrite (timeline_unique _ _ _ _ _ Hqs Hps).
Qed.

Example groupByYearMonth_sample :
  groupByYearMonth (fun t : Time => t) (fun year month l => (year, month, l))
    monthsFormat [5; 17; 6; 5; 30]
  = [(str "2002", str "07", [30]); (str "2001", str "06", [17]);
     (str "2000", str "07", [6]); (str "2000", str "06", [5; 5])].
Proof. vm_compute. reflexivity. Qed.

(** ** The second add-item handler *)

Lemma downloadJavImage_error_files
  (join : gostring -> gostring -> gostring) (w : world)
  (imageURL filename imageDir : gostring) (fs : files) :
  (forall path, os_Remove_err w path = None) ->
  match dl_result (downloadJavImage join w imageURL filename imageDir fs)
  with
  | Err _ =>
      forall path,
        fs !! path = None ->
        dl_files (downloadJavImage join w imageURL filename imageDir fs)
          !! path = None
  | Ok _ => True
  end.
Proof.
  intros Hremove.
  assert (jav_download_post join w imageURL filename imageDir fs
            (downloadJavImage join w imageURL filename imageDir fs))
    as Hpost.
  { unfold downloadJavImage. case_decide; [by left|].
    apply downloadJavImage_loop_post; unfold download_maxRetries; lia. }
  unfold jav_download_post in Hpost.
  destruct (dl_result _) as [localPath|e]; [done|].
  intros path Hpath. destruct Hpost as [->|[resp Hsave]]; [done|].
  unfold after_failed_save in Hsave. rewrite Hremove in Hsave.
  rewrite Hsave, lookup_delete. by case_decide.
Qed.

Section JavHandlerFacts.
Variable w : world.
Variable exec_script : gostring -> exec_result.
Variable json_Unmarshal : gostring -> result (gmap gostring json_value).
Variable strings_ToUpper : gostring -> gostring.
Variable filepath_Join : gostring -> gostring -> gostring.
Variable filepath_Base : gostring -> gostring.
Variable time_Parse : gostring -> result Time.
Variable globalImageDir : gostring.
Variable unique_violation : error.

Abbreviation javHandler :=
  (addJavMovieHandler w exec_script json_Unmarshal strings_ToUpper
     filepath_Join filepath_Base time_Parse globalImageDir
     unique_violation).
Abbreviation javCreated :=
  (jav_created w filepath_Join filepath_Base time_Parse globalImageDir).

(** What a creating resolution of the second handler does. *)
Lemma addJavMovieHandler_creates r s javInfo :
  jav_new_record w exec_script json_Unmarshal strings_ToUpper r s javInfo ->
  let movie := javCreated r s javInfo in
  let files :=
    if decide (JavMovie.Poster javInfo = []) then jav_disk s
    else dl_files (downloadJavImage filepath_Join w (JavMovie.Poster javInfo)
                     (JavMovie.Number javInfo ++ str "_poster")
                     globalImageDir (jav_disk s)) in
  let refusal :=
    match db_write_err w with
    | Some e => Some e
    | None => match jav_db s !! JavMovie.Number javInfo with
              | Some _ => Some unique_violation
              | None => None
              end
    end in
  javHandler r s
  = Returns
      (match refusal with
       | Some err => jav_redirect_error (str "保存影片失败: " ++ err)
       | None => jav_redirect_success (str "影片添加成功")
       end,
       {| jav_db := match refusal with
                    | Some _ => jav_db s
                    | None => <[JavMovie.Number javInfo := movie]> (jav_db s)
                    end;
          jav_disk := files;
          jav_ticks := S (S (jav_ticks s)) |}).
Proof.
  intros [Hm Hn Habsent Hscraped] movie files refusal.
  subst movie files refusal.
  unfold addJavMovieHandler. rewrite Hm, bool_decide_eq_true_2 by done.
  cbn [negb]. rewrite decide_False by done.
  unfold jav_Now, jav_First. cbn [jav_db jav_disk jav_ticks].
  replace (match db_query_err w with
           | Some _ => None
           | None => jav_db s !! strings_ToUpper (FormValue r (str "number"))
           end) with (@None JavMovie.t)
    by (by destruct (db_query_err w)).
  rewrite Hscraped. unfold jav_created, jav_poster, javWatchedAt, jav_Create.
  destruct (decide (JavMovie.Poster javInfo = []));
    cbn [jav_db jav_disk jav_ticks JavMovie.Number];
    destruct (db_write_err w); try reflexivity;
    destruct (jav_db s !! JavMovie.Number javInfo); reflexivity.
Qed.

(** X23: the requests the second handler turns away, and what the script can do
    to it: a request that is not a POST and a request without a number are
    answered at once and leave the state alone; a script that fails or
    prints no record ends the request with the error, after the one clock
    reading; a script after whose output [fetchJavInfoFromPython] panics
    makes the handler panic. *)
Theorem addJavMovieHandler_refusals r s :
  (Method r <> str "POST" ->
   javHandler r s
   = Returns (HttpError (str "Method not allowed") StatusMethodNotAllowed,
              s)) /\
  (Method r = str "POST" -> FormValue r (str "number") = [] ->
   javHandler r s = Returns (jav_redirect_error (str "请输入番号"), s)) /\
  (Method r = str "POST" -> FormValue r (str "number") <> [] ->
   jav_First w (strings_ToUpper (FormValue r (str "number"))) s = None ->
   match fetchJavInfoFromPython json_Unmarshal
           (exec_script (FormValue r (str "number"))) with
   | Panics msg => javHandler r s = Panics msg
   | Returns (Err err) =>
       javHandler r s
       = Returns (jav_redirect_error (str "获取影片信息失败: " ++ err),
                  {| jav_db := jav_db s; jav_disk := jav_disk s;
                     jav_ticks := S (jav_ticks s) |})
   | Returns (Ok _) => True
   end).
Proof.
  unfold addJavMovieHandler. split; [|split].
  - intros Hm. by rewrite bool_decide_eq_false_2.
  - intros Hm Hn. rewrite bool_decide_eq_true_2 by done. cbn [negb].
    by rewrite decide_True.
  - intros Hm Hn Hfirst. rewrite bool_decide_eq_true_2 by done. cbn [negb].
    rewrite decide_False by done. unfold jav_Now.
    unfold jav_First in *. cbn [jav_db jav_disk jav_ticks]. rewrite Hfirst.
    by destruct (fetchJavInfoFromPython _ _) as [[javInfo|err]|msg].
Qed.

(** X24: a number whose record is in the table: the script is not run, whatever
    it would print; the record is saved with the new viewing date and is
    otherwise as it was; the files are untouched; and the reply is the
    success redirect also when the database refuses the write. *)
Theorem addJavMovieHandler_existing r s existing :
  Method r = str "POST" ->
  FormValue r (str "number") <> [] ->
  db_query_err w = None ->
  jav_db s !! strings_ToUpper (FormValue r (str "number")) = Some existing ->
  forall script,
    addJavMovieHandler w script json_Unmarshal strings_ToUpper
      filepath_Join filepath_Base time_Parse globalImageDir
      unique_violation r s
    = Returns
        (jav_redirect_success (str "影片已存在，已更新观看时间"),
         {| jav_db :=
              match db_write_err w with
              | Some _ => jav_db s
              | None =>
                  <[JavMovie.Number existing :=
                      jav_set_WatchedAt (javWatchedAt w time_Parse r s)
                        existing]> (jav_db s)
              end;
            jav_disk := jav_disk s;
            jav_ticks := S (jav_ticks s) |}).
Proof.
  intros Hm Hn Hq Hfound script. unfold addJavMovieHandler.
  rewrite Hm, bool_decide_eq_true_2 by done. cbn [negb].
  rewrite decide_False by done.
  unfold jav_Now, jav_First, jav_Save, javWatchedAt.
  cbn [jav_db jav_disk jav_ticks]. rewrite Hq, Hfound.
  by destruct (db_write_err w).
Qed.

(** X25: a poster that cannot be downloaded: the record is created without a
    poster reference, while its thumbnail reference is the remote one the
    script gave and its number is the one the script gave; the reply is
    the success redirect when the database takes the record.  The files
    are those the download left, which hold no new file where removals
    work. *)
Theorem jav_poster_failure_stores_none r s javInfo e :
  jav_new_record w exec_script json_Unmarshal strings_ToUpper r s javInfo ->
  dl_result (downloadJavImage filepath_Join w (JavMovie.Poster javInfo)
               (JavMovie.Number javInfo ++ str "_poster") globalImageDir
               (jav_disk s)) = Err e ->
  db_write_err w = None ->
  jav_db s !! JavMovie.Number javInfo = None ->
  exists movie s',
    javHandler r s
    = Returns (jav_redirect_success (str "影片添加成功"), s') /\
    jav_db s' = <[JavMovie.Number javInfo := movie]> (jav_db s) /\
    JavMovie.Poster movie = [] /\
    JavMovie.Thumb movie = JavMovie.Thumb javInfo /\
    JavMovie.Number movie = JavMovie.Number javInfo /\
    jav_disk s'
    = dl_files (downloadJavImage filepath_Join w (JavMovie.Poster javInfo)
                  (JavMovie.Number javInfo ++ str "_poster") globalImageDir
                  (jav_disk s)) /\
    ((forall path, os_Remove_err w path = None) ->
     forall path, jav_disk s !! path = None -> jav_disk s' !! path = None).
Proof.
  intros Hnew Hdl Hw Habsent.
  rewrite (addJavMovieHandler_creates _ _ _ Hnew). rewrite Hw, Habsent.
  eexists _, _. split; [reflexivity|]. cbn [jav_db jav_disk].
  split; [reflexivity|]. split.
  { cbn [jav_created JavMovie.Poster]. unfold jav_poster.
    case_decide; [done|]. by rewrite Hdl. }
  split; [done|]. split; [done|]. split.
  { case_decide as Hposter; [|done]. unfold downloadJavImage.
    by rewrite decide_True. }
  intros Hremove path Hpath. case_decide; [done|].
  pose proof (downloadJavImage_error_files filepath_Join w
                (JavMovie.Poster javInfo)
                (JavMovie.Number javInfo ++ str "_poster") globalImageDir
                (jav_disk s) Hremove) as Hpost.
  rewrite Hdl in Hpost. by apply Hpost.
Qed.

(** X26: the number under which a record is stored is the one the script
    reports, and the number under which it is looked for is the upper-case
    form of the one submitted.  When the two differ, the same submission
    made again does not find the record, runs the script again, and is
    refused by the database, which holds the number already; the table is
    as the first submission left it. *)
Theorem jav_number_is_not_normalised r s javInfo :
  jav_new_record w exec_script json_Unmarshal strings_ToUpper r s javInfo ->
  db_query_err w = None ->
  db_write_err w = None ->
  jav_db s !! JavMovie.Number javInfo = None ->
  JavMovie.Number javInfo
  <> strings_ToUpper (FormValue r (str "number")) ->
  exists s1 s2,
    javHandler r s
    = Returns (jav_redirect_success (str "影片添加成功"), s1) /\
    is_Some (jav_db s1 !! JavMovie.Number javInfo) /\
    javHandler r s1
    = Returns (jav_redirect_error (str "保存影片失败: " ++ unique_violation),
               s2) /\
    jav_db s2 = jav_db s1.
Proof.
  intros Hnew Hq Hw Habsent Hdiff.
  rewrite (addJavMovieHandler_creates _ _ _ Hnew). rewrite Hw, Habsent.
  eexists _, _. split; [reflexivity|]. cbn [jav_db].
  split; [rewrite lookup_insert_eq; eauto|].
  match goal with
  | |- javHandler r ?s1 = _ /\ _ =>
      assert (jav_new_record w exec_script json_Unmarshal strings_ToUpper
                r s1 javInfo) as Hnew1
  end.
  { destruct Hnew as [Hm Hn Ha Hs]. split; try done.
    rewrite Hq in Ha |- *. cbn [jav_db].
    by rewrite lookup_insert_ne. }
  rewrite (addJavMovieHandler_creates _ _ _ Hnew1). rewrite Hw.
  cbn [jav_db]. rewrite lookup_insert_eq. split; reflexivity.
Qed.

(** X27: a lookup that fails counts as a record that is absent: with a database
    that cannot answer the query, the handler runs the script and asks the
    database to create the record; when the table holds the number, the
    reply is the error of the creation and the table is as it was. *)
Theorem jav_failed_lookup_scrapes r s javInfo e existing :
  Method r = str "POST" ->
  FormValue r (str "number") <> [] ->
  db_query_err w = Some e ->
  db_write_err w = None ->
  fetchJavInfoFromPython json_Unmarshal
    (exec_script (FormValue r (str "number"))) = Returns (Ok javInfo) ->
  jav_db s !! JavMovie.Number javInfo = Some existing ->
  exists s',
    javHandler r s
    = Returns (jav_redirect_error (str "保存影片失败: " ++ unique_violation),
               s') /\
    jav_db s' = jav_db s.
Proof.
  intros Hm Hn Hq Hw Hs Hfound.
  assert (jav_new_record w exec_script json_Unmarshal strings_ToUpper r s
            javInfo) as Hnew.
  { split; try done. by rewrite Hq. }
  rewrite (addJavMovieHandler_creates _ _ _ Hnew). rewrite Hw, Hfound.
  eexists. split; reflexivity.
Qed.

End JavHandlerFacts.

(** The number is submitted in lower case and the table holds its
    upper-case form. *)
Lemma addJavMovieHandler_existing_witness :
  exists s',
    addJavMovieHandler (catalogueWorld imageServed) echoScript echoDecoder
      asciiUpper joinPath basePath noTimeParse (str "images")
      uniqueViolation (javRequest (str "ssis-001"))
      (javServerWith (str "SSIS-001"))
    = Returns (jav_redirect_success (str "影片已存在，已更新观看时间"), s') /\
    jav_disk s' = ∅.
Proof.
  eexists. split.
  - apply (addJavMovieHandler_existing (catalogueWorld imageServed)
             echoDecoder asciiUpper joinPath basePath noTimeParse
             (str "images") uniqueViolation (javRequest (str "ssis-001"))
             (javServerWith (str "SSIS-001")) (echoInfo (str "SSIS-001")));
      [reflexivity | vm_compute; congruence | reflexivity
      | vm_compute; reflexivity].
  - reflexivity.
Defined.

(** The poster cannot be reached. *)
Lemma jav_poster_failure_stores_none_witness :
  exists movie s',
    addJavMovieHandler (catalogueWorld imageUnreachable) echoScript
      echoDecoder asciiUpper joinPath basePath noTimeParse (str "images")
      uniqueViolation (javRequest (str "SSIS-001")) emptyJavServer
    = Returns (jav_redirect_success (str "影片添加成功"), s') /\
    jav_db s' !! str "SSIS-001" = Some movie /\
    JavMovie.Poster movie = [] /\
    JavMovie.Thumb movie = str "https://img.example/thumb.jpg".
Proof.
  destruct (jav_poster_failure_stores_none
              (catalogueWorld imageUnreachable) echoScript echoDecoder
              asciiUpper joinPath basePath noTimeParse (str "images")
              uniqueViolation (javRequest (str "SSIS-001")) emptyJavServer
              (echoInfo (str "SSIS-001"))
              (str "failed to download image after 3 attempts: "
               ++ str "context deadline exceeded"))
    as (movie & s' & Hreply & Hdb & Hposter & Hthumb & _).
  - split; [reflexivity | vm_compute; congruence | reflexivity
           | vm_compute; reflexivity].
  - vm_compute. reflexivity.
  - reflexivity.
  - reflexivity.
  - exists movie, s'. split; [exact Hreply|]. split.
    + rewrite Hdb. apply lookup_insert_eq.
    + split; [exact Hposter|]. rewrite Hthumb. reflexivity.
Defined.

(** The number is submitted in lower case, and the script reports it as
    it was submitted. *)
Lemma jav_number_is_not_normalised_witness :
  exists s1 s2,
    addJavMovieHandler (catalogueWorld imageServed) echoScript echoDecoder
      asciiUpper joinPath basePath noTimeParse (str "images")
      uniqueViolation (javRequest (str "ssis-001")) emptyJavServer
    = Returns (jav_redirect_success (str "影片添加成功"), s1) /\
    addJavMovieHandler (catalogueWorld imageServed) echoScript echoDecoder
      asciiUpper joinPath basePath noTimeParse (str "images")
      uniqueViolation (javRequest (str "ssis-001")) s1
    = Returns (jav_redirect_error
                 (str "保存影片失败: " ++ uniqueViolation), s2).
Proof.
  destruct (jav_number_is_not_normalised
              (catalogueWorld imageServed) echoScript echoDecoder
              asciiUpper joinPath basePath noTimeParse (str "images")
              uniqueViolation (javRequest (str "ssis-001")) emptyJavServer
              (echoInfo (str "ssis-001")))
    as (s1 & s2 & Hfirst & _ & Hsecond & _).
  - split; [reflexivity | vm_compute; congruence | reflexivity
           | vm_compute; reflexivity].
  - reflexivity.
  - reflexivity.
  - reflexivity.
  - vm_compute. congruence.
  - by exists s1, s2.
Defined.

(** The table holds the number and the database cannot be queried. *)
Lemma jav_failed_lookup_scrapes_witness :
  exists s',
    addJavMovieHandler lockedQueryWorld echoScript echoDecoder asciiUpper
      joinPath basePath noTimeParse (str "images") uniqueViolation
      (javRequest (str "SSIS-001")) (javServerWith (str "SSIS-001"))
    = Returns (jav_redirect_error
                 (str "保存影片失败: " ++ uniqueViolation), s') /\
    jav_db s' = jav_db (javServerWith (str "SSIS-001")).
Proof.
  apply (jav_failed_lookup_scrapes lockedQueryWorld echoScript echoDecoder
           asciiUpper joinPath basePath noTimeParse (str "images")
           uniqueViolation (javRequest (str "SSIS-001"))
           (javServerWith (str "SSIS-001")) (echoInfo (str "SSIS-001"))
           (str "database is locked") (echoInfo (str "SSIS-001")));
    [reflexivity | vm_compute; congruence | reflexivity | reflexivity
    | vm_compute; reflexivity | vm_compute; reflexivity].
Defined.

(** ** What a request can do to the tables *)

Lemma keyed_by_id_insert (table : gmap gostring Movie.t) (m : Movie.t) :
  keyed_by_id table -> keyed_by_id (<[Movie.DoubanID m := m]> table).
Proof.
  intros Hk k m' Hm'. destruct (decide (k = Movie.DoubanID m)) as [->|Hne].
  - rewrite lookup_insert_eq in Hm'. by injection Hm' as <-.
  - rewrite lookup_insert_ne in Hm' by done. by apply Hk.
Qed.

Lemma keyed_by_number_insert (table : gmap gostring JavMovie.t)
  (m : JavMovie.t) :
  keyed_by_number table ->
  keyed_by_number (<[JavMovie.Number m := m]> table).
Proof.
  intros Hk k m' Hm'. destruct (decide (k = JavMovie.Number m)) as [->|Hne].
  - rewrite lookup_insert_eq in Hm'. by injection Hm' as <-.
  - rewrite lookup_insert_ne in Hm' by done. by apply Hk.
Qed.

Lemma insert_keeps_keys {V : Type} (table : gmap gostring V) (k k' : gostring)
  (v : V) :
  is_Some (table !! k') -> is_Some (<[k := v]> table !! k').
Proof.
  intros Hk'. destruct (decide (k' = k)) as [->|Hne].
  - rewrite lookup_insert_eq. eauto.
  - by rewrite lookup_insert_ne.
Qed.

Section HandlerTable.
Variable w : world.
Variable json : json_decoder.
Variable ParseFloat : gostring -> result float64.
Variable filepath_Join : gostring -> gostring -> gostring.
Variable filepath_Base : gostring -> gostring.
Variable time_Parse : gostring -> result Time.
Variable globalImageDir : gostring.

Abbreviation handler3 :=
  (addMovieHandler w json ParseFloat filepath_Join filepath_Base time_Parse
     globalImageDir).

Ltac run_M3 :=
  unfold do_fetchRating, do_downloadImage, do_FetchDoubanMediaInfo,
    db_First, db_Create, db_Save, db_store, time_Now,
    record_call, mbind, M_bind, mret, M_ret;
  cbn [db disk ticks calls fst snd].

(** The one write of a request: the table after [addMovieHandler] is the
    table before it, or that table with one record put under the
    identifier the record carries. *)
Lemma addMovieHandler_one_write r s :
  exists written : option Movie.t,
    db (snd (handler3 r s))
    = match written with
      | None => db s
      | Some m => <[Movie.DoubanID m := m]> (db s)
      end.
Proof.
  destruct (decide (Method r = str "POST")) as [Hm|Hm].
  2:{ exists None. unfold addMovieHandler.
      by rewrite bool_decide_eq_false_2. }
  destruct (decide (FormValue r (str "douban_url") = [])) as [Hl|Hl].
  { exists None. unfold addMovieHandler.
    rewrite bool_decide_eq_true_2 by done. cbn [negb].
    by rewrite decide_True. }
  destruct (ParseDoubanURL (FormValue r (str "douban_url"))
              (detectSubjectType (FormValue r (str "douban_url"))))
    as [subjectID|err] eqn:Hp.
  2:{ exists None. unfold addMovieHandler.
      rewrite bool_decide_eq_true_2 by done. cbn [negb].
      rewrite decide_False by done. run_M3. by rewrite Hp. }
  destruct (fst (FetchDoubanMediaInfo w json
                   (detectSubjectType (FormValue r (str "douban_url")))
                   subjectID)) as [mediaInfo|err] eqn:Hf.
  2:{ exists None. unfold addMovieHandler.
      rewrite bool_decide_eq_true_2 by done. cbn [negb].
      rewrite decide_False by done. run_M3. rewrite Hp. run_M3.
      by rewrite Hf. }
  assert (resolved_request w json r subjectID mediaInfo) as Hres
    by (by split).
  destruct (db_query_err w) as [err|] eqn:Hq.
  { exists None.
    by rewrite (addMovieHandler_resolved w json ParseFloat filepath_Join
                  filepath_Base time_Parse globalImageDir _ s _ _ Hres),
         Hq. }
  destruct (db s !! subjectID) as [existing|] eqn:Hfound.
  - destruct (addMovieHandler_updates w json ParseFloat filepath_Join
                filepath_Base time_Parse globalImageDir r s subjectID
                mediaInfo existing) as (_ & _ & Hdb & _); [by split|].
    rewrite Hdb. destruct (db_write_err w); [by exists None|].
    by exists (Some (updated_movie w filepath_Join filepath_Base time_Parse
                       globalImageDir r s subjectID mediaInfo existing)).
  - destruct (addMovieHandler_creates w json ParseFloat filepath_Join
                filepath_Base time_Parse globalImageDir r s subjectID
                mediaInfo) as (_ & Hdb & _); [by split|].
    rewrite Hdb. destruct (db_write_err w); [by exists None|].
    by exists (Some (created_movie w ParseFloat filepath_Join filepath_Base
                       time_Parse globalImageDir r s subjectID mediaInfo)).
Qed.

(** X28: whatever the request and the answers of the world,
    [addMovieHandler] writes at most one record, under the identifier the
    record carries: it removes no record, leaves every other record as it
    was, and a table in which every record is stored under its own
    identifier stays such a table. *)
Theorem addMovieHandler_table_invariant r s :
  let table := db (snd (handler3 r s)) in
  (forall k, is_Some (db s !! k) -> is_Some (table !! k)) /\
  (exists k, forall k', k' <> k -> table !! k' = db s !! k') /\
  (keyed_by_id (db s) -> keyed_by_id table).
Proof.
  intros table. subst table.
  destruct (addMovieHandler_one_write r s) as [[m|] ->].
  - split; [intros k; apply insert_keeps_keys|]. split.
    + exists (Movie.DoubanID m). intros k' Hk'.
      by rewrite lookup_insert_ne.
    + apply keyed_by_id_insert.
  - split; [done|]. split; [by exists []|done].
Qed.

End HandlerTable.

Section JavHandlerTable.
Variable w : world.
Variable exec_script : gostring -> exec_result.
Variable json_Unmarshal : gostring -> result (gmap gostring json_value).
Variable strings_ToUpper : gostring -> gostring.
Variable filepath_Join : gostring -> gostring -> gostring.
Variable filepath_Base : gostring -> gostring.
Variable time_Parse : gostring -> result Time.
Variable globalImageDir : gostring.
Variable unique_violation : error.

Abbreviation javHandler2 :=
  (addJavMovieHandler w exec_script json_Unmarshal strings_ToUpper
     filepath_Join filepath_Base time_Parse globalImageDir
     unique_violation).

Lemma addJavMovieHandler_one_write r s reply s' :
  javHandler2 r s = Returns (reply, s') ->
  exists written : option JavMovie.t,
    jav_db s'
    = match written with
      | None => jav_db s
      | Some m => <[JavMovie.Number m := m]> (jav_db s)
      end.
Proof.
  unfold addJavMovieHandler.
  destruct (negb (bool_decide (Method r = str "POST")));
    [intros [= _ <-]; by exists None|].
  destruct (decide (FormValue r (str "number") = []));
    [intros [= _ <-]; by exists None|].
  unfold jav_Now, jav_First, jav_Save, jav_Create.
  cbn [jav_db jav_disk jav_ticks].
  destruct (match db_query_err w with
            | Some _ => None
            | None => jav_db s !! strings_ToUpper (FormValue r (str "number"))
            end) as [existing|].
  { destruct (db_write_err w); intros [= _ <-]; [by exists None|].
    by exists (Some (jav_set_WatchedAt
                       (if decide (FormValue r (str "watched_at") = [])
                        then clock w (jav_ticks s)
                        else match time_Parse
                                     (FormValue r (str "watched_at")) with
                             | Ok parsed => parsed
                             | Err _ => clock w (jav_ticks s)
                             end) existing)). }
  destruct (fetchJavInfoFromPython _ _) as [[javInfo|err]|msg];
    [|intros [= _ <-]; by exists None|done].
  destruct (decide (JavMovie.Poster javInfo = []));
    cbn [jav_db jav_disk jav_ticks JavMovie.Number];
    (destruct (db_write_err w); [intros [= _ <-]; by exists None|]);
    (destruct (jav_db s !! JavMovie.Number javInfo);
       [intros [= _ <-]; by exists None|]);
    intros [= _ <-]; cbn [jav_db];
    match goal with
    | |- exists _, <[_ := ?m]> _ = _ => by exists (Some m)
    end.
Qed.

(** X29: whatever the request, the script and the answers of the world, a
    call of [addJavMovieHandler] that returns has written at most one
    record, under the number the record carries: it removes no record,
    leaves every other record as it was, and a table in which every record
    is stored under its own number stays such a table. *)
Theorem addJavMovieHandler_table_invariant r s :
  match javHandler2 r s with
  | Panics _ => True
  | Returns (_, s') =>
      (forall k, is_Some (jav_db s !! k) -> is_Some (jav_db s' !! k)) /\
      (exists k, forall k', k' <> k -> jav_db s' !! k' = jav_db s !! k') /\
      (keyed_by_number (jav_db s) -> keyed_by_number (jav_db s'))
  end.
Proof.
  destruct (javHandler2 r s) as [[reply s']|msg] eqn:Hrun; [|done].
  destruct (addJavMovieHandler_one_write _ _ _ _ Hrun) as [[m|] ->].
  - split; [intros k; apply insert_keeps_keys|]. split.
    + exists (JavMovie.Number m). intros k' Hk'.
      by rewrite lookup_insert_ne.
    + apply keyed_by_number_insert.
  - split; [done|]. split; [by exists []|done].
Qed.

End JavHandlerTable.

(** ** The removal that fails *)

(** X30: [downloadImage] removes the file of a failed save while the file
    is still open, and discards the error of the removal.  When the first
    attempt gets a 200 response, the file is created, the copy into it
    fails and the removal fails too, the call returns the error of the
    save, and the destination holds what the copy had written; the other
    files are as they were. *)
Theorem failed_removal_leaves_partial_file
  (join : gostring -> gostring -> gostring) (w : world)
  (imageURL subjectID imageDir : gostring) (fs fs2 : files)
  (resp : response) (err e : error) :
  imageURL <> [] ->
  http_NewRequest w imageURL = None ->
  http_Do w imageURL 1 = DoReturns resp ->
  StatusCode resp = StatusOK ->
  os_Create_err w (join imageDir (subjectID ++ imageExt (ContentType resp)))
  = None ->
  io_Copy w (join imageDir (subjectID ++ imageExt (ContentType resp)))
    (Body resp)
    (<[join imageDir (subjectID ++ imageExt (ContentType resp)) := []]> fs)
  = (fs2, Some err) ->
  os_Remove_err w (join imageDir (subjectID ++ imageExt (ContentType resp)))
  = Some e ->
  let r := downloadImage join w imageURL subjectID imageDir fs in
  let path := join imageDir (subjectID ++ imageExt (ContentType resp)) in
  dl_result r = Err (str "failed to save image: " ++ err) /\
  dl_trace r = [EvDo imageURL 1] /\
  dl_files r = fs2 /\
  is_Some (dl_files r !! path) /\
  (forall other, other <> path -> dl_files r !! other = fs !! other).
Proof.
  intros Hurl Hreq Hdo Hst Hcreate Hcopy Hremove r path. subst r.
  unfold downloadImage. rewrite decide_False by done.
  unfold download_maxRetries. cbn [downloadImage_loop].
  rewrite Hreq, Hdo. apply Z.eqb_eq in Hst. rewrite Hst. cbn [negb app].
  unfold os_Create. rewrite Hcreate, Hcopy.
  unfold os_Remove. rewrite Hremove.
  cbn [dl_result dl_trace dl_files]. fold path in Hcopy |- *.
  split; [done|]. split; [done|]. split; [done|].
  unfold io_Copy in Hcopy.
  assert (exists written, fs2 = <[path := written]> fs) as [written ->].
  { destruct (disk_fault w path) as [[n e']|];
      [destruct (n <? length _)%nat|];
      injection Hcopy as <- _; rewrite insert_insert_eq; eauto. }
  split; [rewrite lookup_insert_eq; eauto|].
  intros other Hother. by rewrite lookup_insert_ne.
Qed.

(** The disk is full after four bytes and the open file cannot be removed:
    the four bytes stay at the destination. *)
Lemma failed_removal_leaves_partial_file_witness :
  let r := downloadImage joinPath stuckDisk sampleImageURL (str "42")
             (str "images") ∅ in
  dl_result r = Err (str "failed to save image: no space left on device") /\
  dl_files r !! str "images/42.png" = Some (str "PNGD").
Proof.
  intros r.
  destruct (failed_removal_leaves_partial_file joinPath stuckDisk
              sampleImageURL (str "42") (str "images") ∅
              {[ str "images/42.png" := str "PNGD" ]}
              (response200 (str "image/png") (ReadAll (str "PNGDATA")))
              (str "no space left on device") (str "sharing violation"))
    as (Hresult & _ & Hfiles & _).
  - vm_compute; congruence.
  - reflexivity.
  - reflexivity.
  - reflexivity.
  - reflexivity.
  - vm_compute. reflexivity.
  - reflexivity.
  - fold r in Hresult, Hfiles. split; [exact Hresult|].
    rewrite Hfiles. vm_compute. reflexivity.
Defined.
